(** * NEC infrared decoder of the Mosiwi space-station kit

    Shallow embedding of [python/Mosiwi_lib_examples/Mosiwi_nec_ir.py]:
    the acquisition buffer [PulseReader] (timer callback [getPulses],
    conversion [convertToMS]) and the decoder [necDecoder] ([match],
    [checkZero], [checkOne], [decodeCommand], [decode]).

    Python integers are unbounded, so they are [Z] without wrap-around.
    Attribute assignment is a record update; the program builds a single
    [necDecoder] owning a single [PulseReader], so the class-level lists
    of [PulseReader] are never shared between two instances and each buffer
    is one list.  Exceptions are explicit results.  The two float
    expressions of the source ([int(i * factor)] and [val * 0.20]) are
    embedded with exact arithmetic; module [Ieee] evaluates them in IEEE 754
    arithmetic, and the two agree on every value the decoder can see
    ([ieee_agrees]). *)

From Stdlib Require Import ZArith List Bool Lia QArith Qabs Lqa SpecFloat.
Import ListNotations.
Open Scope Z_scope.

(** ** Python runtime fragments used by the source *)

Module Py.

Inductive exn : Type :=
| IndexError   (* list index out of range *)
| ValueError.  (* negative shift count *)

Inductive result (A : Type) : Type :=
| Ok (a : A)
| Raise (e : exn).
Arguments Ok {A} a.
Arguments Raise {A} e.

Definition bind {A B} (m : result A) (k : A -> result B) : result B :=
  match m with
  | Ok a => k a
  | Raise e => Raise e
  end.

(** [l[i]]: a negative index counts from the end. *)
Definition getitem (l : list Z) (i : Z) : result Z :=
  let n := Z.of_nat (length l) in
  let j := if i <? 0 then i + n else i in
  if (0 <=? j) && (j <? n)
  then match nth_error l (Z.to_nat j) with
       | Some v => Ok v
       | None => Raise IndexError
       end
  else Raise IndexError.

(** [a << n] *)
Definition lshift (a n : Z) : result Z :=
  if n <? 0 then Raise ValueError else Ok (Z.shiftl a n).

(** [range(start, stop, step)] for a positive step. *)
Definition range (start stop step : Z) : list Z :=
  map (fun k => start + step * Z.of_nat k)
      (seq 0 (Z.to_nat ((stop - start + step - 1) / step))).

End Py.

Import Py.

Notation "x <- m ;; k" := (bind m (fun x => k))
  (at level 61, m at next level, right associativity).
Notation "' pat <- m ;; k" := (bind m (fun x => match x with pat => k end))
  (at level 61, pat pattern, m at next level, right associativity).

(** ** class PulseReader *)

(** [pulseTimeout = 2**12-1] *)
Definition pulseTimeout : Z := 2 ^ 12 - 1.

(** [necDecoder.__init__] builds [PulseReader(irPin, 256000)]; no other
    frequency is ever passed. *)
Definition smFreq : Z := 256000.

(** The word the PIO program pushes on a timeout ([mov(isr, invert(null))]). *)
Definition TIMEOUT_WORD : Z := 0xffffffff.

(** [sm] is the RX FIFO of the PIO state machine ([self.sm.rx_fifo()] is its
    length, [self.sm.get()] pops its head).  [rawCommandTimeBuffer] is the
    attribute that line 89 of the source creates. *)
Record PulseReader : Type := mkPulseReader {
  sm : list Z;
  rawPulsesBuf : list Z;
  rawRepeatTimeBuf : list Z;
  rawCommandTimeBuf : list Z;
  rawCommandTimeBuffer : option (list Z);
  newRepeatFlag : bool;
  newCommandFlag : bool
}.

Definition set_sm (v : list Z) (p : PulseReader) : PulseReader :=
  mkPulseReader v (rawPulsesBuf p) (rawRepeatTimeBuf p) (rawCommandTimeBuf p)
    (rawCommandTimeBuffer p) (newRepeatFlag p) (newCommandFlag p).
Definition set_rawPulsesBuf (v : list Z) (p : PulseReader) : PulseReader :=
  mkPulseReader (sm p) v (rawRepeatTimeBuf p) (rawCommandTimeBuf p)
    (rawCommandTimeBuffer p) (newRepeatFlag p) (newCommandFlag p).
Definition set_rawRepeatTimeBuf (v : list Z) (p : PulseReader) : PulseReader :=
  mkPulseReader (sm p) (rawPulsesBuf p) v (rawCommandTimeBuf p)
    (rawCommandTimeBuffer p) (newRepeatFlag p) (newCommandFlag p).
Definition set_rawCommandTimeBuf (v : list Z) (p : PulseReader) : PulseReader :=
  mkPulseReader (sm p) (rawPulsesBuf p) (rawRepeatTimeBuf p) v
    (rawCommandTimeBuffer p) (newRepeatFlag p) (newCommandFlag p).
Definition set_rawCommandTimeBuffer (v : list Z) (p : PulseReader) : PulseReader :=
  mkPulseReader (sm p) (rawPulsesBuf p) (rawRepeatTimeBuf p) (rawCommandTimeBuf p)
    (Some v) (newRepeatFlag p) (newCommandFlag p).
Definition set_newRepeatFlag (v : bool) (p : PulseReader) : PulseReader :=
  mkPulseReader (sm p) (rawPulsesBuf p) (rawRepeatTimeBuf p) (rawCommandTimeBuf p)
    (rawCommandTimeBuffer p) v (newCommandFlag p).
Definition set_newCommandFlag (v : bool) (p : PulseReader) : PulseReader :=
  mkPulseReader (sm p) (rawPulsesBuf p) (rawRepeatTimeBuf p) (rawCommandTimeBuf p)
    (rawCommandTimeBuffer p) (newRepeatFlag p) v.

(** [int(i * factor)] with [factor = 2 * 1000000 / self.smFreq].  At 256000 Hz
    the factor is 7.8125 = 125/16, a dyadic number, and the product is exact
    for every tick count the 12-bit counters of the PIO program can give, so
    the float computation is the exact quotient truncated toward zero
    ([Ieee.toMSF] is the float computation). *)
Definition toMS (i : Z) : Z := Z.quot (i * (2 * 1000000)) smFreq.

(** [PulseReader.convertToMS], lines 82-91. *)
Definition convertToMS (code : list Z) (p : PulseReader) : PulseReader :=
  let p := set_rawRepeatTimeBuf [] p in
  if (length code =? 2)%nat then
    let p := fold_left
               (fun p i => set_rawRepeatTimeBuf (rawRepeatTimeBuf p ++ [toMS i]) p)
               code p in
    set_newRepeatFlag true p
  else
    let p := set_rawCommandTimeBuffer [] p in
    let p := fold_left
               (fun p i => set_rawCommandTimeBuf (rawCommandTimeBuf p ++ [toMS i]) p)
               code p in
    set_newCommandFlag true p.

(** [PulseReader.getPulses], lines 93-100: one word per timer tick. *)
Definition getPulses (p : PulseReader) : PulseReader :=
  match sm p with
  | [] => p
  | pulse :: fifo =>
      let p := set_sm fifo p in
      if pulse =? TIMEOUT_WORD then
        let p := convertToMS (rawPulsesBuf p) p in
        set_rawPulsesBuf [] p
      else
        set_rawPulsesBuf (rawPulsesBuf p ++ [pulseTimeout - pulse]) p
  end.

(** ** class necDecoder *)

Record necDecoder : Type := mkNecDecoder {
  necData : Z;
  commandRepeat : bool;
  pulseReader : PulseReader;
  err : option Z
}.

Definition set_necData (v : Z) (d : necDecoder) : necDecoder :=
  mkNecDecoder v (commandRepeat d) (pulseReader d) (err d).
Definition set_pulseReader (p : PulseReader) (d : necDecoder) : necDecoder :=
  mkNecDecoder (necData d) (commandRepeat d) p (err d).
Definition set_err (v : Z) (d : necDecoder) : necDecoder :=
  mkNecDecoder (necData d) (commandRepeat d) (pulseReader d) (Some v).

(** [self.__DATA_PULSE_WIDTH = 560] *)
Definition DATA_PULSE_WIDTH : Z := 560.

(** [necDecoder.__init__(irPin, commandRepeat)] *)
Definition init (commandRepeat : bool) : necDecoder :=
  mkNecDecoder 0 commandRepeat
    (mkPulseReader [] [] [] [] None false false) None.

(** [ALLOWED_DEVIATION=0.20] *)
Definition ALLOWED_DEVIATION : Q := 20 # 100.

(** [necDecoder.match], line 112, on exact numbers:
    [abs(val-expectedVal) < val * ALLOWED_DEVIATION]. *)
Definition matchQ (val expectedVal : Q) : bool :=
  if Qlt_le_dec (Qabs (val - expectedVal)) (val * ALLOWED_DEVIATION)
  then true else false.

(** The decoder only calls [match] on integers (the buffers hold [int(...)]
    values, the expected values are integer literals). *)
Definition match_ (val expectedVal : Z) : bool :=
  matchQ (inject_Z val) (inject_Z expectedVal).

(** [necDecoder.checkZero], line 115. *)
Definition checkZero (p1 p2 : Z) : bool :=
  match_ p1 DATA_PULSE_WIDTH && match_ p2 DATA_PULSE_WIDTH.

(** [necDecoder.checkOne], line 118. *)
Definition checkOne (p1 p2 : Z) : bool :=
  match_ p1 DATA_PULSE_WIDTH && match_ p2 (DATA_PULSE_WIDTH * 3).

(** The same two expressions in IEEE 754 arithmetic with round to nearest
    even: [prec = 24, emax = 128] is the single precision of MicroPython on
    the RP2040, [prec = 53, emax = 1024] the double precision of CPython.
    Integers enter by exact conversion, decimal literals as the nearest
    float. *)
Module Ieee.
Section Format.

Variables prec emax : Z.

Definition of_int (z : Z) : spec_float := binary_normalize prec emax z 0 false.

(** [int(x)]: truncation toward zero. *)
Definition to_int (x : spec_float) : Z :=
  match x with
  | S754_finite s m e =>
      let a := if 0 <=? e then Z.pos m * 2 ^ e else Z.pos m / 2 ^ (- e) in
      if s then - a else a
  | _ => 0
  end.

(** The literal [n/d] written in decimal, e.g. [0.20] is [lit 20 100]. *)
Definition lit (n d : Z) : spec_float :=
  SFdiv prec emax (of_int n) (of_int d).

(** [abs(val-expectedVal) < val * ALLOWED_DEVIATION] *)
Definition matchF (val expectedVal : spec_float) : bool :=
  SFltb (SFabs (SFsub prec emax val expectedVal))
        (SFmul prec emax val (lit 20 100)).

(** [int(i * factor)] with [factor = 2 * 1000000 / self.smFreq] *)
Definition toMSF (i : Z) : Z :=
  to_int (SFmul prec emax (of_int i)
                (SFdiv prec emax (of_int (2 * 1000000)) (of_int smFreq))).

(** The same two expressions with the constants [0.20] and [factor]
    evaluated beforehand. *)
Definition matchWith (c val expectedVal : spec_float) : bool :=
  SFltb (SFabs (SFsub prec emax val expectedVal)) (SFmul prec emax val c).

Definition toMSWith (factor : spec_float) (i : Z) : Z :=
  to_int (SFmul prec emax (of_int i) factor).

(** For the tick count [i]: the conversion, and the comparisons of the
    converted value with the expected values [es], give the same results in
    this format and in exact arithmetic ([5 * |v - e| < v] on integers). *)
Definition agreesWith (c factor : spec_float) (es : list (Z * spec_float))
  (i : Z) : bool :=
  (toMSWith factor i =? toMS i)
  && forallb (fun e => Bool.eqb (matchWith c (of_int (toMS i)) (snd e))
                                (5 * Z.abs (toMS i - fst e) <? toMS i))
             es.

Fixpoint all_from (test : Z -> bool) (n : nat) (v : Z) : bool :=
  match n with
  | O => true
  | S n => test v && all_from test n (v + 1)
  end.

(** The values [match] is called with as [expectedVal]. *)
Definition expected : list Z := [560; 560 * 3; 9000; 4500; 2250].

(** Agreement on the tick counts [0 .. n-1]. *)
Definition agrees (n : nat) : bool :=
  all_from
    (agreesWith (lit 20 100)
                (SFdiv prec emax (of_int (2 * 1000000)) (of_int smFreq))
                (map (fun e => (e, of_int e)) expected))
    n 0.

End Format.
End Ieee.

(** Which [return] of [decodeCommand] was taken: the source returns a bool,
    [True] at line 139 and [False] at lines 126, 134, 138 and 140; the
    commented-out prints of the source name the three failures inside the
    frame. *)
Inductive outcome : Type :=
| Decoded              (* line 139, return True *)
| InsufficientData     (* line 140 *)
| InvalidStartSequence (* line 126 *)
| InvalidOneBit        (* line 134 *)
| InvalidZeroBit.      (* line 138 *)

Definition succeeded (o : outcome) : bool :=
  match o with Decoded => true | _ => false end.

(** The [for] loop of [decodeCommand], lines 128-139, over the remaining
    values of [range(2, len(rawPulses)-1, 2)].  [int(i/2)] is exact: [i] is
    even. *)
Fixpoint decodeLoop (rawPulses : list Z) (idx : list Z) (d : necDecoder)
  : result (outcome * necDecoder) :=
  match idx with
  | [] => Ok (Decoded, d)
  | i :: idx =>
      a <- getitem rawPulses i ;;
      b <- getitem rawPulses (i + 1) ;;
      if a + b >? DATA_PULSE_WIDTH * 3 then
        if checkOne a b then
          bit <- lshift 1 (31 - (Z.quot i 2 - 1)) ;;
          decodeLoop rawPulses idx (set_necData (Z.lor (necData d) bit) d)
        else Ok (InvalidOneBit, d)
      else
        if negb (checkZero a b) then Ok (InvalidZeroBit, d)
        else decodeLoop rawPulses idx d
  end.

(** [necDecoder.decodeCommand], lines 120-140. *)
Definition decodeCommand (rawPulses : list Z) (d : necDecoder)
  : result (outcome * necDecoder) :=
  if (1 <? length rawPulses)%nat then
    let d := set_necData 0 d in
    let d := set_pulseReader (set_newCommandFlag false (pulseReader d)) d in
    r0 <- getitem rawPulses 0 ;;
    if negb (match_ r0 9000) then
      r1 <- getitem rawPulses 1 ;;
      if negb (match_ r1 4500) then Ok (InvalidStartSequence, d)
      else decodeLoop rawPulses
             (range 2 (Z.of_nat (length rawPulses) - 1) 2) d
    else decodeLoop rawPulses
           (range 2 (Z.of_nat (length rawPulses) - 1) 2) d
  else Ok (InsufficientData, d).

(** Lines 149-157 of [decode]: the second [if] and the final
    [return False]. *)
Definition decodeRepeat (d : necDecoder) : result (bool * necDecoder) :=
  if newRepeatFlag (pulseReader d) then
    let rawRepeat := rawRepeatTimeBuf (pulseReader d) in
    let d := set_pulseReader (set_rawRepeatTimeBuf [] (pulseReader d)) d in
    if negb (length rawRepeat =? 0)%nat then
      let d := set_pulseReader (set_newCommandFlag false (pulseReader d)) d in
      r0 <- getitem rawRepeat 0 ;;
      if match_ r0 9000 then
        r1 <- getitem rawRepeat 1 ;;
        if match_ r1 2250 then
          Ok (true, if negb (commandRepeat d) then set_necData 0xffffffff d else d)
        else Ok (false, d)
      else Ok (false, d)
    else Ok (false, d)
  else Ok (false, d).

(** [necDecoder.decode], lines 142-157.  The first [if] returns only when
    [decodeCommand] succeeded; every other path goes on to the second. *)
Definition decode (d : necDecoder) : result (bool * necDecoder) :=
  if newCommandFlag (pulseReader d) then
    let rawPulses := rawCommandTimeBuf (pulseReader d) in
    let d := set_pulseReader (set_rawCommandTimeBuf [] (pulseReader d)) d in
    '(o, d) <- decodeCommand rawPulses d ;;
    if succeeded o then Ok (true, set_err 0 d)
    else decodeRepeat d
  else decodeRepeat d.

(** ** The system: PIO producer, timer callback, polling application *)

(** What can happen to a decoder: the PIO program pushes a 32-bit word into
    the RX FIFO, the 4 kHz timer runs [getPulses], or the application calls
    [decode()]. *)
Inductive event : Type :=
| Push (w : Z)
| Tick
| Poll.

Definition push (w : Z) (d : necDecoder) : necDecoder :=
  set_pulseReader (set_sm (sm (pulseReader d) ++ [w]) (pulseReader d)) d.

Definition tick (d : necDecoder) : necDecoder :=
  set_pulseReader (getPulses (pulseReader d)) d.

(** Runs the events in order; the values returned by the [decode()] calls
    are collected, latest first. *)
Fixpoint run (evs : list event) (rets : list bool) (d : necDecoder)
  : result (list bool * necDecoder) :=
  match evs with
  | [] => Ok (rets, d)
  | Push w :: evs => run evs rets (push w d)
  | Tick :: evs => run evs rets (tick d)
  | Poll :: evs => '(b, d) <- decode d ;; run evs (b :: rets) d
  end.

(** The reachable states of a decoder built with repeat policy [cr]. *)
Inductive reachable (cr : bool) : necDecoder -> Prop :=
| reach_init : reachable cr (init cr)
| reach_push d w :
    reachable cr d -> 0 <= w <= 0xffffffff -> reachable cr (push w d)
| reach_tick d :
    reachable cr d -> reachable cr (tick d)
| reach_poll d b d' :
    reachable cr d -> decode d = Ok (b, d') -> reachable cr d'.

(** The timer callback runs to completion, but it can run between any two
    statements of [decode()].  Every state of such an execution is reached
    by pushes, ticks and the single attribute writes of [decode] and
    [decodeCommand] (lines 122, 123, 131, 145, 147, 151, 153, 155), taken
    one at a time. *)
Inductive interleaved (cr : bool) : necDecoder -> Prop :=
| il_init : interleaved cr (init cr)
| il_push d w :
    interleaved cr d -> 0 <= w <= 0xffffffff -> interleaved cr (push w d)
| il_tick d :
    interleaved cr d -> interleaved cr (tick d)
| il_necData d v :
    interleaved cr d -> interleaved cr (set_necData v d)
| il_commandFlag d :
    interleaved cr d ->
    interleaved cr (set_pulseReader (set_newCommandFlag false (pulseReader d)) d)
| il_commandBuf d :
    interleaved cr d ->
    interleaved cr (set_pulseReader (set_rawCommandTimeBuf [] (pulseReader d)) d)
| il_repeatBuf d :
    interleaved cr d ->
    interleaved cr (set_pulseReader (set_rawRepeatTimeBuf [] (pulseReader d)) d)
| il_err d v :
    interleaved cr d -> interleaved cr (set_err v d).

(** A burst as the PIO program delivers it: one word per measured duration
    (the counter counts down from [pulseTimeout]), then the timeout word,
    each word taken by one timer tick. *)
Definition burst (ticks : list Z) : list event :=
  flat_map (fun w => [Push w; Tick])
           (map (fun t => pulseTimeout - t) ticks ++ [TIMEOUT_WORD]).

(** [n] successive calls of [decode()] with no producer activity in between;
    the returned values are collected in call order. *)
Fixpoint polls (n : nat) (d : necDecoder) : result (list bool * necDecoder) :=
  match n with
  | O => Ok ([], d)
  | S n =>
      '(b, d) <- decode d ;;
      '(bs, d) <- polls n d ;;
      Ok (b :: bs, d)
  end.

(** ** The frame layout, in the words of the specification *)

(** The [k]-th data pair of a burst ([k = 0] for the first pair, which
    follows the two start values). *)
Definition pair_lo (rawPulses : list Z) (k : nat) : Z :=
  nth (2 + 2 * k) rawPulses 0.
Definition pair_hi (rawPulses : list Z) (k : nat) : Z :=
  nth (3 + 2 * k) rawPulses 0.

(** A pair is valid when it passes the zero-bit or the one-bit classifier. *)
Definition pair_valid (rawPulses : list Z) (k : nat) : bool :=
  checkZero (pair_lo rawPulses k) (pair_hi rawPulses k)
  || checkOne (pair_lo rawPulses k) (pair_hi rawPulses k).

Definition pair_one (rawPulses : list Z) (k : nat) : bool :=
  checkOne (pair_lo rawPulses k) (pair_hi rawPulses k).

(** Number of data pairs the loop of [decodeCommand] visits. *)
Definition pair_count (rawPulses : list Z) : nat :=
  (length rawPulses - 2) / 2.

(** The code in which pair [k0] decides bit [31 - k0], pair [k0 + 1] bit
    [31 - (k0 + 1)], and so on for [n] pairs. *)
Fixpoint frame_code (rawPulses : list Z) (k0 n : nat) : Z :=
  match n with
  | O => 0
  | S n =>
      Z.lor (if pair_one rawPulses k0 then 2 ^ (31 - Z.of_nat k0) else 0)
            (frame_code rawPulses (S k0) n)
  end.

(** The pending buffers of a decoder. *)
Definition commandBurst (d : necDecoder) : list Z :=
  rawCommandTimeBuf (pulseReader d).
Definition repeatBurst (d : necDecoder) : list Z :=
  rawRepeatTimeBuf (pulseReader d).

(** The decoder as lines 122-123 of [decodeCommand] leave it, before the
    start sequence is looked at. *)
Definition frameStart (d : necDecoder) : necDecoder :=
  set_pulseReader (set_newCommandFlag false (pulseReader (set_necData 0 d)))
                  (set_necData 0 d).

(** The indices [2, 4, ...] of [n] pairs from pair [k0] on. *)
Definition pair_indices (k0 n : nat) : list Z :=
  map (fun k => 2 + 2 * Z.of_nat k) (seq k0 n).

(** The decoder after line 145 of [decode]: the pending command burst has
    been copied out and the buffer cleared. *)
Definition takeCommand (d : necDecoder) : necDecoder :=
  set_pulseReader (set_rawCommandTimeBuf [] (pulseReader d)) d.

(** ** Test vectors *)

(** The decoder the events leave (the decoder itself if a call raised). *)
Definition after (evs : list event) (d : necDecoder) : necDecoder :=
  match run evs [] d with
  | Ok (_, d') => d'
  | Raise _ => d
  end.

(** Every pushed word is a 32-bit word. *)
Definition wellformed (evs : list event) : bool :=
  forallb (fun e => match e with
                    | Push w => (0 <=? w) && (w <=? 0xffffffff)
                    | _ => true
                    end) evs.

(** Tick counts at 256000 Hz: a start pair 9000/4500 us followed by 16
    one-pairs; the repeat frame 9000/2250 us; three short glitches. *)
Definition all_ones_ticks : list Z := [1152; 576] ++ concat (repeat [72; 215] 16).
Definition repeat_ticks : list Z := [1152; 288].
Definition noise_ticks : list Z := [10; 10; 10].

(** A repeat was reported, then noise arrived. *)
Definition noise_after_repeat : necDecoder :=
  after (burst repeat_ticks ++ [Poll] ++ burst noise_ticks) (init false).

(** An empty burst (two timeouts in a row), then a repeat frame. *)
Definition repeat_after_empty : necDecoder :=
  after (burst [] ++ burst repeat_ticks) (init false).

(** Noise, then a repeat frame, both before the next poll. *)
Definition repeat_after_noise : necDecoder :=
  after (burst noise_ticks ++ burst repeat_ticks) (init false).

(** With [commandRepeat=True]: a key was decoded, then noise and a repeat
    frame arrived before the next poll. *)
Definition held_key_after_noise : necDecoder :=
  after (burst all_ones_ticks ++ [Poll]
         ++ burst noise_ticks ++ burst repeat_ticks) (init true).

(** A command frame and its repeat frame arrived before the first poll; one
    poll has been made since. *)
Definition polled_once : necDecoder :=
  after (burst all_ones_ticks ++ burst repeat_ticks ++ [Poll]) (init false).

(** A pending valid frame of 34 values. *)
Definition frame_pending : necDecoder :=
  after (burst all_ones_ticks) (init false).

(** Two command bursts finalized with no poll in between. *)
Definition two_bursts : necDecoder :=
  after (burst [10; 10; 10] ++ burst [20; 20; 20]) (init false).

(** An empty burst is pending, nothing else. *)
Definition empty_burst_pending : necDecoder :=
  after (burst []) (init false).

(** A valid frame and its repeat frame are both pending. *)
Definition both_pending : necDecoder :=
  after (burst all_ones_ticks ++ burst repeat_ticks) (init false).

(** A repeat frame is pending, nothing else. *)
Definition repeat_pending : necDecoder :=
  after (burst repeat_ticks) (init false).

(** Nothing is left to consume: a raised flag has an empty buffer. *)
Definition quiescent (d : necDecoder) : Prop :=
  (newCommandFlag (pulseReader d) = true -> commandBurst d = [])
  /\ (newRepeatFlag (pulseReader d) = true -> repeatBurst d = []).

(** Two repeat frames finalized with no poll in between. *)
Definition two_repeats : necDecoder :=
  after (burst repeat_ticks ++ burst [1000; 300]) (init false).

(** ** Proof automation *)

(** Closes a leaf of [decodeRepeat]: the returned pair is known. *)
Ltac repeat_leaf H :=
  injection H as <- <-; cbn;
  repeat split; auto; try discriminate; try (intros; congruence).

(** A state obtained from a reachable one by attribute writes. *)
Ltac writes :=
  repeat first
    [ assumption
    | apply il_err
    | apply il_necData
    | apply il_commandFlag
    | apply il_commandBuf
    | apply il_repeatBuf ].

(** ** Whole bursts and whole frames *)

(** The decoder after one burst has been taken in: the accumulated tick
    counts are converted by [convertToMS] and the accumulator is emptied
    (lines 98-99 of [getPulses]). *)
Definition finalized (ticks : list Z) (d : necDecoder) : necDecoder :=
  set_pulseReader
    (set_rawPulsesBuf []
       (convertToMS (rawPulsesBuf (pulseReader d) ++ ticks) (pulseReader d)))
    d.

(** A frame as the remote control sends it: the start mark and space, then
    for each bit a mark followed by the space of a zero or of a one. *)
Definition frame (s0 s1 m z o : Z) (bits : list bool) : list Z :=
  s0 :: s1 :: flat_map (fun b : bool => if b then [m; o] else [m; z]) bits.

(** The 32 bits of a code, bit 31 first. *)
Definition nec_bits (c : Z) : list bool :=
  map (fun k => Z.testbit c (31 - Z.of_nat k)) (seq 0 32).

(** A pending burst of 68 values: the start pair and 33 one-pairs. *)
Definition overlong_pending : necDecoder :=
  after (burst ([1152; 576] ++ concat (repeat [72; 215] 33))) (init false).

(** A repeat frame whose space is too long is pending. *)
Definition bad_repeat_pending : necDecoder :=
  after (burst [1152; 576]) (init false).

(** ** The PIO program [pulses] *)

(** The program of lines 13-63 on the state machine of the RP2040: one
    instruction per clock cycle (no delays, no side-set), 32-bit scratch
    registers, a 4-word RX FIFO on which [push()] blocks when it is full.
    [jmp(x_dec, l)] branches when X is non-zero and decrements X in either
    case; [out(x, 12)] moves 12 bits of the OSR into X, from the top since
    the program is assembled with the default shift direction; the jump pin
    is the input of the IR receiver, high when idle. *)
Module Pio.

Inductive instr : Type :=
| MovOsrInvNull           (* mov(osr, invert(null)) *)
| MovIsrInvNull           (* mov(isr, invert(null)) *)
| OutX (n : Z)            (* out(x, n) *)
| MovYX                   (* mov(y, x) *)
| JmpPin (l : nat)        (* jmp(pin, l) *)
| JmpXDec (l : nat)       (* jmp(x_dec, l) *)
| JmpYDec (l : nat)       (* jmp(y_dec, l) *)
| Jmp (l : nat)           (* jmp(l) *)
| InX                     (* in_(x, 32) *)
| InY                     (* in_(y, 32) *)
| PushIsr.                (* push() *)

(** The labels are the addresses of the instructions that follow them. *)
Definition setup : nat := 0.
Definition wait_low : nat := 3.
Definition while_low : nat := 5.
Definition while_high : nat := 8.
Definition still_high : nat := 10.
Definition write : nat := 12.
Definition timeout : nat := 17.

Definition pulses : list instr :=
  [ MovOsrInvNull;        (*  0 setup      *)
    OutX 12;              (*  1            *)
    MovYX;                (*  2            *)
    JmpPin wait_low;      (*  3 wait_low   *)
    Jmp while_low;        (*  4            *)
    JmpPin while_high;    (*  5 while_low  *)
    JmpXDec while_low;    (*  6            *)
    Jmp timeout;          (*  7            *)
    JmpPin still_high;    (*  8 while_high *)
    Jmp write;            (*  9            *)
    JmpYDec while_high;   (* 10 still_high *)
    Jmp timeout;          (* 11            *)
    InX;                  (* 12 write      *)
    PushIsr;              (* 13            *)
    InY;                  (* 14            *)
    PushIsr;              (* 15            *)
    Jmp setup;            (* 16            *)
    MovIsrInvNull;        (* 17 timeout    *)
    PushIsr;              (* 18            *)
    Jmp setup ].          (* 19            *)

Record machine : Type := mkMachine {
  pc : nat;
  scratch_x : Z;
  scratch_y : Z;
  osr : Z;
  isr : Z
}.

Definition word (v : Z) : Z := v mod 2 ^ 32.

Definition FIFO_DEPTH : nat := 4.

(** [wrap()]: the address after the last instruction is [wrap_target()]. *)
Definition next (a : nat) : nat :=
  if (S a <? length pulses)%nat then S a else 0%nat.

(** One instruction, with the level of the jump pin in this cycle. *)
Definition exec (i : instr) (pin : bool) (s : machine) (fifo : list Z)
  : machine * list Z :=
  let n := next (pc s) in
  match i with
  | MovOsrInvNull =>
      (mkMachine n (scratch_x s) (scratch_y s) 0xffffffff (isr s), fifo)
  | MovIsrInvNull =>
      (mkMachine n (scratch_x s) (scratch_y s) (osr s) 0xffffffff, fifo)
  | OutX k =>
      (mkMachine n (Z.shiftr (osr s) (32 - k)) (scratch_y s)
                 (word (Z.shiftl (osr s) k)) (isr s), fifo)
  | MovYX =>
      (mkMachine n (scratch_x s) (scratch_x s) (osr s) (isr s), fifo)
  | JmpPin l =>
      (mkMachine (if pin then l else n)
                 (scratch_x s) (scratch_y s) (osr s) (isr s), fifo)
  | JmpXDec l =>
      (mkMachine (if scratch_x s =? 0 then n else l)
                 (word (scratch_x s - 1)) (scratch_y s) (osr s) (isr s), fifo)
  | JmpYDec l =>
      (mkMachine (if scratch_y s =? 0 then n else l)
                 (scratch_x s) (word (scratch_y s - 1)) (osr s) (isr s), fifo)
  | Jmp l =>
      (mkMachine l (scratch_x s) (scratch_y s) (osr s) (isr s), fifo)
  | InX =>
      (mkMachine n (scratch_x s) (scratch_y s) (osr s) (scratch_x s), fifo)
  | InY =>
      (mkMachine n (scratch_x s) (scratch_y s) (osr s) (scratch_y s), fifo)
  | PushIsr =>
      if (length fifo <? FIFO_DEPTH)%nat
      then (mkMachine n (scratch_x s) (scratch_y s) (osr s) 0,
            fifo ++ [isr s])
      else (s, fifo)
  end.

(** One clock cycle. *)
Definition cycle (pin : bool) (st : machine * list Z) : machine * list Z :=
  match nth_error pulses (pc (fst st)) with
  | Some i => exec i pin (fst st) (snd st)
  | None => st
  end.

(** The cycles of a pin trace, one level per cycle. *)
Definition cycles (trace : list bool) (st : machine * list Z)
  : machine * list Z :=
  fold_left (fun st pin => cycle pin st) trace st.



End Pio.

(** ** The board: PIO state machine, timer callback, application *)

(** The RX FIFO of the state machine is the [sm] of the [PulseReader]. *)
Record board : Type := mkBoard {
  pio : Pio.machine;
  decoder : necDecoder
}.

Definition fifo_of (b : board) : list Z := sm (pulseReader (decoder b)).

Definition with_fifo (fifo : list Z) (d : necDecoder) : necDecoder :=
  set_pulseReader (set_sm fifo (pulseReader d)) d.

Definition board_cycle (pin : bool) (b : board) : board :=
  let st := Pio.cycle pin (pio b, fifo_of b) in
  mkBoard (fst st) (with_fifo (snd st) (decoder b)).

Inductive board_event : Type :=
| Cycle (pin : bool)   (* one clock cycle of the state machine *)
| Timer                (* the 4 kHz timer calls [getPulses] *)
| Call.                (* the application calls [decode()] *)

Fixpoint board_run (evs : list board_event) (rets : list bool) (b : board)
  : result (list bool * board) :=
  match evs with
  | [] => Ok (rets, b)
  | Cycle pin :: evs => board_run evs rets (board_cycle pin b)
  | Timer :: evs => board_run evs rets (mkBoard (pio b) (tick (decoder b)))
  | Call :: evs =>
      '(r, d) <- decode (decoder b) ;;
      board_run evs (r :: rets) (mkBoard (pio b) d)
  end.



(** The pin during one measured pulse pair: low while [a] counts are taken
    (two cycles to leave [wait_low], then two cycles a count), high while
    [b] counts are taken (one cycle to reach [while_high], then two cycles a
    count), then low again; the ten cycles of writing the two words and
    reloading the counters fall into that low phase. *)
Definition pulse_pair (a b : nat) : list bool :=
  repeat false (2 + 2 * a) ++ repeat true (1 + 2 * b) ++ repeat false 10.

(** The end of a burst: a last mark of [a] counts, then the pin stays high
    until the counter of the high phase runs out. *)
Definition idle_end (a : nat) : list bool :=
  repeat false (2 + 2 * a) ++ repeat true (1 + 2 * 4096) ++ repeat true 7.

(** The pin during a whole burst of pulse pairs, with the timer taking the
    two words of each pair, and the timeout word, out of the FIFO. *)
Definition burst_on_pin (pairs : list (nat * nat)) (last : nat)
  : list board_event :=
  flat_map (fun p => map Cycle (pulse_pair (fst p) (snd p)) ++ [Timer; Timer])
           pairs
  ++ map Cycle (idle_end last) ++ [Timer].

(** The counts of a frame, pair by pair. *)
Definition frame_pairs (s0 s1 m z o : nat) (bits : list bool)
  : list (nat * nat) :=
  (s0, s1) :: map (fun b : bool => if b then (m, o) else (m, z)) bits.

(** The state machine waiting for the next mark, counters reloaded. *)
Definition pio_ready : Pio.machine :=
  Pio.mkMachine Pio.wait_low 4095 4095 0xfffff000 0.

(** The tick counts of a list of pulse pairs, in the order of the words. *)
Definition counts_of (pairs : list (nat * nat)) : list Z :=
  flat_map (fun p => [Z.of_nat (fst p); Z.of_nat (snd p)]) pairs.

(** The decoder with tick counts added to its accumulator. *)
Definition accumulated (ticks : list Z) (d : necDecoder) : necDecoder :=
  set_pulseReader
    (set_rawPulsesBuf (rawPulsesBuf (pulseReader d) ++ ticks) (pulseReader d))
    d.

(** ** Proof automation for the PIO program *)

Ltac pio_next :=
  repeat match goal with
         | |- context [Pio.next ?k] =>
             let v := eval vm_compute in (Pio.next k) in
             change (Pio.next k) with v
         end.

(** Executes the instructions whose address and operands are known. *)
Ltac pio_exec :=
  unfold Pio.cycle;
  repeat progress
    (cbn [fst snd Pio.pc nth_error Pio.pulses Pio.exec Pio.scratch_x
          Pio.scratch_y Pio.osr Pio.isr Pio.setup Pio.wait_low Pio.while_low
          Pio.while_high Pio.still_high Pio.write Pio.timeout];
     pio_next).


(** ** The application: [MicroPython/main.py] *)

(** The main loop (lines 143-166) with [Remote] (lines 76-114) and [Auto]
    (lines 117-140): the caller of [necDecoder.decode], and the one place
    outside the decoder that writes [necData] (line 150).  The peripherals
    are driven, not read back: their calls are collected in order as
    effects.  What one iteration reads from the hardware (the millisecond
    counter, the stepper's [steps_sum], the light sensor, the battery) is
    given to it as its readings.  The timer callbacks of the [PulseReader]
    are taken between two iterations. *)
Module Main.

(** Remote control key values, lines 18-34. *)
Definition key_0 : Z := 0xff9867.
Definition key_1 : Z := 0xffa25d.
Definition key_2 : Z := 0xff629d.
Definition key_3 : Z := 0xffe21d.
Definition key_4 : Z := 0xff22dd.
Definition key_5 : Z := 0xff02fd.
Definition key_6 : Z := 0xffc23d.
Definition key_7 : Z := 0xffe01f.
Definition key_8 : Z := 0xffa857.
Definition key_9 : Z := 0xff906f.
Definition key_asterisk : Z := 0xff6897.
Definition key_pound : Z := 0xffb04f.
Definition key_up : Z := 0xff18e7.
Definition key_down : Z := 0xff4ab5.
Definition key_left : Z := 0xff10ef.
Definition key_right : Z := 0xff5aa5.
Definition key_ok : Z := 0xff38c7.

(** The calls that reach a peripheral. *)
Inductive effect : Type :=
| stepper_degree (degree direction : Z)  (* stepper.degree(degree, direction) *)
| servo_left_setDegree (degree : Z)
| servo_right_setDegree (degree : Z)
| servo_door_setDegree (degree : Z)
| display_scroll_ph (ph : Z)             (* scroll_text("Ph: " + str(ph_) + ...) *)
| display_scroll_bat (percent : Z)       (* scroll_text("BAT: " + str(percent) + ...) *)
| display_scroll_remote                  (* scroll_text("Remote        ", 0.05) *)
| display_scroll_auto                    (* scroll_text("Auto        ", 0.05) *)
| led_on
| led_off
| laser_on
| laser_off
| buzzer_setVolume (volume : Z)
| time_sleep (seconds : Z).

(** The globals of lines 36-74 that the loop uses. *)
Record station : Type := mkStation {
  ir : necDecoder;
  laserSW : bool;
  ledSW : bool;
  buzzerSW : bool;
  doorSW : bool;
  servoAngle : Z;
  motorAngle : Z;
  mode : Z;
  modeFlag : Z;
  warningFlag : bool;
  start_time : Z;
  stop_time : Z
}.

Definition set_ir (v : necDecoder) (s : station) : station :=
  mkStation v (laserSW s) (ledSW s) (buzzerSW s) (doorSW s) (servoAngle s)
    (motorAngle s) (mode s) (modeFlag s) (warningFlag s) (start_time s)
    (stop_time s).
Definition set_laserSW (v : bool) (s : station) : station :=
  mkStation (ir s) v (ledSW s) (buzzerSW s) (doorSW s) (servoAngle s)
    (motorAngle s) (mode s) (modeFlag s) (warningFlag s) (start_time s)
    (stop_time s).
Definition set_ledSW (v : bool) (s : station) : station :=
  mkStation (ir s) (laserSW s) v (buzzerSW s) (doorSW s) (servoAngle s)
    (motorAngle s) (mode s) (modeFlag s) (warningFlag s) (start_time s)
    (stop_time s).
Definition set_buzzerSW (v : bool) (s : station) : station :=
  mkStation (ir s) (laserSW s) (ledSW s) v (doorSW s) (servoAngle s)
    (motorAngle s) (mode s) (modeFlag s) (warningFlag s) (start_time s)
    (stop_time s).
Definition set_doorSW (v : bool) (s : station) : station :=
  mkStation (ir s) (laserSW s) (ledSW s) (buzzerSW s) v (servoAngle s)
    (motorAngle s) (mode s) (modeFlag s) (warningFlag s) (start_time s)
    (stop_time s).
Definition set_servoAngle (v : Z) (s : station) : station :=
  mkStation (ir s) (laserSW s) (ledSW s) (buzzerSW s) (doorSW s) v
    (motorAngle s) (mode s) (modeFlag s) (warningFlag s) (start_time s)
    (stop_time s).
Definition set_motorAngle (v : Z) (s : station) : station :=
  mkStation (ir s) (laserSW s) (ledSW s) (buzzerSW s) (doorSW s) (servoAngle s)
    v (mode s) (modeFlag s) (warningFlag s) (start_time s) (stop_time s).
Definition set_mode (v : Z) (s : station) : station :=
  mkStation (ir s) (laserSW s) (ledSW s) (buzzerSW s) (doorSW s) (servoAngle s)
    (motorAngle s) v (modeFlag s) (warningFlag s) (start_time s) (stop_time s).
Definition set_modeFlag (v : Z) (s : station) : station :=
  mkStation (ir s) (laserSW s) (ledSW s) (buzzerSW s) (doorSW s) (servoAngle s)
    (motorAngle s) (mode s) v (warningFlag s) (start_time s) (stop_time s).
Definition set_warningFlag (v : bool) (s : station) : station :=
  mkStation (ir s) (laserSW s) (ledSW s) (buzzerSW s) (doorSW s) (servoAngle s)
    (motorAngle s) (mode s) (modeFlag s) v (start_time s) (stop_time s).
Definition set_start_time (v : Z) (s : station) : station :=
  mkStation (ir s) (laserSW s) (ledSW s) (buzzerSW s) (doorSW s) (servoAngle s)
    (motorAngle s) (mode s) (modeFlag s) (warningFlag s) v (stop_time s).
Definition set_stop_time (v : Z) (s : station) : station :=
  mkStation (ir s) (laserSW s) (ledSW s) (buzzerSW s) (doorSW s) (servoAngle s)
    (motorAngle s) (mode s) (modeFlag s) (warningFlag s) (start_time s) v.

(** The station when the loop is entered: [ir = necDecoder(2, True)],
    [servoAngle = 90], [warningFlag = True], everything else off or 0. *)
Definition boot : station :=
  mkStation (init true) false false false false 90 0 0 0 true 0 0.

(** What one iteration reads from the hardware.  [Remote] and [Auto] never
    run in the same iteration ([mode] is not written between lines 154 and
    161), so the sensor and the battery are read at most once. *)
Record readings : Type := mkReadings {
  ticks_144 : Z;          (* time.ticks_ms() at line 144 *)
  ticks_159 : Z;          (* time.ticks_ms() at line 159 *)
  ticks_164 : Z;          (* time.ticks_ms() at line 164 *)
  ticks_126 : Z;          (* time.ticks_ms() at line 126 *)
  stepper_stopped : bool; (* stepper.steps_sum <= 0 at line 80 or 83 *)
  readPh : Z;             (* ph.readPh(8) at line 94 or 139 *)
  percentageVoltage : Z;  (* bat.percentageVoltage() at line 113 or 119 *)
  readDegree : Z          (* ph.readDegree() at line 129 *)
}.

(** [time.ticks_diff] of MicroPython: the difference modulo the period of
    the tick counter (2^30 on the RP2040), taken in [-2^29, 2^29). *)
Definition TICKS_PERIOD : Z := 2 ^ 30.

Definition ticks_diff (ticks1 ticks2 : Z) : Z :=
  (ticks1 - ticks2 + TICKS_PERIOD / 2) mod TICKS_PERIOD - TICKS_PERIOD / 2.

(** Statements: a state change together with the effects it emits. *)
Definition stmt : Type := station -> station * list effect.

Definition pass : stmt := fun s => (s, []).

Definition assign (f : station -> station) : stmt := fun s => (f s, []).

Definition call (e : station -> effect) : stmt := fun s => (s, [e s]).

Definition andthen (p q : stmt) : stmt :=
  fun s => let (s1, e1) := p s in
           let (s2, e2) := q s1 in
           (s2, e1 ++ e2).

Definition ifelse (c : station -> bool) (p q : stmt) : stmt :=
  fun s => if c s then p s else q s.

Definition when (c : station -> bool) (p : stmt) : stmt := ifelse c p pass.

Notation "p ;;; q" := (andthen p q) (at level 62, right associativity).

(** [Remote()], lines 76-114.  The [elif] chain compares the same
    [ir.necData] throughout. *)
Definition Remote (r : readings) : stmt :=
  ifelse (fun s => necData (ir s) =? key_left)
    (when (fun _ => stepper_stopped r)
       (assign (fun s => set_motorAngle (motorAngle s + 1) s)) ;;;
     call (fun s => stepper_degree (motorAngle s) (-1)))
  (ifelse (fun s => necData (ir s) =? key_right)
    (when (fun _ => stepper_stopped r)
       (assign (fun s => set_motorAngle (motorAngle s + 1) s)) ;;;
     call (fun s => stepper_degree (motorAngle s) 1))
  (ifelse (fun s => necData (ir s) =? key_up)
    (when (fun s => servoAngle s <? 180)
       (assign (fun s => set_servoAngle (servoAngle s + 1) s)) ;;;
     call (fun s => servo_left_setDegree (servoAngle s)) ;;;
     call (fun s => servo_right_setDegree (180 - servoAngle s)))
  (ifelse (fun s => necData (ir s) =? key_down)
    (when (fun s => servoAngle s >? 0)
       (assign (fun s => set_servoAngle (servoAngle s - 1) s)) ;;;
     call (fun s => servo_left_setDegree (servoAngle s)) ;;;
     call (fun s => servo_right_setDegree (180 - servoAngle s)))
  (ifelse (fun s => necData (ir s) =? key_0)
    (call (fun _ => display_scroll_ph (readPh r)))
  (ifelse (fun s => necData (ir s) =? key_1)
    (assign (fun s => set_ledSW (negb (ledSW s)) s) ;;;
     call (fun s => if ledSW s then led_on else led_off))
  (ifelse (fun s => necData (ir s) =? key_2)
    (assign (fun s => set_buzzerSW (negb (buzzerSW s)) s) ;;;
     call (fun s => buzzer_setVolume (if buzzerSW s then 100 else 0)))
  (ifelse (fun s => necData (ir s) =? key_3)
    (assign (fun s => set_laserSW (negb (laserSW s)) s) ;;;
     call (fun s => if laserSW s then laser_on else laser_off))
  (ifelse (fun s => necData (ir s) =? key_5)
    (assign (fun s => set_doorSW (negb (doorSW s)) s) ;;;
     call (fun s => servo_door_setDegree (if doorSW s then 90 else 0)))
  (ifelse (fun s => necData (ir s) =? key_8)
    (call (fun _ => display_scroll_bat (percentageVoltage r)))
    pass))))))))).

(** [Auto()], lines 117-140. *)
Definition Auto (r : readings) : stmt :=
  let percent := percentageVoltage r in
  let degree := readDegree r in
  when (fun s => (percent <? 10) && warningFlag s)
    (call (fun _ => display_scroll_bat percent) ;;;
     call (fun _ => buzzer_setVolume 100) ;;;
     call (fun _ => time_sleep 5) ;;;
     call (fun _ => buzzer_setVolume 0) ;;;
     assign (set_warningFlag false) ;;;
     assign (set_start_time (ticks_126 r))) ;;;
  when (fun _ => percent >? 10) (assign (set_warningFlag true)) ;;;
  ifelse (fun _ => degree >? 360)
    (call (fun _ => servo_left_setDegree 90) ;;;
     call (fun _ => servo_right_setDegree 90))
    (ifelse (fun _ => degree <? 180)
       (call (fun _ => stepper_degree degree 1))
       (call (fun _ => stepper_degree (360 - degree) (-1))) ;;;
     call (fun _ => servo_left_setDegree 45) ;;;
     call (fun _ => servo_right_setDegree 135)) ;;;
  ifelse (fun _ => readPh r <? 50)
    (call (fun _ => led_on))
    (call (fun _ => led_off)).

(** The keys of the condition of lines 147-149. *)
Definition debounced (k : Z) : bool :=
  (k =? key_ok) || (k =? key_0) || (k =? key_1) || (k =? key_2)
  || (k =? key_3) || (k =? key_5) || (k =? key_8).

(** Lines 146-159: what the loop does with a reported frame. *)
Definition dispatch (r : readings) : stmt :=
  when (fun s => (ticks_diff (stop_time s) (start_time s) <? 200)
                 && debounced (necData (ir s)))
    (assign (fun s => set_ir (set_necData 0 (ir s)) s)) ;;;
  when (fun s => necData (ir s) =? key_ok)
    (assign (fun s => set_mode (1 - mode s) s)) ;;;
  when (fun s => mode s =? 0)
    (when (fun s => modeFlag s =? 1)
       (call (fun _ => display_scroll_remote) ;;;
        assign (set_modeFlag 0)) ;;;
     Remote r) ;;;
  assign (set_start_time (ticks_159 r)).

(** Lines 161-166. *)
Definition automatic (r : readings) : stmt :=
  when (fun s => mode s =? 1)
    (when (fun s => modeFlag s =? 0)
       (call (fun _ => display_scroll_auto) ;;;
        assign (set_start_time (ticks_164 r)) ;;;
        assign (set_modeFlag 1)) ;;;
     Auto r).

(** One iteration of [while True], lines 144-166.  An exception of
    [decode()] is not caught: it ends the program. *)
Definition iteration (r : readings) (s : station)
  : result (station * list effect) :=
  let s := set_stop_time (ticks_144 r) s in
  '(reported, d) <- decode (ir s) ;;
  Ok ((when (fun _ => reported) (dispatch r) ;;; automatic r) (set_ir d s)).

(** What happens to the station: a burst arrives and is taken in by the
    timer callbacks, or the loop makes one iteration. *)
Inductive happening : Type :=
| Received (ticks : list Z)
| Iteration (r : readings).

(** Runs the happenings in order and collects the effects. *)
Fixpoint live (hs : list happening) (effs : list effect) (s : station)
  : result (station * list effect) :=
  match hs with
  | [] => Ok (s, effs)
  | Received ticks :: hs =>
      live hs effs (set_ir (after (burst ticks) (ir s)) s)
  | Iteration r :: hs =>
      '(s, e) <- iteration r s ;; live hs (effs ++ e) s
  end.

(** The two solar panels are always commanded together, to opposite
    angles: every [servo_left.setDegree(a)] is followed at once by
    [servo_right.setDegree(180 - a)], with [a] from 0 to 180. *)
Fixpoint opposed (effs : list effect) : bool :=
  match effs with
  | [] => true
  | servo_left_setDegree a :: servo_right_setDegree b :: effs =>
      (a + b =? 180) && (0 <=? a) && (a <=? 180) && opposed effs
  | servo_left_setDegree _ :: _ => false
  | servo_right_setDegree _ :: _ => false
  | _ :: effs => opposed effs
  end.

(** A key is held: its frame, then repeat frames, each followed by one
    iteration of the loop. *)
Definition press (fr : list Z) (r0 : readings)
  (repeats : list (list Z * readings)) : list happening :=
  Received fr :: Iteration r0
  :: flat_map (fun p => [Received (fst p); Iteration (snd p)]) repeats.

(** The decoder has nothing pending and nothing half received. *)
Definition quiet (d : necDecoder) : Prop :=
  sm (pulseReader d) = []
  /\ rawPulsesBuf (pulseReader d) = []
  /\ commandBurst d = []
  /\ newCommandFlag (pulseReader d) = false.

(** A repeat frame in tick counts. *)
Definition repeat_frame (ticks : list Z) : Prop :=
  exists r0 r1,
    ticks = [r0; r1]
    /\ 0 <= r0 <= 4095 /\ 0 <= r1 <= 4095
    /\ match_ (toMS r0) 9000 = true
    /\ match_ (toMS r1) 2250 = true.

(** The frame of the code [c] in tick counts: a start pair, then 32 data
    pairs, all of them inside the windows of the decoder. *)
Definition command_frame (c : Z) (ticks : list Z) : Prop :=
  exists s0 s1 m z o,
    ticks = frame s0 s1 m z o (nec_bits c)
    /\ (0 <= s0 <= 4095 /\ 0 <= s1 <= 4095)
    /\ (0 <= m <= 4095 /\ 0 <= z <= 4095 /\ 0 <= o <= 4095)
    /\ (match_ (toMS s0) 9000 = true \/ match_ (toMS s1) 4500 = true)
    /\ checkZero (toMS m) (toMS z) = true
    /\ checkOne (toMS m) (toMS o) = true.

(** What [Remote] acts on besides the code. *)
Definition controls (s : station) : bool * bool * bool * bool * Z * Z :=
  (laserSW s, ledSW s, buzzerSW s, doorSW s, servoAngle s, motorAngle s).

(** The station with the code [k] in [ir.necData]. *)
Definition holding (k : Z) (s : station) : station :=
  set_ir (set_necData k (ir s)) s.

(** The panel commands of [n] steps upwards from the angle [a]. *)
Definition panel_steps (a : Z) (n : nat) : list effect :=
  flat_map (fun i => [servo_left_setDegree (Z.min 180 (a + Z.of_nat i));
                      servo_right_setDegree
                        (180 - Z.min 180 (a + Z.of_nat i))])
           (seq 1 n).

(** A burst of two tick counts: what [convertToMS] takes for a repeat
    frame, whatever the counts are. *)
Definition two_counts (ticks : list Z) : Prop :=
  exists a b, ticks = [a; b] /\ 0 <= a <= 4095 /\ 0 <= b <= 4095.

(** The station in remote mode whose decoder, built with
    [commandRepeat=True], is quiet and holds the code [k]. *)
Definition armed (k : Z) (s : station) : Prop :=
  necData (ir s) = k
  /\ quiet (ir s)
  /\ commandRepeat (ir s) = true
  /\ mode s = 0
  /\ modeFlag s = 0.

(** A statement keeps the panel angle in range and commands the panels
    together. *)
Definition steady (p : stmt) : Prop :=
  forall s,
    0 <= servoAngle s <= 180 ->
    0 <= servoAngle (fst (p s)) <= 180 /\ opposed (snd (p s)) = true.

(** The number of low-battery warnings among the effects: each warning
    sleeps once (line 123). *)
Definition warnings (effs : list effect) : nat :=
  length (filter (fun e => match e with time_sleep _ => true | _ => false end)
                 effs).

(** The warnings the station may still give while the battery stays low. *)
Definition budget (s : station) : nat := if warningFlag s then 1%nat else 0%nat.

(** A statement gives no more warnings than the budget allows. *)
Definition thrifty (p : stmt) : Prop :=
  forall s, (warnings (snd (p s)) + budget (fst (p s)) <= budget s)%nat.

(** The battery is read at 10 percent or less. *)
Definition battery_low (h : happening) : Prop :=
  match h with
  | Received _ => True
  | Iteration r => percentageVoltage r <= 10
  end.

End Main.
(** * Properties *)

(** ** Bit classifier *)

Section Tolerance.

Lemma matchQ_spec (v e : Q) :
  matchQ v e = true <-> (Qabs (v - e) < v * (1 # 5))%Q.
Proof.
  unfold matchQ, ALLOWED_DEVIATION.
  assert (E : (v * (20 # 100) == v * (1 # 5))%Q)
    by (apply Qmult_comp; reflexivity).
  destruct (Qlt_le_dec _ _) as [H | H].
  - split; [intros _ | reflexivity]. rewrite <- E. exact H.
  - split; [discriminate | intros H']. rewrite <- E in H'.
    exfalso. apply (Qlt_irrefl (Qabs (v - e))).
    apply Qlt_le_trans with (1 := H'). exact H.
Qed.

(** The window around 560 is not symmetric: it closes at 560 / 1.2 below
    and at 560 / 0.8 = 700 above. *)
Lemma matchQ_560 (v : Q) :
  matchQ v 560 = true <-> (1400 # 3 < v /\ v < 700)%Q.
Proof.
  rewrite matchQ_spec. split.
  - intros H. apply Qabs_Qlt_condition in H. destruct H as [H1 H2].
    split; lra.
  - intros [H1 H2]. apply Qabs_Qlt_condition. split; lra.
Qed.

(** On integers the test is [5 * |v - e| < v]. *)
Lemma match_spec (v e : Z) : match_ v e = true <-> 5 * Z.abs (v - e) < v.
Proof.
  unfold match_, matchQ, ALLOWED_DEVIATION.
  destruct (Qlt_le_dec _ _) as [H | H].
  - split; [intros _ | reflexivity].
    unfold Qlt in H. cbn in H. lia.
  - split; [discriminate | intros H'].
    unfold Qle in H. cbn in H. lia.
Qed.

Lemma match_false (v e : Z) : match_ v e = false <-> v <= 5 * Z.abs (v - e).
Proof.
  destruct (match_ v e) eqn:E.
  - apply match_spec in E. split; [discriminate | lia].
  - split; [intros _ | reflexivity].
    destruct (Z_lt_le_dec (5 * Z.abs (v - e)) v) as [L | L]; [| exact L].
    apply match_spec in L. congruence.
Qed.

Lemma match_560 (v : Z) : match_ v 560 = true <-> 467 <= v <= 699.
Proof. rewrite match_spec. lia. Qed.

Lemma match_1680 (v : Z) : match_ v 1680 = true <-> 1401 <= v <= 2099.
Proof. rewrite match_spec. lia. Qed.

Lemma checkZero_spec (p1 p2 : Z) :
  checkZero p1 p2 = true <-> 467 <= p1 <= 699 /\ 467 <= p2 <= 699.
Proof.
  unfold checkZero, DATA_PULSE_WIDTH.
  rewrite andb_true_iff, !match_560. tauto.
Qed.

Lemma checkOne_spec (p1 p2 : Z) :
  checkOne p1 p2 = true <-> 467 <= p1 <= 699 /\ 1401 <= p2 <= 2099.
Proof.
  unfold checkOne, DATA_PULSE_WIDTH.
  change (560 * 3) with 1680.
  rewrite andb_true_iff, match_560, match_1680. tauto.
Qed.

(** The two classes are disjoint, and the sum test of [decodeCommand]
    (line 129) sends each accepted pair to its own class. *)
Lemma checkOne_sum (p1 p2 : Z) :
  checkOne p1 p2 = true ->
  (p1 + p2 >? DATA_PULSE_WIDTH * 3) = true /\ checkZero p1 p2 = false.
Proof.
  intros H. apply checkOne_spec in H. split.
  - unfold DATA_PULSE_WIDTH. apply Z.gtb_lt. lia.
  - destruct (checkZero p1 p2) eqn:E; [| reflexivity].
    apply checkZero_spec in E. lia.
Qed.

Lemma checkZero_sum (p1 p2 : Z) :
  checkZero p1 p2 = true ->
  (p1 + p2 >? DATA_PULSE_WIDTH * 3) = false /\ checkOne p1 p2 = false.
Proof.
  intros H. apply checkZero_spec in H. split.
  - unfold DATA_PULSE_WIDTH.
    destruct (p1 + p2 >? 560 * 3) eqn:E; [| reflexivity].
    apply Z.gtb_lt in E. lia.
  - destruct (checkOne p1 p2) eqn:E; [| reflexivity].
    apply checkOne_spec in E. lia.
Qed.

End Tolerance.

(** ** Exact arithmetic against IEEE 754 arithmetic *)

Section IeeeAgreement.

Import Ieee.

Lemma all_from_spec (test : Z -> bool) (n : nat) :
  forall v : Z,
    all_from test n v = true ->
    forall i : Z, v <= i < v + Z.of_nat n -> test i = true.
Proof.
  induction n as [| n IH]; intros v H i Hi; [lia |].
  cbn [all_from] in H. apply andb_true_iff in H. destruct H as [H0 H].
  destruct (Z.eq_dec i v) as [-> | N]; [exact H0 |].
  apply (IH (v + 1) H). lia.
Qed.

Lemma match_ltb (v e : Z) : match_ v e = (5 * Z.abs (v - e) <? v).
Proof.
  destruct (5 * Z.abs (v - e) <? v) eqn:E.
  - apply match_spec, Z.ltb_lt, E.
  - apply match_false, Z.ltb_ge, E.
Qed.

Lemma agrees_spec (prec emax : Z) (n : nat) (i e : Z) :
  agrees prec emax n = true ->
  0 <= i < Z.of_nat n ->
  In e expected ->
  toMSF prec emax i = toMS i
  /\ matchF prec emax (of_int prec emax (toMS i)) (of_int prec emax e)
     = match_ (toMS i) e.
Proof.
  intros A Hi He. unfold agrees in A.
  pose proof (all_from_spec _ _ _ A i ltac:(lia)) as H.
  unfold agreesWith in H. apply andb_true_iff in H. destruct H as [H1 H2].
  split; [apply Z.eqb_eq, H1 |].
  rewrite forallb_forall in H2.
  specialize (H2 (e, of_int prec emax e)
                 (in_map (fun e => (e, of_int prec emax e)) expected e He)).
  apply eqb_prop in H2. cbn [fst snd] in H2.
  rewrite match_ltb. exact H2.
Qed.

(** For every tick count of the 12-bit counters, in single and in double
    precision: [int(i * factor)] is [toMS i], and [match] on the converted
    value against 560, 1680, 9000, 4500 and 2250 is [match_]. *)
Lemma ieee_agrees (i e : Z) :
  0 <= i < 4096 ->
  In e expected ->
  (toMSF 24 128 i = toMS i
   /\ matchF 24 128 (of_int 24 128 (toMS i)) (of_int 24 128 e)
      = match_ (toMS i) e)
  /\ (toMSF 53 1024 i = toMS i
      /\ matchF 53 1024 (of_int 53 1024 (toMS i)) (of_int 53 1024 e)
         = match_ (toMS i) e).
Proof.
  intros Hi He. split.
  - apply (agrees_spec 24 128 4096); [vm_compute; reflexivity | lia | exact He].
  - apply (agrees_spec 53 1024 4096); [vm_compute; reflexivity | lia | exact He].
Qed.

End IeeeAgreement.

(** C6, as stated, fails: with the tolerance scaled by the observed value a
    pulse of 560 * 1.21 us is inside the window of 560. *)
Lemma tolerance_boundary_counterexample :
  ~ (matchQ (560 * (119 # 100)) 560 = true /\
     matchQ (560 * (121 # 100)) 560 = false).
Proof. intros [_ H]. vm_compute in H. discriminate H. Qed.

(** C6 (amended): under [|v - e| < v * 0.20] a pulse of 560 * 1.19 us matches
    560 and a pulse of 560 * 1.21 us matches it too (in exact arithmetic and
    in single and double precision); the values that match 560 are those
    with 1400/3 < v < 700 (= 560 * 1.25), and the integer values the decoder
    sees match exactly from 467 to 699. *)
Theorem tolerance_boundary :
  matchQ (560 * (119 # 100)) 560 = true
  /\ matchQ (560 * (121 # 100)) 560 = true
  /\ Ieee.matchF 24 128
       (SFmul 24 128 (Ieee.of_int 24 128 560) (Ieee.lit 24 128 121 100))
       (Ieee.of_int 24 128 560) = true
  /\ Ieee.matchF 53 1024
       (SFmul 53 1024 (Ieee.of_int 53 1024 560) (Ieee.lit 53 1024 121 100))
       (Ieee.of_int 53 1024 560) = true
  /\ (forall v : Q, matchQ v 560 = true <-> (1400 # 3 < v /\ v < 700)%Q)
  /\ (forall v : Z, match_ v 560 = true <-> 467 <= v <= 699).
Proof.
  split; [vm_compute; reflexivity |].
  split; [vm_compute; reflexivity |].
  split; [vm_compute; reflexivity |].
  split; [vm_compute; reflexivity |].
  split; [exact matchQ_560 | exact match_560].
Qed.

Lemma tolerance_boundary_witness :
  match_ 699 560 = true /\ match_ 700 560 = false.
Proof.
  destruct tolerance_boundary as [_ [_ [_ [_ [_ H]]]]].
  split.
  - apply (H 699). lia.
  - destruct (match_ 700 560) eqn:E; [| reflexivity].
    apply (H 700) in E. lia.
Defined.

(** ** Frame decoder *)

Section FrameDecoder.

Lemma getitem_nth (l : list Z) (i : nat) :
  (i < length l)%nat -> getitem l (Z.of_nat i) = Ok (nth i l 0).
Proof.
  intros H. unfold getitem.
  destruct (Z.of_nat i <? 0) eqn:E; [apply Z.ltb_lt in E; lia |].
  replace ((0 <=? Z.of_nat i) && (Z.of_nat i <? Z.of_nat (length l)))
    with true.
  2:{ symmetry. apply andb_true_iff.
      split; [apply Z.leb_le | apply Z.ltb_lt]; lia. }
  rewrite Nat2Z.id.
  destruct (nth_error l i) eqn:N.
  - f_equal. symmetry. apply nth_error_nth. exact N.
  - apply nth_error_None in N. lia.
Qed.

Lemma range_pairs (l : list Z) :
  (2 <= length l)%nat ->
  range 2 (Z.of_nat (length l) - 1) 2 = pair_indices 0 (pair_count l).
Proof.
  intros H. unfold range, pair_indices, pair_count. do 2 f_equal.
  apply Nat2Z.inj. rewrite Z2Nat.id by (apply Z.div_pos; lia).
  rewrite Nat2Z.inj_div, Nat2Z.inj_sub by lia. f_equal. lia.
Qed.

(** One turn of the loop, read through the classifier. *)
Lemma decodeLoop_step (l : list Z) (k : nat) (idx : list Z) (d : necDecoder) :
  (3 + 2 * k < length l)%nat ->
  decodeLoop l (2 + 2 * Z.of_nat k :: idx) d =
  if pair_valid l k then
    if pair_one l k then
      bit <- lshift 1 (31 - Z.of_nat k) ;;
      decodeLoop l idx (set_necData (Z.lor (necData d) bit) d)
    else decodeLoop l idx d
  else Ok (if pair_lo l k + pair_hi l k >? DATA_PULSE_WIDTH * 3
           then InvalidOneBit else InvalidZeroBit, d).
Proof.
  intros H. cbn [decodeLoop].
  replace (2 + 2 * Z.of_nat k) with (Z.of_nat (2 + 2 * k)) by lia.
  replace (Z.of_nat (2 + 2 * k) + 1) with (Z.of_nat (3 + 2 * k)) by lia.
  rewrite !getitem_nth by lia. cbn [bind].
  replace (Z.quot (Z.of_nat (2 + 2 * k)) 2 - 1) with (Z.of_nat k).
  2:{ rewrite Z.quot_div_nonneg by lia.
      replace (Z.of_nat (2 + 2 * k)) with ((1 + Z.of_nat k) * 2) by lia.
      rewrite Z.div_mul by lia. lia. }
  unfold pair_valid, pair_one, pair_lo, pair_hi.
  set (a := nth (2 + 2 * k) l 0). set (b := nth (3 + 2 * k) l 0).
  destruct (checkOne a b) eqn:E1.
  - destruct (checkOne_sum _ _ E1) as [S Z0]. rewrite S, Z0. reflexivity.
  - destruct (checkZero a b) eqn:E0.
    + destruct (checkZero_sum _ _ E0) as [S _]. rewrite S. reflexivity.
    + cbn [orb negb]. destruct (a + b >? DATA_PULSE_WIDTH * 3); reflexivity.
Qed.

Lemma set_necData_same (d : necDecoder) : set_necData (necData d) d = d.
Proof. destruct d; reflexivity. Qed.

(** While the pairs are valid the loop ors their bits into [necData].  A
    one-pair beyond the 32nd would shift by a negative count. *)
Lemma decodeLoop_valid (l : list Z) (n : nat) :
  forall (k0 : nat) (d : necDecoder),
    (2 + 2 * (k0 + n) <= length l)%nat ->
    (forall k, (k0 <= k < k0 + n)%nat -> pair_valid l k = true) ->
    (forall k, (k0 <= k < k0 + n)%nat -> (32 <= k)%nat ->
               pair_one l k = false) ->
    decodeLoop l (pair_indices k0 n) d =
    Ok (Decoded, set_necData (Z.lor (necData d) (frame_code l k0 n)) d).
Proof.
  induction n as [| n IH]; intros k0 d Hlen Hv H32.
  - cbn. rewrite Z.lor_0_r, set_necData_same. reflexivity.
  - unfold pair_indices. cbn [seq map]. fold (pair_indices (S k0) n).
    rewrite decodeLoop_step by lia.
    rewrite Hv by lia. cbn [frame_code].
    destruct (pair_one l k0) eqn:E1.
    + assert (k0 < 32)%nat.
      { destruct (Nat.lt_ge_cases k0 32) as [L | L]; [exact L |].
        rewrite (H32 k0) in E1 by lia. discriminate E1. }
      unfold lshift.
      destruct (31 - Z.of_nat k0 <? 0) eqn:E; [apply Z.ltb_lt in E; lia |].
      cbn [bind].
      rewrite IH;
        [| lia | intros; apply Hv; lia | intros; apply H32; lia].
      cbn [necData set_necData]. rewrite Z.shiftl_1_l, Z.lor_assoc.
      reflexivity.
    + rewrite IH;
        [| lia | intros; apply Hv; lia | intros; apply H32; lia].
      rewrite Z.lor_0_l. reflexivity.
Qed.

(** At the first invalid pair the loop stops and keeps what the pairs
    before it have set. *)
Lemma decodeLoop_invalid (l : list Z) (m : nat) :
  forall (k0 n : nat) (d : necDecoder),
    (2 + 2 * (k0 + n) <= length l)%nat ->
    (m < n)%nat ->
    (forall k, (k0 <= k < k0 + m)%nat -> pair_valid l k = true) ->
    (forall k, (k0 <= k < k0 + m)%nat -> (32 <= k)%nat ->
               pair_one l k = false) ->
    pair_valid l (k0 + m) = false ->
    exists o,
      decodeLoop l (pair_indices k0 n) d =
      Ok (o, set_necData (Z.lor (necData d) (frame_code l k0 m)) d)
      /\ (o = InvalidOneBit \/ o = InvalidZeroBit).
Proof.
  induction m as [| m IH]; intros k0 n d Hlen Hm Hv H32 Hbad.
  - destruct n as [| n]; [lia |].
    unfold pair_indices. cbn [seq map].
    rewrite decodeLoop_step by lia.
    rewrite Nat.add_0_r in Hbad. rewrite Hbad.
    cbn [frame_code]. rewrite Z.lor_0_r, set_necData_same.
    eexists. split; [reflexivity |].
    destruct (_ >? _); [left | right]; reflexivity.
  - destruct n as [| n]; [lia |].
    unfold pair_indices. cbn [seq map]. fold (pair_indices (S k0) n).
    rewrite decodeLoop_step by lia.
    rewrite Hv by lia. cbn [frame_code].
    destruct (IH (S k0) n
                (if pair_one l k0
                 then set_necData (Z.lor (necData d) (2 ^ (31 - Z.of_nat k0))) d
                 else d))
      as [o [E Ho]];
      [lia | lia | intros; apply Hv; lia | intros; apply H32; lia
       | replace (S k0 + m)%nat with (k0 + S m)%nat by lia; exact Hbad |].
    exists o. split; [| exact Ho].
    destruct (pair_one l k0) eqn:E1.
    + assert (k0 < 32)%nat.
      { destruct (Nat.lt_ge_cases k0 32) as [L | L]; [exact L |].
        rewrite (H32 k0) in E1 by lia. discriminate E1. }
      unfold lshift.
      destruct (31 - Z.of_nat k0 <? 0) eqn:E'; [apply Z.ltb_lt in E'; lia |].
      cbn [bind]. rewrite Z.shiftl_1_l, E.
      cbn [necData set_necData]. rewrite Z.lor_assoc. reflexivity.
    + rewrite E, Z.lor_0_l. reflexivity.
Qed.

(** The loop has three ways out. *)
Lemma decodeLoop_outcome (l : list Z) (idx : list Z) :
  forall (d d' : necDecoder) (o : outcome),
    decodeLoop l idx d = Ok (o, d') ->
    o = Decoded \/ o = InvalidOneBit \/ o = InvalidZeroBit.
Proof.
  induction idx as [| i idx IH]; intros d d' o H.
  - cbn in H. left. congruence.
  - cbn [decodeLoop] in H.
    destruct (getitem l i) as [a |]; [| discriminate H].
    destruct (getitem l (i + 1)) as [b |]; [| discriminate H].
    cbn [bind] in H.
    destruct (a + b >? DATA_PULSE_WIDTH * 3).
    + destruct (checkOne a b).
      * destruct (lshift 1 _) as [bit |]; [| discriminate H].
        cbn [bind] in H. eapply IH; eassumption.
      * right; left. congruence.
    + destruct (checkZero a b); cbn [negb] in H.
      * eapply IH; eassumption.
      * right; right. congruence.
Qed.

Lemma decodeCommand_short (l : list Z) (d : necDecoder) :
  (length l < 2)%nat -> decodeCommand l d = Ok (InsufficientData, d).
Proof.
  intros H. unfold decodeCommand.
  destruct (1 <? length l)%nat eqn:E; [apply Nat.ltb_lt in E; lia |].
  reflexivity.
Qed.

Lemma decodeCommand_long (l : list Z) (d : necDecoder) :
  (2 <= length l)%nat ->
  decodeCommand l d =
  if negb (match_ (nth 0 l 0) 9000) && negb (match_ (nth 1 l 0) 4500)
  then Ok (InvalidStartSequence, frameStart d)
  else decodeLoop l (pair_indices 0 (pair_count l)) (frameStart d).
Proof.
  intros H. unfold decodeCommand.
  destruct (1 <? length l)%nat eqn:E; [| apply Nat.ltb_ge in E; lia].
  pose proof (getitem_nth l 0) as G0. pose proof (getitem_nth l 1) as G1.
  change (Z.of_nat 0) with 0 in G0. change (Z.of_nat 1) with 1 in G1.
  rewrite G0, G1 by lia. cbn [bind].
  rewrite range_pairs by lia. fold (frameStart d).
  destruct (match_ (nth 0 l 0) 9000), (match_ (nth 1 l 0) 4500);
    reflexivity.
Qed.

End FrameDecoder.

(** C3: for a command burst of length > 1 the frame decoder takes the
    "invalid start sequence" return exactly when burst[0] does not match
    9000 us AND burst[1] does not match 4500 us; a burst whose first value
    does not match 9000 but whose second matches 4500 goes on to the data
    pairs. *)
Theorem start_sequence_rejected_only_when_both_fail
  (rawPulses : list Z) (d : necDecoder) :
  (1 < length rawPulses)%nat ->
  ((exists d', decodeCommand rawPulses d = Ok (InvalidStartSequence, d'))
   <-> match_ (nth 0 rawPulses 0) 9000 = false
       /\ match_ (nth 1 rawPulses 0) 4500 = false)
  /\ (match_ (nth 0 rawPulses 0) 9000 = false ->
      match_ (nth 1 rawPulses 0) 4500 = true ->
      decodeCommand rawPulses d =
      decodeLoop rawPulses (range 2 (Z.of_nat (length rawPulses) - 1) 2)
                 (frameStart d)).
Proof.
  intros H. split.
  - rewrite decodeCommand_long by lia.
    destruct (match_ (nth 0 rawPulses 0) 9000) eqn:E0;
      destruct (match_ (nth 1 rawPulses 0) 4500) eqn:E1; cbn [negb andb];
      (split; [intros [d' Hd] | intros [A B]]; try discriminate;
       try (apply decodeLoop_outcome in Hd;
            destruct Hd as [Hd | [Hd | Hd]]; discriminate Hd)).
    split; reflexivity.
    eexists; reflexivity.
  - intros E0 E1. rewrite decodeCommand_long, range_pairs by lia.
    rewrite E0, E1. reflexivity.
Qed.

Lemma start_sequence_rejected_only_when_both_fail_witness :
  ((exists d', decodeCommand [100; 4500; 560; 560] (init false)
               = Ok (InvalidStartSequence, d'))
   <-> match_ (nth 0 [100; 4500; 560; 560] 0) 9000 = false
       /\ match_ (nth 1 [100; 4500; 560; 560] 0) 4500 = false)
  /\ (match_ (nth 0 [100; 4500; 560; 560] 0) 9000 = false ->
      match_ (nth 1 [100; 4500; 560; 560] 0) 4500 = true ->
      decodeCommand [100; 4500; 560; 560] (init false) =
      decodeLoop [100; 4500; 560; 560]
                 (range 2 (Z.of_nat (length [100; 4500; 560; 560]) - 1) 2)
                 (frameStart (init false))).
Proof.
  apply (start_sequence_rejected_only_when_both_fail
           [100; 4500; 560; 560] (init false)).
  simpl. lia.
Defined.

(** ** The assembled code *)

Section FrameCode.

Lemma lor_bound (a b p : Z) :
  0 <= a < 2 ^ p -> 0 <= b < 2 ^ p -> 0 <= Z.lor a b < 2 ^ p.
Proof.
  intros Ha Hb.
  assert (Hn : 0 <= Z.lor a b) by (apply Z.lor_nonneg; lia).
  split; [exact Hn |].
  destruct (Z.eq_dec (Z.lor a b) 0) as [E | E]; [lia |].
  destruct (Z_lt_le_dec p 0) as [Hp | Hp].
  { rewrite Z.pow_neg_r in Ha by lia. lia. }
  apply Z.log2_lt_pow2; [lia |].
  rewrite Z.log2_lor by lia.
  assert (P : 0 < p).
  { destruct (Z.eq_dec p 0) as [-> | ]; [| lia].
    change (2 ^ 0) with 1 in *.
    assert (a = 0) by lia. assert (b = 0) by lia. subst. cbn in E. lia. }
  apply Z.max_lub_lt.
  - destruct (Z.eq_dec a 0) as [-> | ]; [exact P |].
    apply Z.log2_lt_pow2; lia.
  - destruct (Z.eq_dec b 0) as [-> | ]; [exact P |].
    apply Z.log2_lt_pow2; lia.
Qed.

Lemma testbit_small (a j : Z) : 0 <= a < 2 ^ j -> Z.testbit a j = false.
Proof.
  intros H.
  destruct (Z.eq_dec a 0) as [-> | N]; [apply Z.bits_0 |].
  apply Z.bits_above_log2; [lia |].
  apply Z.log2_lt_pow2; lia.
Qed.

Lemma frame_code_bound (l : list Z) (n : nat) :
  forall k0 : nat,
    (k0 + n <= 32)%nat ->
    0 <= frame_code l k0 n < 2 ^ (32 - Z.of_nat k0).
Proof.
  induction n as [| n IH]; intros k0 H.
  - cbn [frame_code]. split; [lia | apply Z.pow_pos_nonneg; lia].
  - cbn [frame_code].
    assert (P : 2 ^ (32 - Z.of_nat k0) = 2 * 2 ^ (31 - Z.of_nat k0)).
    { rewrite <- Z.pow_succ_r by lia. f_equal. lia. }
    assert (Q0 : 0 < 2 ^ (31 - Z.of_nat k0)) by (apply Z.pow_pos_nonneg; lia).
    specialize (IH (S k0) ltac:(lia)).
    replace (32 - Z.of_nat (S k0)) with (31 - Z.of_nat k0) in IH by lia.
    apply lor_bound; [destruct (pair_one l k0) |]; lia.
Qed.

(** Pair [k] decides bit [31 - k]. *)
Lemma frame_code_bit (l : list Z) (n : nat) :
  forall k0 k : nat,
    (k0 <= k < k0 + n)%nat -> (k0 + n <= 32)%nat ->
    Z.testbit (frame_code l k0 n) (31 - Z.of_nat k) = pair_one l k.
Proof.
  induction n as [| n IH]; intros k0 k Hk H; [lia |].
  cbn [frame_code]. rewrite Z.lor_spec.
  destruct (Nat.eq_dec k k0) as [-> | N].
  - rewrite (testbit_small (frame_code l (S k0) n)).
    2:{ pose proof (frame_code_bound l n (S k0) ltac:(lia)) as B.
        replace (32 - Z.of_nat (S k0)) with (31 - Z.of_nat k0) in B by lia.
        exact B. }
    rewrite orb_false_r.
    destruct (pair_one l k0);
      [apply Z.pow2_bits_true; lia | apply Z.bits_0].
  - rewrite IH by lia.
    replace (Z.testbit _ _) with false; [reflexivity |].
    symmetry. destruct (pair_one l k0); [| apply Z.bits_0].
    apply Z.pow2_bits_false. lia.
Qed.

(** Nothing below the last pair's bit is set. *)
Lemma frame_code_low (l : list Z) (n : nat) :
  forall (k0 : nat) (j : Z),
    0 <= j < 32 - Z.of_nat (k0 + n) ->
    Z.testbit (frame_code l k0 n) j = false.
Proof.
  induction n as [| n IH]; intros k0 j Hj; [apply Z.bits_0 |].
  cbn [frame_code]. rewrite Z.lor_spec, IH by lia.
  rewrite orb_false_r.
  destruct (pair_one l k0); [| apply Z.bits_0].
  apply Z.pow2_bits_false. lia.
Qed.

Lemma pair_one_not_zero (l : list Z) (k : nat) :
  pair_valid l k = true ->
  pair_one l k = negb (checkZero (pair_lo l k) (pair_hi l k)).
Proof.
  unfold pair_valid, pair_one. intros H.
  destruct (checkZero _ _) eqn:E0.
  - apply checkZero_sum in E0. destruct E0 as [_ ->]. reflexivity.
  - cbn in H. rewrite H. reflexivity.
Qed.

End FrameCode.

(** C4: a pending 34-value burst whose start values match 9000 and 4500 us
    and whose 16 data pairs each pass the zero-bit or the one-bit classifier
    makes [decode()] return true; in [necData] the k-th pair (k = 0 first)
    decides bit 31 - k, set for a one-pair and clear for a zero-pair, and
    bits 15..0 are clear; the code is below 2^32. *)
Theorem valid_frame_decodes (d : necDecoder) :
  newCommandFlag (pulseReader d) = true ->
  length (commandBurst d) = 34%nat ->
  match_ (nth 0 (commandBurst d) 0) 9000 = true ->
  match_ (nth 1 (commandBurst d) 0) 4500 = true ->
  (forall k, (k < 16)%nat -> pair_valid (commandBurst d) k = true) ->
  exists d',
    decode d = Ok (true, d')
    /\ necData d' = frame_code (commandBurst d) 0 16
    /\ (forall k, (k < 16)%nat ->
          Z.testbit (necData d') (31 - Z.of_nat k) = pair_one (commandBurst d) k
          /\ pair_one (commandBurst d) k
             = negb (checkZero (pair_lo (commandBurst d) k)
                               (pair_hi (commandBurst d) k)))
    /\ (forall j, 0 <= j < 16 -> Z.testbit (necData d') j = false)
    /\ 0 <= necData d' < 2 ^ 32.
Proof.
  intros Hflag Hlen H0 H1 Hv.
  unfold decode. rewrite Hflag. fold (commandBurst d). fold (takeCommand d).
  rewrite decodeCommand_long by lia. rewrite H0, H1. cbn [negb andb].
  assert (Hc : pair_count (commandBurst d) = 16%nat)
    by (unfold pair_count; rewrite Hlen; reflexivity).
  rewrite Hc, decodeLoop_valid; [| lia | intros; apply Hv; lia | intros; lia].
  cbn [bind succeeded]. eexists. split; [reflexivity |].
  cbn [necData set_err set_necData frameStart]. rewrite Z.lor_0_l.
  split; [reflexivity |]. split; [| split].
  - intros k Hk. split.
    + apply frame_code_bit; lia.
    + apply pair_one_not_zero, Hv, Hk.
  - intros j Hj. apply frame_code_low. cbn. lia.
  - apply (frame_code_bound (commandBurst d) 16 0). lia.
Qed.

(** ** Decoder facade *)

Section Facade.

Lemma decode_no_command (d : necDecoder) :
  newCommandFlag (pulseReader d) = false -> decode d = decodeRepeat d.
Proof. intros H. unfold decode. rewrite H. reflexivity. Qed.

Lemma decode_command (d d1 : necDecoder) (o : outcome) :
  newCommandFlag (pulseReader d) = true ->
  decodeCommand (commandBurst d) (takeCommand d) = Ok (o, d1) ->
  decode d = if succeeded o then Ok (true, set_err 0 d1) else decodeRepeat d1.
Proof.
  intros H E. unfold decode. rewrite H.
  fold (commandBurst d). fold (takeCommand d). rewrite E. reflexivity.
Qed.

Lemma decodeLoop_state (l : list Z) (idx : list Z) :
  forall (d d' : necDecoder) (o : outcome),
    decodeLoop l idx d = Ok (o, d') -> d' = set_necData (necData d') d.
Proof.
  induction idx as [| i idx IH]; intros d d' o H.
  - cbn in H. injection H as _ <-. symmetry. apply set_necData_same.
  - cbn [decodeLoop] in H.
    destruct (getitem l i) as [a |]; [| discriminate H].
    destruct (getitem l (i + 1)) as [b |]; [| discriminate H].
    cbn [bind] in H.
    destruct (a + b >? DATA_PULSE_WIDTH * 3).
    + destruct (checkOne a b).
      * destruct (lshift 1 _) as [bit |]; [| discriminate H].
        cbn [bind] in H. apply IH in H. rewrite H at 1. reflexivity.
      * injection H as _ <-. symmetry. apply set_necData_same.
    + destruct (checkZero a b); cbn [negb] in H.
      * eapply IH; eassumption.
      * injection H as _ <-. symmetry. apply set_necData_same.
Qed.

(** [decodeCommand] touches [necData] and the command flag only, and
    neither on a burst shorter than 2. *)
Lemma decodeCommand_state (l : list Z) (d d' : necDecoder) (o : outcome) :
  decodeCommand l d = Ok (o, d') ->
  ((length l < 2)%nat /\ o = InsufficientData /\ d' = d)
  \/ ((2 <= length l)%nat /\ d' = set_necData (necData d') (frameStart d)).
Proof.
  intros H. destruct (Nat.lt_ge_cases (length l) 2) as [L | L].
  - left. rewrite decodeCommand_short in H by exact L.
    injection H as <- <-. auto.
  - right. split; [exact L |].
    rewrite decodeCommand_long in H by exact L.
    destruct (negb _ && negb _).
    + injection H as _ <-. reflexivity.
    + apply decodeLoop_state in H. exact H.
Qed.

Lemma decodeCommand_keeps (l : list Z) (d d' : necDecoder) (o : outcome) :
  decodeCommand l d = Ok (o, d') ->
  commandBurst d' = commandBurst d
  /\ repeatBurst d' = repeatBurst d
  /\ newRepeatFlag (pulseReader d') = newRepeatFlag (pulseReader d)
  /\ commandRepeat d' = commandRepeat d
  /\ (newCommandFlag (pulseReader d') = true ->
      newCommandFlag (pulseReader d) = true)
  /\ (succeeded o = true -> newCommandFlag (pulseReader d') = false).
Proof.
  intros H. destruct (decodeCommand_state _ _ _ _ H) as [[_ [-> ->]] | [_ ->]].
  - repeat split; auto. discriminate.
  - repeat split; auto. cbn. discriminate.
Qed.

(** What the second half of [decode] leaves behind. *)
Lemma decodeRepeat_post (d d' : necDecoder) (b : bool) :
  decodeRepeat d = Ok (b, d') ->
  commandBurst d' = commandBurst d
  /\ commandRepeat d' = commandRepeat d
  /\ newRepeatFlag (pulseReader d') = newRepeatFlag (pulseReader d)
  /\ (newCommandFlag (pulseReader d') = true ->
      newCommandFlag (pulseReader d) = true)
  /\ (newRepeatFlag (pulseReader d) = true -> repeatBurst d' = [])
  /\ (repeatBurst d' = repeatBurst d \/ repeatBurst d' = [])
  /\ (b = false -> necData d' = necData d)
  /\ (b = true -> newCommandFlag (pulseReader d') = false).
Proof.
  intros H. unfold decodeRepeat in H.
  destruct (newRepeatFlag (pulseReader d)) eqn:F; [| repeat_leaf H].
  destruct (length (rawRepeatTimeBuf (pulseReader d)) =? 0)%nat;
    cbn [negb] in H; [repeat_leaf H |].
  destruct (getitem _ 0) as [r0 |]; [| discriminate H]. cbn [bind] in H.
  destruct (match_ r0 9000); [| repeat_leaf H].
  destruct (getitem _ 1) as [r1 |]; [| discriminate H]. cbn [bind] in H.
  destruct (match_ r1 2250); [| repeat_leaf H].
  destruct (commandRepeat d) eqn:C; cbn in H; rewrite C in H; cbn in H;
    repeat_leaf H.
Qed.

Lemma decodeRepeat_idle (d : necDecoder) :
  newRepeatFlag (pulseReader d) = false \/ repeatBurst d = [] ->
  exists d', decodeRepeat d = Ok (false, d') /\ necData d' = necData d.
Proof.
  intros H. unfold decodeRepeat.
  destruct (newRepeatFlag (pulseReader d)) eqn:F;
    [| eexists; split; reflexivity].
  destruct H as [H | H]; [discriminate H |].
  unfold repeatBurst in H. rewrite H. cbn.
  eexists; split; reflexivity.
Qed.

Lemma decodeRepeat_pair (d : necDecoder) (a b : Z) :
  newRepeatFlag (pulseReader d) = true ->
  repeatBurst d = [a; b] ->
  exists d',
    decodeRepeat d = Ok (match_ a 9000 && match_ b 2250, d')
    /\ necData d' = (if match_ a 9000 && match_ b 2250
                     then if commandRepeat d then necData d else 0xffffffff
                     else necData d).
Proof.
  intros F E. unfold decodeRepeat. unfold repeatBurst in E.
  rewrite F, E.
  change (getitem [a; b] 0) with (Ok a).
  change (getitem [a; b] 1) with (Ok b).
  cbn [length Nat.eqb negb bind].
  destruct (match_ a 9000); cbn [andb]; [| eexists; split; reflexivity].
  destruct (match_ b 2250); [| eexists; split; reflexivity].
  cbn [commandRepeat set_pulseReader].
  destruct (commandRepeat d); cbn [negb]; eexists; split; reflexivity.
Qed.

Lemma run_reachable (cr : bool) (evs : list event) :
  forall (rets : list bool) (d : necDecoder),
    reachable cr d -> wellformed evs = true ->
    match run evs rets d with
    | Ok (_, d') => reachable cr d'
    | Raise _ => True
    end.
Proof.
  induction evs as [| e evs IH]; intros rets d R W; [exact R |].
  cbn [wellformed forallb] in W. apply andb_true_iff in W.
  destruct W as [We W]. destruct e as [w | |]; cbn [run].
  - apply IH; [| exact W]. apply reach_push; [exact R |].
    apply andb_true_iff in We. destruct We as [A B].
    apply Z.leb_le in A. apply Z.leb_le in B. lia.
  - apply IH; [| exact W]. apply reach_tick, R.
  - destruct (decode d) as [[b d'] |] eqn:E; cbn [bind]; [| exact I].
    apply IH; [| exact W]. eapply reach_poll; eassumption.
Qed.

Lemma after_reachable (cr : bool) (evs : list event) :
  wellformed evs = true -> reachable cr (after evs (init cr)).
Proof.
  intros W. unfold after.
  pose proof (run_reachable cr evs [] (init cr) (reach_init cr) W) as H.
  destruct (run evs [] (init cr)) as [[rets d'] |]; [exact H |].
  apply reach_init.
Qed.

End Facade.

Lemma valid_frame_decodes_witness :
  exists d', decode frame_pending = Ok (true, d') /\ necData d' = 0xffff0000.
Proof.
  destruct (valid_frame_decodes frame_pending) as [d' [E [C _]]].
  - vm_compute. reflexivity.
  - vm_compute. reflexivity.
  - vm_compute. reflexivity.
  - vm_compute. reflexivity.
  - intros k Hk.
    do 16 (destruct k as [| k]; [vm_compute; reflexivity |]). lia.
  - exists d'. split; [exact E |]. rewrite C. vm_compute. reflexivity.
Defined.

(** ** Failed frames *)

Section FailedFrame.

Lemma pair_count_bound (l : list Z) :
  (2 <= length l)%nat -> (2 + 2 * (0 + pair_count l) <= length l)%nat.
Proof.
  intros H. unfold pair_count.
  pose proof (Nat.Div0.mul_div_le (length l - 2) 2). lia.
Qed.

(** After a failed frame the call goes on to the repeat check; with
    nothing there it returns false and [necData] is what the frame
    decoder left. *)
Lemma decode_failed_frame (d d1 : necDecoder) (o : outcome) :
  newCommandFlag (pulseReader d) = true ->
  newRepeatFlag (pulseReader d) = false \/ repeatBurst d = [] ->
  decodeCommand (commandBurst d) (takeCommand d) = Ok (o, d1) ->
  succeeded o = false ->
  exists d', decode d = Ok (false, d') /\ necData d' = necData d1.
Proof.
  intros F R E S. rewrite (decode_command d d1 o F E), S.
  apply decodeRepeat_idle.
  destruct (decodeCommand_keeps _ _ _ _ E) as [_ [B [C _]]].
  rewrite B, C. exact R.
Qed.

End FailedFrame.

(** C1, as stated, fails: after a repeat was reported ([necData] =
    0xffffffff) a noise burst of three values is pending; its start
    sequence is invalid, [decode()] returns false, and [necData] is 0 after
    the call. *)
Lemma failed_frame_counterexample :
  reachable false noise_after_repeat
  /\ newCommandFlag (pulseReader noise_after_repeat) = true
  /\ commandBurst noise_after_repeat = [78; 78; 78]
  /\ (exists d1, decodeCommand (commandBurst noise_after_repeat)
                               (takeCommand noise_after_repeat)
                 = Ok (InvalidStartSequence, d1))
  /\ exists d', decode noise_after_repeat = Ok (false, d')
                /\ necData d' <> necData noise_after_repeat.
Proof.
  split; [apply after_reachable; vm_compute; reflexivity |].
  split; [vm_compute; reflexivity |].
  split; [vm_compute; reflexivity |].
  split; [eexists; vm_compute; reflexivity |].
  eexists. split; [vm_compute; reflexivity |].
  vm_compute. discriminate.
Qed.

(** C1 (amended): for a pending command burst on which frame decoding
    fails, with no repeat burst pending, [decode()] returns false.
    [necData] is unchanged when the burst has fewer than 2 entries.
    Otherwise the call resets it: it is 0 after an invalid start sequence,
    and after an invalid data pair it holds the bits of the pairs accepted
    before that pair (bit 31 - k for a one-pair k), whatever it held
    before. *)
Theorem failed_frame_effect (d : necDecoder) :
  newCommandFlag (pulseReader d) = true ->
  newRepeatFlag (pulseReader d) = false \/ repeatBurst d = [] ->
  ((length (commandBurst d) < 2)%nat ->
   exists d', decode d = Ok (false, d') /\ necData d' = necData d)
  /\ ((2 <= length (commandBurst d))%nat ->
      match_ (nth 0 (commandBurst d) 0) 9000 = false ->
      match_ (nth 1 (commandBurst d) 0) 4500 = false ->
      exists d', decode d = Ok (false, d') /\ necData d' = 0)
  /\ (forall m : nat,
        (2 <= length (commandBurst d))%nat ->
        match_ (nth 0 (commandBurst d) 0) 9000 = true
        \/ match_ (nth 1 (commandBurst d) 0) 4500 = true ->
        (m < pair_count (commandBurst d))%nat ->
        (forall k, (k < m)%nat -> pair_valid (commandBurst d) k = true) ->
        (forall k, (32 <= k < m)%nat -> pair_one (commandBurst d) k = false) ->
        pair_valid (commandBurst d) m = false ->
        exists d', decode d = Ok (false, d')
                   /\ necData d' = frame_code (commandBurst d) 0 m).
Proof.
  intros F R. split; [| split].
  - intros L.
    destruct (decode_failed_frame d (takeCommand d) InsufficientData F R)
      as [d' [E N]];
      [apply decodeCommand_short, L | reflexivity |].
    exists d'. split; [exact E | exact N].
  - intros L M0 M1.
    destruct (decode_failed_frame d (frameStart (takeCommand d))
                InvalidStartSequence F R) as [d' [E N]];
      [rewrite decodeCommand_long, M0, M1 by exact L; reflexivity
      | reflexivity |].
    exists d'. split; [exact E | exact N].
  - intros m L M Hm Hv H32 Hbad.
    destruct (decodeLoop_invalid (commandBurst d) m 0
                (pair_count (commandBurst d)) (frameStart (takeCommand d)))
      as [o [E Ho]];
      [apply pair_count_bound, L | exact Hm | intros; apply Hv; lia
      | intros; apply H32; lia | exact Hbad |].
    destruct (decode_failed_frame d
                (set_necData
                   (Z.lor (necData (frameStart (takeCommand d)))
                          (frame_code (commandBurst d) 0 m))
                   (frameStart (takeCommand d))) o F R) as [d' [E' N]].
    + rewrite decodeCommand_long by exact L.
      replace (negb _ && negb _) with false; [exact E |].
      destruct M as [-> | ->]; cbn [negb andb];
        [reflexivity | symmetry; apply andb_false_r].
    + destruct Ho as [-> | ->]; reflexivity.
    + exists d'. split; [exact E' |]. rewrite N. cbn. reflexivity.
Qed.

Lemma failed_frame_effect_witness :
  exists d', decode noise_after_repeat = Ok (false, d') /\ necData d' = 0.
Proof.
  apply (failed_frame_effect noise_after_repeat).
  - vm_compute. reflexivity.
  - right. vm_compute. reflexivity.
  - vm_compute. lia.
  - vm_compute. reflexivity.
  - vm_compute. reflexivity.
Defined.

(** C8, as stated, fails: an empty command burst is pending together with a
    repeat frame; [decode()] returns true and [necData] changes. *)
Lemma short_burst_counterexample :
  reachable false repeat_after_empty
  /\ newCommandFlag (pulseReader repeat_after_empty) = true
  /\ commandBurst repeat_after_empty = []
  /\ exists d', decode repeat_after_empty = Ok (true, d')
                /\ necData d' <> necData repeat_after_empty.
Proof.
  split; [apply after_reachable; vm_compute; reflexivity |].
  split; [vm_compute; reflexivity |].
  split; [vm_compute; reflexivity |].
  eexists. split; [vm_compute; reflexivity |].
  vm_compute. discriminate.
Qed.

(** C8 (amended): for a pending command burst shorter than 2 entries the
    frame decoder returns false and leaves [necData] and the command flag
    as they were; [decode()] then goes on to the repeat check, and returns
    false with [necData] unchanged unless a repeat burst matching 9000 and
    2250 us is pending in the same call. *)
Theorem short_burst_rejected (d : necDecoder) :
  newCommandFlag (pulseReader d) = true ->
  (length (commandBurst d) < 2)%nat ->
  decodeCommand (commandBurst d) (takeCommand d)
  = Ok (InsufficientData, takeCommand d)
  /\ necData (takeCommand d) = necData d
  /\ decode d = decodeRepeat (takeCommand d)
  /\ (newRepeatFlag (pulseReader d) = false
      \/ repeatBurst d = []
      \/ (exists a b, repeatBurst d = [a; b]
                      /\ match_ a 9000 && match_ b 2250 = false) ->
      exists d', decode d = Ok (false, d') /\ necData d' = necData d).
Proof.
  intros F L.
  assert (E : decodeCommand (commandBurst d) (takeCommand d)
              = Ok (InsufficientData, takeCommand d))
    by (apply decodeCommand_short, L).
  assert (D : decode d = decodeRepeat (takeCommand d))
    by (rewrite (decode_command d _ _ F E); reflexivity).
  split; [exact E |]. split; [reflexivity |]. split; [exact D |].
  intros [R | [R | [a [b [R M]]]]]; rewrite D.
  - apply (decodeRepeat_idle (takeCommand d)). left. exact R.
  - apply (decodeRepeat_idle (takeCommand d)). right. exact R.
  - destruct (newRepeatFlag (pulseReader d)) eqn:FR.
    + destruct (decodeRepeat_pair (takeCommand d) a b FR R) as [d' [E' N]].
      rewrite M in E', N. exists d'. split; [exact E' | exact N].
    + apply (decodeRepeat_idle (takeCommand d)). left. exact FR.
Qed.

Lemma short_burst_rejected_witness :
  exists d', decode empty_burst_pending = Ok (false, d')
             /\ necData d' = necData empty_burst_pending.
Proof.
  apply (short_burst_rejected empty_burst_pending).
  - vm_compute. reflexivity.
  - vm_compute. lia.
  - left. vm_compute. reflexivity.
Defined.

(** C5, as stated, fails: a noise burst and a repeat frame are both
    pending; the call finds the pending command burst, fails to decode it,
    and processes the repeat burst in the same call. *)
Lemma exclusive_kinds_counterexample :
  reachable false repeat_after_noise
  /\ newCommandFlag (pulseReader repeat_after_noise) = true
  /\ commandBurst repeat_after_noise = [78; 78; 78]
  /\ repeatBurst repeat_after_noise = [9000; 2250]
  /\ exists d', decode repeat_after_noise = Ok (true, d')
                /\ repeatBurst d' = []
                /\ necData d' = 0xffffffff.
Proof.
  split; [apply after_reachable; vm_compute; reflexivity |].
  split; [vm_compute; reflexivity |].
  split; [vm_compute; reflexivity |].
  split; [vm_compute; reflexivity |].
  eexists. split; [vm_compute; reflexivity |].
  split; vm_compute; reflexivity.
Qed.

(** C5 (amended): in a call to [decode()] the command-ready flag is checked
    first.  With no command burst flagged the call is the repeat check.
    When the flagged command burst decodes, the call returns true and
    leaves the repeat flag and the repeat burst untouched.  When the
    flagged command burst fails to decode, the same call goes on to the
    repeat check, on the repeat flag and repeat burst as they were. *)
Theorem command_first_then_repeat (d : necDecoder) :
  (newCommandFlag (pulseReader d) = false -> decode d = decodeRepeat d)
  /\ (forall (o : outcome) (d1 : necDecoder),
        newCommandFlag (pulseReader d) = true ->
        decodeCommand (commandBurst d) (takeCommand d) = Ok (o, d1) ->
        (o = Decoded ->
         decode d = Ok (true, set_err 0 d1)
         /\ repeatBurst (set_err 0 d1) = repeatBurst d
         /\ newRepeatFlag (pulseReader (set_err 0 d1))
            = newRepeatFlag (pulseReader d))
        /\ (o <> Decoded ->
            decode d = decodeRepeat d1
            /\ repeatBurst d1 = repeatBurst d
            /\ newRepeatFlag (pulseReader d1)
               = newRepeatFlag (pulseReader d))).
Proof.
  split; [apply decode_no_command |].
  intros o d1 F E.
  destruct (decodeCommand_keeps _ _ _ _ E) as [_ [B [C _]]].
  cbn in B, C.
  rewrite (decode_command d d1 o F E).
  split.
  - intros ->. cbn [succeeded]. split; [reflexivity |].
    split; [exact B | exact C].
  - intros N. destruct o; try contradiction; cbn [succeeded];
      (split; [reflexivity | split; [exact B | exact C]]).
Qed.

Lemma command_first_then_repeat_witness :
  exists d1,
    decode both_pending = Ok (true, set_err 0 d1)
    /\ repeatBurst (set_err 0 d1) = [9000; 2250].
Proof.
  destruct (command_first_then_repeat both_pending) as [_ H].
  destruct (decodeCommand (commandBurst both_pending)
                          (takeCommand both_pending))
    as [[o d1] |] eqn:E; [| vm_compute in E; discriminate E].
  assert (O : o = Decoded) by (vm_compute in E; congruence).
  destruct (H o d1 ltac:(vm_compute; reflexivity) eq_refl) as [S _].
  destruct (S O) as [D [B _]].
  exists d1. split; [exact D |]. rewrite B. vm_compute. reflexivity.
Defined.

(** C7, as stated, fails for [commandRepeat=True]: a key was decoded
    ([necData] = 0xffff0000), then a noise burst and a repeat frame are
    pending; the noise does not decode, the repeat frame is accepted, and
    [necData] is 0, not its prior value. *)
Lemma repeat_policy_counterexample :
  reachable true held_key_after_noise
  /\ commandRepeat held_key_after_noise = true
  /\ newRepeatFlag (pulseReader held_key_after_noise) = true
  /\ repeatBurst held_key_after_noise = [9000; 2250]
  /\ match_ 9000 9000 = true /\ match_ 2250 2250 = true
  /\ (exists d1, decodeCommand (commandBurst held_key_after_noise)
                               (takeCommand held_key_after_noise)
                 = Ok (InvalidStartSequence, d1))
  /\ necData held_key_after_noise = 0xffff0000
  /\ exists d', decode held_key_after_noise = Ok (true, d')
                /\ necData d' <> necData held_key_after_noise.
Proof.
  split; [apply after_reachable; vm_compute; reflexivity |].
  split; [vm_compute; reflexivity |].
  split; [vm_compute; reflexivity |].
  split; [vm_compute; reflexivity |].
  split; [vm_compute; reflexivity |].
  split; [vm_compute; reflexivity |].
  split; [eexists; vm_compute; reflexivity |].
  split; [vm_compute; reflexivity |].
  eexists. split; [vm_compute; reflexivity |].
  vm_compute. discriminate.
Qed.

(** C7 (amended): for a pending repeat burst whose two values match 9000
    and 2250 us, when no command burst is flagged or the flagged command
    burst fails to decode, [decode()] returns true.  With
    [commandRepeat=False] it sets [necData] to 0xFFFFFFFF.  With
    [commandRepeat=True] [necData] keeps its prior value when no command
    burst is flagged or the flagged burst has fewer than 2 entries; after a
    flagged burst of 2 or more entries that failed to decode it is the
    value the failed frame decoding left. *)
Theorem repeat_burst_policy (d : necDecoder) (a b : Z) :
  newRepeatFlag (pulseReader d) = true ->
  repeatBurst d = [a; b] ->
  match_ a 9000 = true ->
  match_ b 2250 = true ->
  newCommandFlag (pulseReader d) = false
  \/ (exists o d1, decodeCommand (commandBurst d) (takeCommand d) = Ok (o, d1)
                   /\ o <> Decoded) ->
  exists d',
    decode d = Ok (true, d')
    /\ (commandRepeat d = false -> necData d' = 0xffffffff)
    /\ (commandRepeat d = true ->
        newCommandFlag (pulseReader d) = false
        \/ (length (commandBurst d) < 2)%nat ->
        necData d' = necData d)
    /\ (commandRepeat d = true ->
        forall o d1,
          newCommandFlag (pulseReader d) = true ->
          decodeCommand (commandBurst d) (takeCommand d) = Ok (o, d1) ->
          necData d' = necData d1).
Proof.
  intros FR R Ma Mb H.
  destruct (newCommandFlag (pulseReader d)) eqn:FC.
  - destruct H as [H | [o [d1 [E N]]]]; [discriminate H |].
    destruct (decodeCommand_keeps _ _ _ _ E) as [_ [B [C [CR _]]]].
    cbn in B, C, CR.
    destruct (decodeRepeat_pair d1 a b) as [d' [E' N']];
      [rewrite C; exact FR | rewrite B; exact R |].
    rewrite Ma, Mb in E', N'. cbn [andb] in E', N'. rewrite CR in N'.
    exists d'. split.
    { unfold decode. rewrite FC.
      fold (commandBurst d). fold (takeCommand d). rewrite E. cbn [bind].
      destruct o; try contradiction; exact E'. }
    split; [intros Z0; rewrite Z0 in N'; exact N' |]. split.
    + intros Z1 [X | L]; [discriminate X |].
      rewrite Z1 in N'. rewrite N'.
      rewrite decodeCommand_short in E by exact L. injection E as _ <-.
      reflexivity.
    + intros Z1 o' d1' _ E2. rewrite Z1 in N'.
      rewrite E in E2. injection E2 as _ <-. exact N'.
  - destruct (decodeRepeat_pair d a b FR R) as [d' [E' N']].
    rewrite Ma, Mb in E', N'. cbn [andb] in E', N'.
    exists d'. split; [rewrite decode_no_command by exact FC; exact E' |].
    split; [intros Z0; rewrite Z0 in N'; exact N' |]. split.
    + intros Z1 _. rewrite Z1 in N'. exact N'.
    + intros _ o d1 X. discriminate X.
Qed.

Lemma repeat_burst_policy_witness :
  exists d', decode repeat_pending = Ok (true, d') /\ necData d' = 0xffffffff.
Proof.
  destruct (repeat_burst_policy repeat_pending 9000 2250) as [d' [E [N _]]].
  - vm_compute. reflexivity.
  - vm_compute. reflexivity.
  - vm_compute. reflexivity.
  - vm_compute. reflexivity.
  - left. vm_compute. reflexivity.
  - exists d'. split; [exact E |]. apply N. vm_compute. reflexivity.
Defined.

(** ** Repeated polls *)

Section Polls.

Lemma decode_quiescent (d : necDecoder) :
  quiescent d -> decode d = Ok (false, d).
Proof.
  destruct d as [nd cr [fifo rp rr rc rcb fr fc] e].
  unfold quiescent, commandBurst, repeatBurst. cbn. intros [A B].
  destruct fc, fr;
    try (rewrite (A eq_refl)); try (rewrite (B eq_refl)); reflexivity.
Qed.

(** A call that returns false leaves nothing to consume. *)
Lemma decode_false_settles (d d' : necDecoder) :
  decode d = Ok (false, d') -> quiescent d'.
Proof.
  intros H. unfold decode in H.
  destruct (newCommandFlag (pulseReader d)) eqn:F.
  - fold (commandBurst d) in H. fold (takeCommand d) in H.
    destruct (decodeCommand _ _) as [[o d1] |] eqn:E; [| discriminate H].
    cbn [bind] in H.
    destruct (succeeded o); [discriminate H |].
    destruct (decodeCommand_keeps _ _ _ _ E) as [A _].
    destruct (decodeRepeat_post _ _ _ H) as [P1 [_ [P3 [_ [P5 _]]]]].
    split.
    + intros _. rewrite P1, A. reflexivity.
    + intros R. apply P5. rewrite <- P3. exact R.
  - destruct (decodeRepeat_post _ _ _ H) as [_ [_ [P3 [P4 [P5 _]]]]].
    split.
    + intros C. apply P4 in C. congruence.
    + intros R. apply P5. rewrite <- P3. exact R.
Qed.

(** After any call the command side is settled. *)
Lemma decode_settles_command (d d' : necDecoder) (b : bool) :
  decode d = Ok (b, d') ->
  newCommandFlag (pulseReader d') = true -> commandBurst d' = [].
Proof.
  intros H C. unfold decode in H.
  destruct (newCommandFlag (pulseReader d)) eqn:F.
  - fold (commandBurst d) in H. fold (takeCommand d) in H.
    destruct (decodeCommand _ _) as [[o d1] |] eqn:E; [| discriminate H].
    cbn [bind] in H.
    destruct (decodeCommand_keeps _ _ _ _ E) as [A _].
    destruct (succeeded o).
    + injection H as _ <-. exact A.
    + destruct (decodeRepeat_post _ _ _ H) as [P1 _].
      rewrite P1, A. reflexivity.
  - destruct (decodeRepeat_post _ _ _ H) as [_ [_ [_ [P4 _]]]].
    apply P4 in C. congruence.
Qed.

(** A call from a state whose command side is settled settles the rest. *)
Lemma decode_settles (d d' : necDecoder) (b : bool) :
  (newCommandFlag (pulseReader d) = true -> commandBurst d = []) ->
  decode d = Ok (b, d') -> quiescent d'.
Proof.
  intros S H.
  destruct (newCommandFlag (pulseReader d)) eqn:F.
  - assert (E : decodeCommand (commandBurst d) (takeCommand d)
                = Ok (InsufficientData, takeCommand d)).
    { apply decodeCommand_short. rewrite (S eq_refl). cbn. lia. }
    rewrite (decode_command d _ _ F E) in H. cbn [succeeded] in H.
    destruct (decodeRepeat_post _ _ _ H) as [P1 [_ [P3 [_ [P5 _]]]]].
    split.
    + intros _. rewrite P1. reflexivity.
    + intros R. apply P5. rewrite <- P3. exact R.
  - rewrite decode_no_command in H by exact F.
    destruct (decodeRepeat_post _ _ _ H) as [_ [_ [P3 [P4 [P5 _]]]]].
    split.
    + intros C. apply P4 in C. congruence.
    + intros R. apply P5. rewrite <- P3. exact R.
Qed.

Lemma polls_quiescent (n : nat) (d : necDecoder) :
  quiescent d -> polls n d = Ok (repeat false n, d).
Proof.
  intros Q. induction n as [| n IH]; [reflexivity |].
  cbn [polls repeat]. rewrite (decode_quiescent d Q). cbn [bind].
  rewrite IH. reflexivity.
Qed.

End Polls.

(** C9, as stated, fails: a command frame and its repeat frame are both
    pending; the first call decodes the command and returns true; the
    second call, with no producer activity in between, accepts the repeat
    frame, returns true and changes [necData]. *)
Lemma repeated_polls_counterexample :
  reachable false both_pending
  /\ decode both_pending = Ok (true, polled_once)
  /\ exists d2, decode polled_once = Ok (true, d2)
                /\ necData d2 <> necData polled_once.
Proof.
  split; [apply after_reachable; vm_compute; reflexivity |].
  split; [vm_compute; reflexivity |].
  eexists. split; [vm_compute; reflexivity |].
  vm_compute. discriminate.
Qed.

(** C9 (amended): with no producer activity between the calls, a call of
    [decode()] that follows a call that returned false returns false and
    changes nothing, and from the third call on every call returns false
    and changes nothing (so [necData] is not mutated).  The second call can
    still return true and mutate [necData]: a call that decodes a command
    burst leaves a pending repeat burst to the next call. *)
Theorem repeated_polls_settle
  (d0 d1 d2 : necDecoder) (b1 b2 : bool) (n : nat) :
  decode d0 = Ok (b1, d1) ->
  decode d1 = Ok (b2, d2) ->
  (b1 = false -> b2 = false /\ d2 = d1)
  /\ polls n d2 = Ok (repeat false n, d2).
Proof.
  intros H1 H2. split.
  - intros ->. apply decode_false_settles in H1.
    rewrite (decode_quiescent d1 H1) in H2. injection H2 as <- <-. auto.
  - apply polls_quiescent.
    apply (decode_settles d1 d2 b2); [| exact H2].
    apply (decode_settles_command d0 d1 b1 H1).
Qed.

Lemma repeated_polls_settle_witness :
  exists d2, decode polled_once = Ok (true, d2)
             /\ polls 3 d2 = Ok ([false; false; false], d2).
Proof.
  destruct (decode polled_once) as [[b2 d2] |] eqn:E;
    [| vm_compute in E; discriminate E].
  assert (B : b2 = true) by (vm_compute in E; congruence).
  subst b2. exists d2. split; [reflexivity |].
  apply (repeated_polls_settle both_pending polled_once d2 true true 3).
  - vm_compute. reflexivity.
  - exact E.
Defined.

(** ** Acquisition buffer *)

Section Acquisition.

Lemma fold_repeat_append (code : list Z) :
  forall p : PulseReader,
    fold_left
      (fun p i => set_rawRepeatTimeBuf (rawRepeatTimeBuf p ++ [toMS i]) p)
      code p
    = set_rawRepeatTimeBuf (rawRepeatTimeBuf p ++ map toMS code) p.
Proof.
  induction code as [| i code IH]; intros p.
  - cbn. rewrite app_nil_r. destruct p; reflexivity.
  - cbn [fold_left map]. rewrite IH. cbn.
    rewrite <- app_assoc. reflexivity.
Qed.

Lemma fold_command_append (code : list Z) :
  forall p : PulseReader,
    fold_left
      (fun p i => set_rawCommandTimeBuf (rawCommandTimeBuf p ++ [toMS i]) p)
      code p
    = set_rawCommandTimeBuf (rawCommandTimeBuf p ++ map toMS code) p.
Proof.
  induction code as [| i code IH]; intros p.
  - cbn. rewrite app_nil_r. destruct p; reflexivity.
  - cbn [fold_left map]. rewrite IH. cbn.
    rewrite <- app_assoc. reflexivity.
Qed.

(** A burst of two values replaces the repeat buffer. *)
Lemma convertToMS_repeat (code : list Z) (p : PulseReader) :
  length code = 2%nat ->
  convertToMS code p
  = set_newRepeatFlag true (set_rawRepeatTimeBuf (map toMS code) p).
Proof.
  intros H. unfold convertToMS. rewrite H. cbn [Nat.eqb].
  rewrite fold_repeat_append. reflexivity.
Qed.

(** A burst of any other length empties the repeat buffer and is appended
    to the command buffer: line 89 assigns [rawCommandTimeBuffer], and
    [rawCommandTimeBuf] keeps what it held. *)
Lemma convertToMS_command (code : list Z) (p : PulseReader) :
  length code <> 2%nat ->
  convertToMS code p
  = set_newCommandFlag true
      (set_rawCommandTimeBuf (rawCommandTimeBuf p ++ map toMS code)
         (set_rawCommandTimeBuffer [] (set_rawRepeatTimeBuf [] p))).
Proof.
  intros H. unfold convertToMS.
  destruct (length code =? 2)%nat eqn:E; [apply Nat.eqb_eq in E; lia |].
  rewrite fold_command_append. reflexivity.
Qed.

Lemma convertToMS_repeat_length (code : list Z) (p : PulseReader) :
  length (rawRepeatTimeBuf (convertToMS code p)) = 0%nat
  \/ length (rawRepeatTimeBuf (convertToMS code p)) = 2%nat.
Proof.
  destruct (Nat.eq_dec (length code) 2) as [E | E].
  - right. rewrite convertToMS_repeat by exact E. cbn.
    rewrite length_map. exact E.
  - left. rewrite convertToMS_command by exact E. reflexivity.
Qed.

Lemma getPulses_repeat_length (p : PulseReader) :
  length (rawRepeatTimeBuf p) = 0%nat \/ length (rawRepeatTimeBuf p) = 2%nat ->
  length (rawRepeatTimeBuf (getPulses p)) = 0%nat
  \/ length (rawRepeatTimeBuf (getPulses p)) = 2%nat.
Proof.
  intros H. unfold getPulses.
  destruct (sm p) as [| pulse fifo]; [exact H |].
  destruct (pulse =? TIMEOUT_WORD); [| exact H].
  cbn [rawRepeatTimeBuf set_rawPulsesBuf].
  apply convertToMS_repeat_length.
Qed.

(** The invariant holds under every interleaving of the timer callback
    with the statements of [decode()]. *)
Lemma interleaved_repeat_length (cr : bool) (d : necDecoder) :
  interleaved cr d ->
  length (repeatBurst d) = 0%nat \/ length (repeatBurst d) = 2%nat.
Proof.
  induction 1 as [| d w _ IH _ | d _ IH | d v _ IH | d _ IH | d _ IH
                  | d _ IH | d v _ IH];
    try exact IH; try (left; reflexivity).
  apply getPulses_repeat_length, IH.
Qed.

Lemma decodeLoop_in_bounds (l : list Z) (n : nat) :
  forall (k0 : nat) (d : necDecoder),
    (2 + 2 * (k0 + n) <= length l)%nat ->
    decodeLoop l (pair_indices k0 n) d <> Raise IndexError.
Proof.
  induction n as [| n IH]; intros k0 d H; [discriminate |].
  unfold pair_indices. cbn [seq map]. fold (pair_indices (S k0) n).
  rewrite decodeLoop_step by lia.
  destruct (pair_valid l k0); [| discriminate].
  destruct (pair_one l k0); [| apply IH; lia].
  unfold lshift. destruct (_ <? 0); cbn [bind]; [discriminate |].
  apply IH. lia.
Qed.

(** The frame decoder never indexes outside its burst. *)
Lemma decodeCommand_in_bounds (l : list Z) (d : necDecoder) :
  decodeCommand l d <> Raise IndexError.
Proof.
  destruct (Nat.lt_ge_cases (length l) 2) as [L | L].
  - rewrite decodeCommand_short by exact L. discriminate.
  - rewrite decodeCommand_long by exact L.
    destruct (negb _ && negb _); [discriminate |].
    apply decodeLoop_in_bounds, pair_count_bound, L.
Qed.

(** On a copied repeat burst of length 0 or 2 the second half of
    [decode] raises nothing. *)
Lemma decodeRepeat_in_bounds (d : necDecoder) :
  length (repeatBurst d) = 0%nat \/ length (repeatBurst d) = 2%nat ->
  exists r, decodeRepeat d = Ok r.
Proof.
  intros H.
  destruct (newRepeatFlag (pulseReader d)) eqn:F.
  - destruct H as [H | H].
    + destruct (decodeRepeat_idle d) as [d' [E _]]; [| eexists; exact E].
      right. destruct (repeatBurst d); [reflexivity | discriminate H].
    + destruct (repeatBurst d) as [| a [| b [| c r]]] eqn:R;
        try discriminate H.
      destruct (decodeRepeat_pair d a b F R) as [d' [E _]].
      eexists; exact E.
  - destruct (decodeRepeat_idle d) as [d' [E _]]; [| eexists; exact E].
    left. exact F.
Qed.

Lemma decode_in_bounds (d : necDecoder) :
  length (repeatBurst d) = 0%nat \/ length (repeatBurst d) = 2%nat ->
  decode d <> Raise IndexError.
Proof.
  intros H. unfold decode.
  destruct (newCommandFlag (pulseReader d)).
  - fold (commandBurst d). fold (takeCommand d).
    destruct (decodeCommand _ _) as [[o d1] | e] eqn:E; cbn [bind].
    + destruct (succeeded o); [discriminate |].
      destruct (decodeCommand_keeps _ _ _ _ E) as [_ [B _]].
      destruct (decodeRepeat_in_bounds d1) as [r ->];
        [rewrite B; exact H | discriminate].
    + intros X. injection X as ->.
      exact (decodeCommand_in_bounds _ _ E).
  - destruct (decodeRepeat_in_bounds d H) as [r ->]. discriminate.
Qed.

Lemma decodeRepeat_interleaved (cr : bool) (d d' : necDecoder) (b : bool) :
  interleaved cr d -> decodeRepeat d = Ok (b, d') -> interleaved cr d'.
Proof.
  intros I H. unfold decodeRepeat in H.
  destruct (newRepeatFlag (pulseReader d));
    [| injection H as _ <-; exact I].
  destruct (negb _); [| injection H as _ <-; writes].
  destruct (getitem _ 0) as [r0 |]; [| discriminate H]. cbn [bind] in H.
  destruct (match_ r0 9000); [| injection H as _ <-; writes].
  destruct (getitem _ 1) as [r1 |]; [| discriminate H]. cbn [bind] in H.
  destruct (match_ r1 2250); [| injection H as _ <-; writes].
  destruct (negb _); injection H as _ <-; writes.
Qed.

(** A whole call of [decode()] is one of the interleavings. *)
Lemma decode_interleaved (cr : bool) (d d' : necDecoder) (b : bool) :
  interleaved cr d -> decode d = Ok (b, d') -> interleaved cr d'.
Proof.
  intros I H. unfold decode in H.
  destruct (newCommandFlag (pulseReader d));
    [| eapply decodeRepeat_interleaved; eassumption].
  fold (commandBurst d) in H. fold (takeCommand d) in H.
  destruct (decodeCommand _ _) as [[o d1] |] eqn:E; [| discriminate H].
  cbn [bind] in H.
  assert (I1 : interleaved cr d1).
  { destruct (decodeCommand_state _ _ _ _ E) as [[_ [_ ->]] | [_ ->]];
      unfold frameStart, takeCommand; writes. }
  destruct (succeeded o).
  - injection H as _ <-. writes.
  - eapply decodeRepeat_interleaved; eassumption.
Qed.

Lemma reachable_interleaved (cr : bool) (d : necDecoder) :
  reachable cr d -> interleaved cr d.
Proof.
  induction 1 as [| d w _ IH W | d _ IH | d b d' _ IH E].
  - apply il_init.
  - apply il_push; assumption.
  - apply il_tick; assumption.
  - eapply decode_interleaved; eassumption.
Qed.

End Acquisition.

(** C10: in every reachable state the pending repeat buffer
    [rawRepeatTimeBuf] has length 0 or 2, so in [decode()] the accesses
    [rawRepeat[0]] and [rawRepeat[1]] behind the non-emptiness guard are in
    bounds: the call does not raise [IndexError], and its repeat check
    raises nothing. *)
Theorem repeat_buffer_in_bounds (cr : bool) (d : necDecoder) :
  reachable cr d ->
  (length (repeatBurst d) = 0%nat \/ length (repeatBurst d) = 2%nat)
  /\ decode d <> Raise IndexError
  /\ exists r, decodeRepeat d = Ok r.
Proof.
  intros R.
  assert (L : length (repeatBurst d) = 0%nat \/ length (repeatBurst d) = 2%nat)
    by (eapply interleaved_repeat_length, reachable_interleaved; exact R).
  split; [exact L |]. split.
  - apply decode_in_bounds, L.
  - apply decodeRepeat_in_bounds, L.
Qed.

Lemma repeat_buffer_in_bounds_witness :
  reachable false repeat_after_noise
  /\ length (repeatBurst repeat_after_noise) = 2%nat
  /\ decode repeat_after_noise <> Raise IndexError.
Proof.
  assert (R : reachable false repeat_after_noise)
    by (apply after_reachable; vm_compute; reflexivity).
  destruct (repeat_buffer_in_bounds false repeat_after_noise R) as [_ [N _]].
  split; [exact R |]. split; [vm_compute; reflexivity | exact N].
Defined.

(** C2: the repeat side holds (of two repeat frames finalized with no
    poll in between only the second is in [rawRepeatTimeBuf]), the command
    side does not: two command bursts finalized with no poll in between are
    both in [rawCommandTimeBuf], the second behind the first, because line 89
    clears [rawCommandTimeBuffer] and not [rawCommandTimeBuf]. *)
Theorem second_command_burst_is_appended :
  reachable false two_bursts
  /\ commandBurst two_bursts = [78; 78; 78; 156; 156; 156]
  /\ rawCommandTimeBuffer (pulseReader two_bursts) = Some []
  /\ reachable false two_repeats
  /\ repeatBurst two_repeats = [7812; 2343].
Proof.
  split; [apply after_reachable; vm_compute; reflexivity |].
  split; [vm_compute; reflexivity |].
  split; [vm_compute; reflexivity |].
  split; [apply after_reachable; vm_compute; reflexivity |].
  vm_compute. reflexivity.
Qed.

(** * Further properties of the decoder *)

(** ** Tolerance and classification *)

(** X1: [match] accepts exactly the observed values strictly between
    [e / 1.2] and [e / 0.8]; nothing matches a non-positive expected value,
    and no non-positive observed value matches anything. *)
Theorem match_window (v e : Z) :
  (match_ v e = true <-> 5 * e < 6 * v /\ 4 * v < 5 * e)
  /\ (match_ v e = true -> 0 < v /\ 0 < e).
Proof.
  split.
  - rewrite match_spec. lia.
  - intros H. apply match_spec in H. lia.
Qed.

Lemma match_window_witness :
  match_ 10000 9000 = true /\ match_ 11250 9000 = false.
Proof.
  split.
  - apply (proj1 (match_window 10000 9000)). lia.
  - destruct (match_ 11250 9000) eqn:E; [| reflexivity].
    apply (proj1 (match_window 11250 9000)) in E. lia.
Defined.

(** X2: no pair passes both [checkZero] and [checkOne], and the sum test of
    line 129 sends every pair that one of them accepts to that one: a
    one-pair has a sum above [560 * 3], a zero-pair a sum of at most
    [560 * 3]. *)
Theorem classifier_exclusive (p1 p2 : Z) :
  checkZero p1 p2 && checkOne p1 p2 = false
  /\ (checkOne p1 p2 = true -> (p1 + p2 >? DATA_PULSE_WIDTH * 3) = true)
  /\ (checkZero p1 p2 = true -> (p1 + p2 >? DATA_PULSE_WIDTH * 3) = false).
Proof.
  split; [| split].
  - destruct (checkZero p1 p2) eqn:E; [| reflexivity].
    apply checkZero_sum in E. destruct E as [_ ->]. reflexivity.
  - intros H. apply checkOne_sum in H. apply H.
  - intros H. apply checkZero_sum in H. apply H.
Qed.

Lemma classifier_exclusive_witness :
  (560 + 1680 >? DATA_PULSE_WIDTH * 3) = true
  /\ (560 + 560 >? DATA_PULSE_WIDTH * 3) = false.
Proof.
  split.
  - apply (classifier_exclusive 560 1680). vm_compute. reflexivity.
  - apply (classifier_exclusive 560 560). vm_compute. reflexivity.
Defined.

(** ** Frames of any length *)

Section AnyFrame.

Lemma decode_frame_ok (d : necDecoder) :
  newCommandFlag (pulseReader d) = true ->
  (2 <= length (commandBurst d))%nat ->
  match_ (nth 0 (commandBurst d) 0) 9000 = true
  \/ match_ (nth 1 (commandBurst d) 0) 4500 = true ->
  (pair_count (commandBurst d) <= 32)%nat ->
  (forall k, (k < pair_count (commandBurst d))%nat ->
             pair_valid (commandBurst d) k = true) ->
  decode d
  = Ok (true,
        set_err 0
          (set_necData (frame_code (commandBurst d) 0
                                   (pair_count (commandBurst d)))
                       (frameStart (takeCommand d)))).
Proof.
  intros F L M C V.
  assert (E : decodeCommand (commandBurst d) (takeCommand d)
              = Ok (Decoded,
                    set_necData (frame_code (commandBurst d) 0
                                            (pair_count (commandBurst d)))
                                (frameStart (takeCommand d)))).
  { rewrite decodeCommand_long by exact L.
    replace (negb _ && negb _) with false
      by (destruct M as [-> | ->]; cbn [negb andb];
          [reflexivity | symmetry; apply andb_false_r]).
    rewrite decodeLoop_valid;
      [| apply pair_count_bound, L | intros; apply V; lia | intros; lia].
    cbn [necData frameStart set_necData set_pulseReader].
    rewrite Z.lor_0_l. reflexivity. }
  rewrite (decode_command d _ _ F E). reflexivity.
Qed.

Lemma testbit_high (a j : Z) : 0 <= a < 2 ^ 32 -> 32 <= j -> Z.testbit a j = false.
Proof.
  intros H J. apply testbit_small. split; [lia |].
  apply Z.lt_le_trans with (2 ^ 32); [lia |].
  apply Z.pow_le_mono_r; lia.
Qed.


End AnyFrame.

(** X3: a flagged command burst of any length from 2 on, whose start
    sequence is accepted (one of the two start values matches) and whose
    data pairs, at most 32, are all valid, makes [decode()] return true.
    The call empties the command buffer, lowers the command flag, sets
    [err] to 0, and leaves in [necData] the code in which pair k decides
    bit 31 - k, whatever [necData] held before; a last value without a
    partner is not looked at.  A frame of 66 values fills all 32 bits. *)
Theorem frame_decodes (d : necDecoder) :
  newCommandFlag (pulseReader d) = true ->
  (2 <= length (commandBurst d))%nat ->
  match_ (nth 0 (commandBurst d) 0) 9000 = true
  \/ match_ (nth 1 (commandBurst d) 0) 4500 = true ->
  (pair_count (commandBurst d) <= 32)%nat ->
  (forall k, (k < pair_count (commandBurst d))%nat ->
             pair_valid (commandBurst d) k = true) ->
  exists d',
    decode d = Ok (true, d')
    /\ commandBurst d' = []
    /\ newCommandFlag (pulseReader d') = false
    /\ err d' = Some 0
    /\ (forall k, (k < pair_count (commandBurst d))%nat ->
          Z.testbit (necData d') (31 - Z.of_nat k)
          = pair_one (commandBurst d) k)
    /\ (forall j, 0 <= j < 32 - Z.of_nat (pair_count (commandBurst d))
                  \/ 32 <= j ->
          Z.testbit (necData d') j = false).
Proof.
  intros F L M C V. eexists.
  split; [apply decode_frame_ok; assumption |].
  cbn [commandBurst necData err pulseReader set_err set_necData frameStart
       takeCommand set_pulseReader rawCommandTimeBuf set_rawCommandTimeBuf
       set_newCommandFlag newCommandFlag].
  split; [reflexivity |]. split; [reflexivity |]. split; [reflexivity |].
  split.
  - intros k K. apply frame_code_bit; lia.
  - intros j [J | J].
    + apply frame_code_low. lia.
    + apply testbit_high; [| exact J].
      apply (frame_code_bound _ _ 0). lia.
Qed.

Lemma frame_decodes_witness :
  exists d', decode frame_pending = Ok (true, d')
             /\ commandBurst d' = [] /\ err d' = Some 0.
Proof.
  destruct (frame_decodes frame_pending) as [d' [E [B [_ [R _]]]]].
  - vm_compute. reflexivity.
  - vm_compute. lia.
  - left. vm_compute. reflexivity.
  - vm_compute. lia.
  - intros k Hk. change (pair_count (commandBurst frame_pending)) with 16%nat in Hk.
    do 16 (destruct k as [| k]; [vm_compute; reflexivity |]). lia.
  - exists d'. auto.
Defined.



(** ** Exceptions *)

Section Exceptions.

Lemma pair_one_valid (l : list Z) (k : nat) :
  pair_one l k = true -> pair_valid l k = true.
Proof. unfold pair_one, pair_valid. intros ->. apply orb_true_r. Qed.

(** A one-pair beyond the 32nd makes the shift count negative. *)
Lemma decodeLoop_overflow (l : list Z) (m : nat) :
  forall (k0 n : nat) (d : necDecoder),
    (2 + 2 * (k0 + n) <= length l)%nat ->
    (m < n)%nat ->
    (forall k, (k0 <= k < k0 + m)%nat -> pair_valid l k = true) ->
    (forall k, (k0 <= k < k0 + m)%nat -> (32 <= k)%nat ->
               pair_one l k = false) ->
    pair_one l (k0 + m) = true ->
    (32 <= k0 + m)%nat ->
    decodeLoop l (pair_indices k0 n) d = Raise ValueError.
Proof.
  induction m as [| m IH]; intros k0 n d Hlen Hm Hv H32 Hone Hbig.
  - destruct n as [| n]; [lia |].
    unfold pair_indices. cbn [seq map].
    rewrite decodeLoop_step by lia.
    rewrite Nat.add_0_r in Hone, Hbig.
    rewrite (pair_one_valid _ _ Hone), Hone.
    unfold lshift.
    destruct (31 - Z.of_nat k0 <? 0) eqn:E; [reflexivity |].
    apply Z.ltb_ge in E. lia.
  - destruct n as [| n]; [lia |].
    unfold pair_indices. cbn [seq map]. fold (pair_indices (S k0) n).
    rewrite decodeLoop_step by lia.
    rewrite Hv by lia.
    assert (R : forall d0, decodeLoop l (pair_indices (S k0) n) d0
                           = Raise ValueError).
    { intros d0. apply IH; try lia.
      - intros; apply Hv; lia.
      - intros; apply H32; lia.
      - replace (S k0 + m)%nat with (k0 + S m)%nat by lia. exact Hone. }
    destruct (pair_one l k0) eqn:E1; [| apply R].
    unfold lshift. destruct (31 - Z.of_nat k0 <? 0); [reflexivity |].
    cbn [bind]. apply R.
Qed.

(** With at most 32 pairs the loop raises nothing. *)
Lemma decodeLoop_total (l : list Z) (n : nat) :
  forall (k0 : nat) (d : necDecoder),
    (2 + 2 * (k0 + n) <= length l)%nat ->
    (k0 + n <= 32)%nat ->
    exists r, decodeLoop l (pair_indices k0 n) d = Ok r.
Proof.
  induction n as [| n IH]; intros k0 d Hlen H32; [eexists; reflexivity |].
  unfold pair_indices. cbn [seq map]. fold (pair_indices (S k0) n).
  rewrite decodeLoop_step by lia.
  destruct (pair_valid l k0); [| eexists; reflexivity].
  destruct (pair_one l k0); [| apply IH; lia].
  unfold lshift.
  destruct (31 - Z.of_nat k0 <? 0) eqn:E; [apply Z.ltb_lt in E; lia |].
  cbn [bind]. apply IH; lia.
Qed.

(** The loop only ever sets bits 0 to 31. *)
Lemma decodeLoop_necData_bound (l : list Z) (n : nat) :
  forall (k0 : nat) (d d' : necDecoder) (o : outcome),
    (2 + 2 * (k0 + n) <= length l)%nat ->
    decodeLoop l (pair_indices k0 n) d = Ok (o, d') ->
    0 <= necData d < 2 ^ 32 ->
    0 <= necData d' < 2 ^ 32.
Proof.
  induction n as [| n IH]; intros k0 d d' o Hlen H B.
  - cbn in H. injection H as _ <-. exact B.
  - unfold pair_indices in H. cbn [seq map] in H.
    fold (pair_indices (S k0) n) in H.
    rewrite decodeLoop_step in H by lia.
    destruct (pair_valid l k0); [| injection H as _ <-; exact B].
    destruct (pair_one l k0); [| apply (IH (S k0) d d' o); [lia | exact H | exact B]].
    unfold lshift in H.
    destruct (31 - Z.of_nat k0 <? 0) eqn:E; [discriminate H |].
    apply Z.ltb_ge in E. cbn [bind] in H.
    apply (IH (S k0) _ d' o) in H; [exact H | lia |].
    cbn [necData set_necData]. rewrite Z.shiftl_1_l.
    apply lor_bound; [exact B |].
    split; [apply Z.pow_nonneg; lia |].
    apply Z.pow_lt_mono_r; lia.
Qed.

Lemma decodeCommand_necData_bound (l : list Z) (d d' : necDecoder) (o : outcome) :
  decodeCommand l d = Ok (o, d') ->
  0 <= necData d < 2 ^ 32 ->
  0 <= necData d' < 2 ^ 32.
Proof.
  intros H B. destruct (Nat.lt_ge_cases (length l) 2) as [L | L].
  - rewrite decodeCommand_short in H by exact L. injection H as _ <-. exact B.
  - rewrite decodeCommand_long in H by exact L.
    destruct (negb _ && negb _).
    + injection H as _ <-. cbn. lia.
    + eapply decodeLoop_necData_bound in H;
        [exact H | apply pair_count_bound, L | cbn; lia].
Qed.

Lemma decodeRepeat_necData (d d' : necDecoder) (b : bool) :
  decodeRepeat d = Ok (b, d') ->
  necData d' = necData d \/ necData d' = 0xffffffff.
Proof.
  intros H. unfold decodeRepeat in H.
  destruct (newRepeatFlag (pulseReader d)); [| injection H as _ <-; auto].
  destruct (negb _); [| injection H as _ <-; auto].
  destruct (getitem _ 0) as [r0 |]; [| discriminate H]. cbn [bind] in H.
  destruct (match_ r0 9000); [| injection H as _ <-; auto].
  destruct (getitem _ 1) as [r1 |]; [| discriminate H]. cbn [bind] in H.
  destruct (match_ r1 2250); [| injection H as _ <-; auto].
  destruct (negb _); injection H as _ <-; auto.
Qed.

Lemma decode_necData_bound (d d' : necDecoder) (b : bool) :
  decode d = Ok (b, d') ->
  0 <= necData d < 2 ^ 32 ->
  0 <= necData d' < 2 ^ 32.
Proof.
  intros H B. unfold decode in H.
  assert (R : forall d0 d1 b0, decodeRepeat d0 = Ok (b0, d1) ->
                               0 <= necData d0 < 2 ^ 32 ->
                               0 <= necData d1 < 2 ^ 32).
  { intros d0 d1 b0 E B0. apply decodeRepeat_necData in E.
    destruct E as [-> | ->]; [exact B0 | lia]. }
  destruct (newCommandFlag (pulseReader d)); [| eapply R; eassumption].
  destruct (decodeCommand _ _) as [[o d1] |] eqn:E; [| discriminate H].
  cbn [bind] in H.
  apply decodeCommand_necData_bound in E; [| exact B].
  destruct (succeeded o); [injection H as _ <-; exact E |].
  eapply R; eassumption.
Qed.

End Exceptions.

(** X5: when the 33rd or a later data pair of a flagged burst is a
    one-pair (the pairs before it being valid, and none beyond the 32nd a
    one-pair), [decode()] raises [ValueError]: line 131 shifts by a negative
    count. *)
Theorem overlong_frame_raises (d : necDecoder) (m : nat) :
  newCommandFlag (pulseReader d) = true ->
  (2 <= length (commandBurst d))%nat ->
  match_ (nth 0 (commandBurst d) 0) 9000 = true
  \/ match_ (nth 1 (commandBurst d) 0) 4500 = true ->
  (32 <= m < pair_count (commandBurst d))%nat ->
  (forall k, (k < m)%nat -> pair_valid (commandBurst d) k = true) ->
  (forall k, (32 <= k < m)%nat -> pair_one (commandBurst d) k = false) ->
  pair_one (commandBurst d) m = true ->
  decode d = Raise ValueError.
Proof.
  intros F L M Hm V H32 Hone. unfold decode. rewrite F.
  fold (commandBurst d). fold (takeCommand d).
  rewrite decodeCommand_long by exact L.
  replace (negb _ && negb _) with false
    by (destruct M as [-> | ->]; cbn [negb andb];
        [reflexivity | symmetry; apply andb_false_r]).
  rewrite (decodeLoop_overflow (commandBurst d) m 0);
    [reflexivity | apply pair_count_bound, L | lia
    | intros; apply V; lia | intros; apply H32; lia | exact Hone | lia].
Qed.

Lemma overlong_frame_raises_witness :
  length (commandBurst overlong_pending) = 68%nat
  /\ decode overlong_pending = Raise ValueError.
Proof.
  split; [vm_compute; reflexivity |].
  apply (overlong_frame_raises overlong_pending 32).
  - vm_compute. reflexivity.
  - vm_compute. lia.
  - left. vm_compute. reflexivity.
  - vm_compute. lia.
  - intros k Hk.
    do 32 (destruct k as [| k]; [vm_compute; reflexivity |]). lia.
  - intros k Hk. lia.
  - vm_compute. reflexivity.
Defined.

(** X6: in every reachable state whose pending command buffer holds at most
    67 values, [decode()] raises nothing. *)
Theorem decode_raises_nothing (cr : bool) (d : necDecoder) :
  reachable cr d ->
  (length (commandBurst d) <= 67)%nat ->
  exists b d', decode d = Ok (b, d').
Proof.
  intros R L.
  pose proof (interleaved_repeat_length cr d (reachable_interleaved cr d R))
    as RL.
  assert (C : exists r, decodeCommand (commandBurst d) (takeCommand d) = Ok r).
  { destruct (Nat.lt_ge_cases (length (commandBurst d)) 2) as [S | S].
    - rewrite decodeCommand_short by exact S. eexists; reflexivity.
    - rewrite decodeCommand_long by exact S.
      destruct (negb _ && negb _); [eexists; reflexivity |].
      apply decodeLoop_total; [apply pair_count_bound, S |].
      unfold pair_count.
      pose proof (Nat.Div0.div_le_mono (length (commandBurst d) - 2) 65 2
                    ltac:(lia)) as Q.
      change (65 / 2)%nat with 32%nat in Q. lia. }
  destruct C as [[o d1] E]. unfold decode.
  destruct (newCommandFlag (pulseReader d)).
  - fold (commandBurst d). fold (takeCommand d). rewrite E. cbn [bind].
    destruct (succeeded o); [do 2 eexists; reflexivity |].
    destruct (decodeCommand_keeps _ _ _ _ E) as [_ [B _]].
    destruct (decodeRepeat_in_bounds d1) as [[b d'] ->];
      [rewrite B; exact RL | do 2 eexists; reflexivity].
  - destruct (decodeRepeat_in_bounds d RL) as [[b d'] ->].
    do 2 eexists; reflexivity.
Qed.

Lemma decode_raises_nothing_witness :
  exists b d', decode both_pending = Ok (b, d').
Proof.
  apply (decode_raises_nothing false both_pending).
  - apply after_reachable. vm_compute. reflexivity.
  - vm_compute. lia.
Defined.

(** X7: in every reachable state [necData] is a 32-bit unsigned value. *)
Theorem necData_is_32_bit (cr : bool) (d : necDecoder) :
  reachable cr d -> 0 <= necData d < 2 ^ 32.
Proof.
  induction 1 as [| d w _ IH W | d _ IH | d b d' _ IH E].
  - cbn. lia.
  - exact IH.
  - exact IH.
  - eapply decode_necData_bound; eassumption.
Qed.

Lemma necData_is_32_bit_witness :
  0 <= necData polled_once < 2 ^ 32.
Proof.
  apply (necData_is_32_bit false polled_once).
  apply after_reachable. vm_compute. reflexivity.
Defined.

(** X8: with no command burst flagged, a pending repeat burst whose first
    value does not match 9000 us, or whose second value does not match
    2250 us, is consumed and rejected: [decode()] returns false, [necData]
    is unchanged, the repeat buffer is empty and the command flag is down.
    A burst of one value that does not match 9000 us is rejected without its
    second value being read. *)
Theorem invalid_repeat_rejected (d : necDecoder) (a : Z) (rest : list Z) :
  newCommandFlag (pulseReader d) = false ->
  newRepeatFlag (pulseReader d) = true ->
  repeatBurst d = a :: rest ->
  match_ a 9000 = false
  \/ (exists b rest', rest = b :: rest' /\ match_ b 2250 = false) ->
  exists d',
    decode d = Ok (false, d')
    /\ necData d' = necData d
    /\ repeatBurst d' = []
    /\ newCommandFlag (pulseReader d') = false.
Proof.
  intros FC FR E H. rewrite decode_no_command by exact FC.
  unfold decodeRepeat. unfold repeatBurst in E. rewrite FR, E.
  change (getitem (a :: rest) 0) with (Ok a).
  cbn [length Nat.eqb negb bind].
  destruct (match_ a 9000) eqn:Ma.
  - destruct H as [H | [b [rest' [-> Mb]]]]; [discriminate H |].
    pose proof (getitem_nth (a :: b :: rest') 1 ltac:(cbn [length]; lia)) as G.
    change (Z.of_nat 1) with 1 in G. cbn [nth] in G. rewrite G. cbn [bind].
    rewrite Mb. eexists. split; [reflexivity |]. cbn. auto.
  - eexists. split; [reflexivity |]. cbn. auto.
Qed.

Lemma invalid_repeat_rejected_witness :
  exists d', decode bad_repeat_pending = Ok (false, d')
             /\ necData d' = necData bad_repeat_pending
             /\ repeatBurst d' = [].
Proof.
  destruct (invalid_repeat_rejected bad_repeat_pending 9000 [4500])
    as [d' [E [N [B _]]]].
  - vm_compute. reflexivity.
  - vm_compute. reflexivity.
  - vm_compute. reflexivity.
  - right. exists 4500, []. split; [reflexivity | vm_compute; reflexivity].
  - exists d'. auto.
Defined.

(** ** From the FIFO to the code *)

Section Pipeline.

Lemma set_pulseReader_same (d : necDecoder) : set_pulseReader (pulseReader d) d = d.
Proof. destruct d; reflexivity. Qed.

Lemma convertToMS_keeps (code : list Z) (p : PulseReader) :
  sm (convertToMS code p) = sm p
  /\ rawPulsesBuf (convertToMS code p) = rawPulsesBuf p
  /\ (newRepeatFlag p = true -> newRepeatFlag (convertToMS code p) = true).
Proof.
  destruct (Nat.eq_dec (length code) 2) as [E | E].
  - rewrite convertToMS_repeat by exact E. cbn. auto.
  - rewrite convertToMS_command by exact E. cbn. auto.
Qed.

Lemma convertToMS_accumulator (code acc : list Z) (p : PulseReader) :
  set_rawPulsesBuf [] (convertToMS code (set_rawPulsesBuf acc p))
  = set_rawPulsesBuf [] (convertToMS code p).
Proof.
  destruct (Nat.eq_dec (length code) 2) as [E | E].
  - rewrite !convertToMS_repeat by exact E. reflexivity.
  - rewrite !convertToMS_command by exact E. reflexivity.
Qed.

(** One measured value: its word is pushed and the next tick appends the
    tick count to the accumulator. *)
Lemma push_tick_value (t : Z) (d : necDecoder) :
  sm (pulseReader d) = [] ->
  0 <= t <= 4095 ->
  tick (push (pulseTimeout - t) d)
  = set_pulseReader
      (set_rawPulsesBuf (rawPulsesBuf (pulseReader d) ++ [t]) (pulseReader d)) d.
Proof.
  intros S T. destruct d as [nd cr [fifo rp rr rc rcb fr fc] e].
  cbn [pulseReader sm] in S. subst fifo. unfold tick, push, getPulses.
  cbn [pulseReader set_pulseReader sm set_sm app rawPulsesBuf].
  destruct (pulseTimeout - t =? TIMEOUT_WORD) eqn:E.
  - apply Z.eqb_eq in E. change pulseTimeout with 4095 in E.
    change TIMEOUT_WORD with 4294967295 in E. lia.
  - replace (pulseTimeout - (pulseTimeout - t)) with t by lia. reflexivity.
Qed.

Lemma push_tick_timeout (d : necDecoder) :
  sm (pulseReader d) = [] ->
  tick (push TIMEOUT_WORD d) = finalized [] d.
Proof.
  intros S. destruct d as [nd cr [fifo rp rr rc rcb fr fc] e].
  cbn [pulseReader sm] in S. subst fifo.
  unfold tick, push, getPulses, finalized.
  cbn [pulseReader set_pulseReader sm set_sm app rawPulsesBuf].
  change (TIMEOUT_WORD =? TIMEOUT_WORD) with true. cbn iota.
  rewrite app_nil_r. reflexivity.
Qed.

Lemma run_values (ticks : list Z) :
  forall (evs : list event) (rets : list bool) (d : necDecoder),
    sm (pulseReader d) = [] ->
    Forall (fun t => 0 <= t <= 4095) ticks ->
    run (flat_map (fun w => [Push w; Tick])
                  (map (fun t => pulseTimeout - t) ticks) ++ evs) rets d
    = run evs rets
        (set_pulseReader
           (set_rawPulsesBuf (rawPulsesBuf (pulseReader d) ++ ticks)
                             (pulseReader d)) d).
Proof.
  induction ticks as [| t ticks IH]; intros evs rets d S F.
  - cbn [map flat_map app]. rewrite app_nil_r.
    replace (set_rawPulsesBuf _ _) with (pulseReader d)
      by (destruct (pulseReader d); reflexivity).
    rewrite set_pulseReader_same. reflexivity.
  - inversion F as [| t' ticks' T F']; subst.
    cbn [map flat_map app run].
    rewrite push_tick_value by assumption.
    rewrite IH; [| cbn; exact S | exact F'].
    cbn. rewrite <- app_assoc. reflexivity.
Qed.

Lemma run_burst (ticks : list Z) (evs : list event) (rets : list bool)
  (d : necDecoder) :
  sm (pulseReader d) = [] ->
  Forall (fun t => 0 <= t <= 4095) ticks ->
  run (burst ticks ++ evs) rets d = run evs rets (finalized ticks d).
Proof.
  intros S F. unfold burst.
  rewrite flat_map_app, <- app_assoc, run_values by assumption.
  cbn [flat_map app run].
  rewrite push_tick_timeout by (cbn; exact S).
  unfold finalized. cbn. rewrite app_nil_r, convertToMS_accumulator.
  reflexivity.
Qed.

Lemma getPulses_repeat_flag (p : PulseReader) :
  newRepeatFlag p = true -> newRepeatFlag (getPulses p) = true.
Proof.
  intros H. unfold getPulses.
  destruct (sm p) as [| pulse fifo]; [exact H |].
  destruct (pulse =? TIMEOUT_WORD); [| exact H].
  cbn [newRepeatFlag set_rawPulsesBuf].
  apply convertToMS_keeps. exact H.
Qed.

Lemma decode_repeat_flag (d d' : necDecoder) (b : bool) :
  decode d = Ok (b, d') ->
  newRepeatFlag (pulseReader d') = newRepeatFlag (pulseReader d).
Proof.
  intros H. unfold decode in H.
  destruct (newCommandFlag (pulseReader d)).
  - destruct (decodeCommand _ _) as [[o d1] |] eqn:E; [| discriminate H].
    cbn [bind] in H.
    destruct (decodeCommand_keeps _ _ _ _ E) as [_ [_ [C _]]]. cbn in C.
    destruct (succeeded o).
    + injection H as _ <-. exact C.
    + destruct (decodeRepeat_post _ _ _ H) as [_ [_ [P _]]]. congruence.
  - destruct (decodeRepeat_post _ _ _ H) as [_ [_ [P _]]]. exact P.
Qed.

Lemma decode_command_buffer (d d' : necDecoder) (b : bool) :
  decode d = Ok (b, d') ->
  (newCommandFlag (pulseReader d) = false -> commandBurst d = []) ->
  commandBurst d' = [].
Proof.
  intros H I. unfold decode in H.
  destruct (newCommandFlag (pulseReader d)).
  - fold (commandBurst d) in H. fold (takeCommand d) in H.
    destruct (decodeCommand _ _) as [[o d1] |] eqn:E; [| discriminate H].
    cbn [bind] in H.
    destruct (decodeCommand_keeps _ _ _ _ E) as [A _].
    destruct (succeeded o).
    + injection H as _ <-. exact A.
    + destruct (decodeRepeat_post _ _ _ H) as [P _]. rewrite P. exact A.
  - destruct (decodeRepeat_post _ _ _ H) as [P _]. rewrite P. auto.
Qed.

Lemma getPulses_command_flag_down (p : PulseReader) :
  (newCommandFlag p = false -> rawCommandTimeBuf p = []) ->
  newCommandFlag (getPulses p) = false ->
  rawCommandTimeBuf (getPulses p) = [].
Proof.
  intros I. unfold getPulses.
  destruct (sm p) as [| pulse fifo]; [exact I |].
  destruct (pulse =? TIMEOUT_WORD); [| exact I].
  cbn [newCommandFlag rawCommandTimeBuf set_rawPulsesBuf rawPulsesBuf set_sm].
  destruct (Nat.eq_dec (length (rawPulsesBuf p)) 2) as [E | E].
  - rewrite convertToMS_repeat by exact E. exact I.
  - rewrite convertToMS_command by exact E. cbn. discriminate.
Qed.

(** What a finalization leaves in the buffers. *)
Lemma finalized_facts (ticks : list Z) (d : necDecoder) :
  rawPulsesBuf (pulseReader (finalized ticks d)) = []
  /\ sm (pulseReader (finalized ticks d)) = sm (pulseReader d)
  /\ (length (rawPulsesBuf (pulseReader d) ++ ticks) = 2%nat ->
      repeatBurst (finalized ticks d)
      = map toMS (rawPulsesBuf (pulseReader d) ++ ticks)
      /\ newRepeatFlag (pulseReader (finalized ticks d)) = true
      /\ commandBurst (finalized ticks d) = commandBurst d
      /\ newCommandFlag (pulseReader (finalized ticks d))
         = newCommandFlag (pulseReader d))
  /\ (length (rawPulsesBuf (pulseReader d) ++ ticks) <> 2%nat ->
      commandBurst (finalized ticks d)
      = commandBurst d ++ map toMS (rawPulsesBuf (pulseReader d) ++ ticks)
      /\ newCommandFlag (pulseReader (finalized ticks d)) = true
      /\ repeatBurst (finalized ticks d) = []
      /\ newRepeatFlag (pulseReader (finalized ticks d))
         = newRepeatFlag (pulseReader d)).
Proof.
  unfold finalized, repeatBurst, commandBurst.
  cbn [pulseReader set_pulseReader rawPulsesBuf set_rawPulsesBuf sm
       rawRepeatTimeBuf rawCommandTimeBuf newRepeatFlag newCommandFlag].
  split; [reflexivity |].
  split; [apply convertToMS_keeps |].
  split; intros L.
  - rewrite convertToMS_repeat by exact L. cbn. auto.
  - rewrite convertToMS_command by exact L. cbn. auto.
Qed.

End Pipeline.

(** X9: nothing ever lowers [newRepeatFlag]: once it is raised it stays
    raised through every later push, timer tick and [decode()] call, so the
    flag does not tell whether a repeat burst is pending. *)
Theorem repeat_flag_is_never_lowered (evs : list event) :
  forall (rets rets' : list bool) (d d' : necDecoder),
    run evs rets d = Ok (rets', d') ->
    newRepeatFlag (pulseReader d) = true ->
    newRepeatFlag (pulseReader d') = true.
Proof.
  induction evs as [| e evs IH]; intros rets rets' d d' H F.
  - cbn in H. injection H as _ <-. exact F.
  - destruct e as [w | |]; cbn [run] in H.
    + apply (IH _ _ _ _ H). exact F.
    + apply (IH _ _ _ _ H). cbn. apply getPulses_repeat_flag, F.
    + destruct (decode d) as [[b d1] |] eqn:E; [| discriminate H].
      cbn [bind] in H. apply (IH _ _ _ _ H).
      rewrite (decode_repeat_flag _ _ _ E). exact F.
Qed.

Lemma repeat_flag_is_never_lowered_witness :
  newRepeatFlag (pulseReader noise_after_repeat) = true
  /\ repeatBurst noise_after_repeat = [].
Proof.
  split; [| vm_compute; reflexivity].
  apply (repeat_flag_is_never_lowered ([Poll] ++ burst noise_ticks)
           [] [true] repeat_pending noise_after_repeat).
  - vm_compute. reflexivity.
  - vm_compute. reflexivity.
Defined.

(** X10: a burst delivered word by word, one timer tick per word, with the
    FIFO empty before: the tick counts are appended to the accumulator and
    the timeout word finalizes them.  Exactly two accumulated counts become
    the repeat burst (converted to microseconds) and raise the repeat flag,
    leaving the command side as it was; any other number is appended to the
    command buffer and raises the command flag.  The accumulator is empty
    afterwards. *)
Theorem burst_acquired (ticks : list Z) (evs : list event)
  (rets : list bool) (d : necDecoder) :
  sm (pulseReader d) = [] ->
  Forall (fun t => 0 <= t <= 4095) ticks ->
  run (burst ticks ++ evs) rets d = run evs rets (finalized ticks d)
  /\ rawPulsesBuf (pulseReader (finalized ticks d)) = []
  /\ sm (pulseReader (finalized ticks d)) = []
  /\ (length (rawPulsesBuf (pulseReader d) ++ ticks) = 2%nat ->
      repeatBurst (finalized ticks d)
      = map toMS (rawPulsesBuf (pulseReader d) ++ ticks)
      /\ newRepeatFlag (pulseReader (finalized ticks d)) = true
      /\ commandBurst (finalized ticks d) = commandBurst d
      /\ newCommandFlag (pulseReader (finalized ticks d))
         = newCommandFlag (pulseReader d))
  /\ (length (rawPulsesBuf (pulseReader d) ++ ticks) <> 2%nat ->
      commandBurst (finalized ticks d)
      = commandBurst d ++ map toMS (rawPulsesBuf (pulseReader d) ++ ticks)
      /\ newCommandFlag (pulseReader (finalized ticks d)) = true
      /\ repeatBurst (finalized ticks d) = []
      /\ newRepeatFlag (pulseReader (finalized ticks d))
         = newRepeatFlag (pulseReader d)).
Proof.
  intros S F. split; [apply run_burst; assumption |].
  destruct (finalized_facts ticks d) as [A [B [C D]]].
  split; [exact A |]. split; [rewrite B; exact S |].
  split; assumption.
Qed.

Lemma burst_acquired_witness :
  run (burst repeat_ticks ++ [Poll]) [] (init false)
  = run [Poll] [] (finalized repeat_ticks (init false))
  /\ repeatBurst (finalized repeat_ticks (init false)) = [9000; 2250].
Proof.
  destruct (burst_acquired repeat_ticks [Poll] [] (init false))
    as [R [_ [_ [T _]]]].
  - reflexivity.
  - repeat constructor; vm_compute; discriminate.
  - split; [exact R |].
    destruct (T eq_refl) as [B _]. rewrite B. vm_compute. reflexivity.
Defined.

(** X11: a command burst that is finalized while a repeat burst is still
    pending wipes that repeat burst: line 83 empties the repeat buffer on
    every finalization, so after a repeat frame followed by a burst of any
    other length the repeat flag is up and the repeat buffer is empty. *)
Theorem command_burst_wipes_repeat (r c : list Z) (d : necDecoder) :
  sm (pulseReader d) = [] ->
  rawPulsesBuf (pulseReader d) = [] ->
  length r = 2%nat ->
  length c <> 2%nat ->
  Forall (fun t => 0 <= t <= 4095) r ->
  Forall (fun t => 0 <= t <= 4095) c ->
  repeatBurst (after (burst r) d) = map toMS r
  /\ newRepeatFlag (pulseReader (after (burst r ++ burst c) d)) = true
  /\ repeatBurst (after (burst r ++ burst c) d) = []
  /\ commandBurst (after (burst r ++ burst c) d) = commandBurst d ++ map toMS c.
Proof.
  intros S A Lr Lc Fr Fc.
  destruct (finalized_facts r d) as [A1 [S1 [T1 _]]].
  rewrite A in T1. destruct (T1 Lr) as [B1 [F1 [C1 _]]].
  destruct (finalized_facts c (finalized r d)) as [_ [_ [_ T2]]].
  rewrite A1 in T2. destruct (T2 Lc) as [C2 [_ [B2 F2]]].
  unfold after.
  rewrite <- (app_nil_r (burst r)) at 1.
  rewrite (run_burst r [] [] d S Fr).
  rewrite (run_burst r (burst c) [] d S Fr).
  rewrite <- (app_nil_r (burst c)).
  rewrite (run_burst c [] [] (finalized r d)) by (rewrite ?S1; assumption).
  cbn [run].
  split; [exact B1 |]. split; [rewrite F2; exact F1 |].
  split; [exact B2 |]. rewrite C2, C1. reflexivity.
Qed.

Lemma command_burst_wipes_repeat_witness :
  repeatBurst (after (burst repeat_ticks) (init false)) = [9000; 2250]
  /\ repeatBurst (after (burst repeat_ticks ++ burst noise_ticks) (init false))
     = [].
Proof.
  destruct (command_burst_wipes_repeat repeat_ticks noise_ticks (init false))
    as [A [_ [B _]]].
  - reflexivity.
  - reflexivity.
  - reflexivity.
  - vm_compute. lia.
  - repeat constructor; vm_compute; discriminate.
  - repeat constructor; vm_compute; discriminate.
  - split; [rewrite A; vm_compute; reflexivity | exact B].
Defined.

(** X12: when calls of [decode()] are not preempted, a lowered command flag
    means an empty command buffer in every reachable state, and every call
    of [decode()] leaves the command buffer empty. *)
Theorem command_buffer_empty_when_flag_down (cr : bool) (d : necDecoder) :
  reachable cr d ->
  (newCommandFlag (pulseReader d) = false -> commandBurst d = [])
  /\ (forall b d', decode d = Ok (b, d') -> commandBurst d' = []).
Proof.
  intros R.
  assert (I : newCommandFlag (pulseReader d) = false -> commandBurst d = []).
  { induction R as [| d w _ IH W | d _ IH | d b d' _ IH E].
    - reflexivity.
    - exact IH.
    - apply getPulses_command_flag_down. exact IH.
    - intros _. eapply decode_command_buffer; eassumption. }
  split; [exact I |].
  intros b d' E. eapply decode_command_buffer; eassumption.
Qed.

Lemma command_buffer_empty_when_flag_down_witness :
  commandBurst polled_once = [].
Proof.
  apply (command_buffer_empty_when_flag_down false polled_once).
  - apply after_reachable. vm_compute. reflexivity.
  - vm_compute. reflexivity.
Defined.

(** ** Round trip of a code through acquisition and decoding *)

Section RoundTrip.

Variables s0 s1 m z o : Z.

Lemma frame_map (bits : list bool) :
  map toMS (frame s0 s1 m z o bits)
  = frame (toMS s0) (toMS s1) (toMS m) (toMS z) (toMS o) bits.
Proof.
  unfold frame. cbn [map]. do 2 f_equal.
  induction bits as [| b bits IH]; [reflexivity |].
  cbn [flat_map]. rewrite map_app, IH. destruct b; reflexivity.
Qed.

Lemma frame_length (bits : list bool) :
  length (frame s0 s1 m z o bits) = (2 + 2 * length bits)%nat.
Proof.
  unfold frame. cbn [length].
  assert (E : length (flat_map (fun b : bool => if b then [m; o] else [m; z])
                               bits) = (2 * length bits)%nat).
  { induction bits as [| b bits IH]; [reflexivity |].
    cbn [flat_map]. rewrite length_app, IH. destruct b; cbn [length]; lia. }
  rewrite E. lia.
Qed.

Lemma frame_range (bits : list bool) (P : Z -> Prop) :
  P s0 -> P s1 -> P m -> P z -> P o ->
  Forall P (frame s0 s1 m z o bits).
Proof.
  intros H0 H1 Hm Hz Ho. unfold frame. do 2 (constructor; [assumption |]).
  induction bits as [| b bits IH]; [constructor |].
  cbn [flat_map]. destruct b; cbn [app]; repeat (constructor; [assumption |]);
    exact IH.
Qed.

Lemma frame_pair (bits : list bool) :
  forall k : nat,
    (k < length bits)%nat ->
    pair_lo (frame s0 s1 m z o bits) k = m
    /\ pair_hi (frame s0 s1 m z o bits) k = (if nth k bits false then o else z).
Proof.
  unfold pair_lo, pair_hi, frame.
  induction bits as [| b bits IH]; intros k K; [cbn in K; lia |].
  destruct k as [| k].
  - cbn [flat_map]. destruct b; cbn; auto.
  - replace (2 + 2 * S k)%nat with (S (S (2 + 2 * k)))%nat by lia.
    replace (3 + 2 * S k)%nat with (S (S (3 + 2 * k)))%nat by lia.
    specialize (IH k ltac:(cbn in K; lia)).
    cbn [flat_map nth]. destruct b; cbn [app nth]; exact IH.
Qed.

Lemma nec_bits_nth (c : Z) (k : nat) :
  (k < 32)%nat -> nth k (nec_bits c) false = Z.testbit c (31 - Z.of_nat k).
Proof.
  intros K. unfold nec_bits.
  rewrite (nth_indep _ false
             ((fun k => Z.testbit c (31 - Z.of_nat k)) 0%nat))
    by (rewrite length_map, length_seq; exact K).
  rewrite (map_nth (fun k => Z.testbit c (31 - Z.of_nat k))).
  rewrite seq_nth by exact K. reflexivity.
Qed.

Lemma nec_bits_length (c : Z) : length (nec_bits c) = 32%nat.
Proof. unfold nec_bits. rewrite length_map, length_seq. reflexivity. Qed.

Hypothesis zero_ok : checkZero m z = true.
Hypothesis one_ok : checkOne m o = true.

Lemma frame_valid (bits : list bool) (k : nat) :
  (k < length bits)%nat ->
  pair_valid (frame s0 s1 m z o bits) k = true
  /\ pair_one (frame s0 s1 m z o bits) k = nth k bits false.
Proof.
  intros K. unfold pair_valid, pair_one.
  destruct (frame_pair bits k K) as [-> ->].
  destruct (nth k bits false).
  - rewrite one_ok. split; [apply orb_true_r | reflexivity].
  - rewrite zero_ok. split; [reflexivity |].
    apply checkZero_sum in zero_ok. apply zero_ok.
Qed.

(** The frame of a 32-bit code carries that code. *)
Lemma frame_code_of_bits (c : Z) :
  0 <= c < 2 ^ 32 ->
  frame_code (frame s0 s1 m z o (nec_bits c)) 0 32 = c.
Proof.
  intros C. apply Z.bits_inj'. intros j J.
  destruct (Z_lt_le_dec j 32) as [A | A].
  - replace j with (31 - Z.of_nat (Z.to_nat (31 - j))) at 1 by lia.
    rewrite frame_code_bit by lia.
    destruct (frame_valid (nec_bits c) (Z.to_nat (31 - j))) as [_ ->];
      [rewrite nec_bits_length; lia |].
    rewrite nec_bits_nth by lia. f_equal. lia.
  - rewrite (testbit_high c j C A).
    apply testbit_high; [| exact A].
    apply (frame_code_bound _ 32 0). lia.
Qed.

End RoundTrip.

Section FrameTaken.

Variables (cr : bool) (c s0 s1 m z o : Z).

Hypothesis code_ok : 0 <= c < 2 ^ 32.
Hypothesis start_ok :
  match_ (toMS s0) 9000 = true \/ match_ (toMS s1) 4500 = true.
Hypothesis zero_ok : checkZero (toMS m) (toMS z) = true.
Hypothesis one_ok : checkOne (toMS m) (toMS o) = true.

(** The decoder that has taken in the frame of [c], and the decoder after
    the call that decodes it. *)
Lemma frame_taken_decodes :
  decode (finalized (frame s0 s1 m z o (nec_bits c)) (init cr))
  = Ok (true,
        set_err 0
          (set_necData c
             (frameStart
                (takeCommand
                   (finalized (frame s0 s1 m z o (nec_bits c)) (init cr)))))).
Proof.
  destruct (finalized_facts (frame s0 s1 m z o (nec_bits c)) (init cr))
    as [_ [_ [_ T]]].
  destruct T as [B [F _]].
  { cbn [init pulseReader rawPulsesBuf app].
    rewrite frame_length, nec_bits_length. discriminate. }
  cbn [init pulseReader rawPulsesBuf app commandBurst rawCommandTimeBuf] in B.
  fold (commandBurst (finalized (frame s0 s1 m z o (nec_bits c)) (init cr)))
    in B.
  rewrite frame_map in B.
  set (d1 := finalized (frame s0 s1 m z o (nec_bits c)) (init cr)) in *.
  assert (L : length (commandBurst d1) = 66%nat)
    by (rewrite B, frame_length, nec_bits_length; reflexivity).
  assert (P : pair_count (commandBurst d1) = 32%nat)
    by (unfold pair_count; rewrite L; reflexivity).
  rewrite (decode_frame_ok d1 F); [| lia | rewrite B; exact start_ok | lia |].
  - rewrite P, B, frame_code_of_bits by assumption. reflexivity.
  - intros k K. rewrite P in K. rewrite B.
    apply frame_valid; [assumption | assumption |].
    rewrite nec_bits_length. exact K.
Qed.

(** A repeat frame taken in after that call is accepted by the next. *)
Lemma repeat_taken_decodes (r0 r1 : Z) :
  match_ (toMS r0) 9000 = true ->
  match_ (toMS r1) 2250 = true ->
  exists d',
    decode
      (finalized [r0; r1]
         (set_err 0
            (set_necData c
               (frameStart
                  (takeCommand
                     (finalized (frame s0 s1 m z o (nec_bits c))
                                (init cr)))))))
    = Ok (true, d')
    /\ necData d' = (if cr then c else 0xffffffff).
Proof.
  intros M0 M1.
  set (d2 := set_err 0 (set_necData c (frameStart (takeCommand
               (finalized (frame s0 s1 m z o (nec_bits c)) (init cr)))))).
  destruct (finalized_facts (frame s0 s1 m z o (nec_bits c)) (init cr))
    as [A1 _].
  destruct (finalized_facts [r0; r1] d2) as [_ [_ [T' _]]].
  assert (A2 : rawPulsesBuf (pulseReader d2) = []) by exact A1.
  rewrite A2 in T'. destruct (T' eq_refl) as [B' [F' [_ FC']]].
  cbn [app map] in B'.
  set (d3 := finalized [r0; r1] d2) in *.
  rewrite decode_no_command by (rewrite FC'; reflexivity).
  destruct (decodeRepeat_pair d3 (toMS r0) (toMS r1) F' B') as [d' [E N]].
  rewrite M0, M1 in E, N. cbn [andb] in E, N.
  exists d'. split; [exact E |].
  rewrite N. change (commandRepeat d3) with cr. change (necData d3) with c.
  reflexivity.
Qed.

End FrameTaken.

(** X13: every 32-bit code survives the whole path.  For start, mark and
    space tick counts that convert into the accepted windows, the frame of
    a code [c], delivered word by word to a fresh decoder, makes the next
    [decode()] return true with [necData = c]. *)
Theorem every_code_round_trips (cr : bool) (c s0 s1 m z o : Z) :
  0 <= c < 2 ^ 32 ->
  0 <= s0 <= 4095 -> 0 <= s1 <= 4095 ->
  0 <= m <= 4095 -> 0 <= z <= 4095 -> 0 <= o <= 4095 ->
  match_ (toMS s0) 9000 = true \/ match_ (toMS s1) 4500 = true ->
  checkZero (toMS m) (toMS z) = true ->
  checkOne (toMS m) (toMS o) = true ->
  exists d',
    run (burst (frame s0 s1 m z o (nec_bits c)) ++ [Poll]) [] (init cr)
    = Ok ([true], d')
    /\ necData d' = c.
Proof.
  intros C R0 R1 Rm Rz Ro M Z0 O1.
  rewrite run_burst;
    [| reflexivity
     | apply frame_range with (P := fun t => 0 <= t <= 4095); assumption].
  cbn [run]. rewrite frame_taken_decodes by assumption.
  cbn [bind run]. eexists. split; reflexivity.
Qed.

Lemma every_code_round_trips_witness :
  exists d',
    run (burst (frame 1152 576 72 72 215 (nec_bits 0xff9867)) ++ [Poll]) []
        (init true)
    = Ok ([true], d')
    /\ necData d' = 0xff9867.
Proof.
  apply (every_code_round_trips true 0xff9867 1152 576 72 72 215);
    try lia; try (vm_compute; reflexivity).
  left. vm_compute. reflexivity.
Defined.

(** X14: a held key.  After the frame of a code [c] has been decoded, a
    repeat frame (two tick counts that convert into the windows of 9000 and
    2250 us) makes the next [decode()] return true again; [necData] is still
    [c] when the decoder was built with [commandRepeat=True], and
    0xFFFFFFFF when it was built with [commandRepeat=False]. *)
Theorem held_key_repeats (cr : bool) (c s0 s1 m z o r0 r1 : Z) :
  0 <= c < 2 ^ 32 ->
  0 <= s0 <= 4095 -> 0 <= s1 <= 4095 ->
  0 <= m <= 4095 -> 0 <= z <= 4095 -> 0 <= o <= 4095 ->
  0 <= r0 <= 4095 -> 0 <= r1 <= 4095 ->
  match_ (toMS s0) 9000 = true \/ match_ (toMS s1) 4500 = true ->
  checkZero (toMS m) (toMS z) = true ->
  checkOne (toMS m) (toMS o) = true ->
  match_ (toMS r0) 9000 = true ->
  match_ (toMS r1) 2250 = true ->
  exists d',
    run (burst (frame s0 s1 m z o (nec_bits c)) ++ [Poll]
         ++ burst [r0; r1] ++ [Poll]) [] (init cr)
    = Ok ([true; true], d')
    /\ necData d' = (if cr then c else 0xffffffff).
Proof.
  intros C R0 R1 Rm Rz Ro Q0 Q1 M Z0 O1 M0 M1.
  rewrite run_burst;
    [| reflexivity
     | apply frame_range with (P := fun t => 0 <= t <= 4095); assumption].
  cbn [app run]. rewrite frame_taken_decodes by assumption.
  cbn [bind].
  rewrite run_burst;
    [| exact (proj1 (proj2 (finalized_facts
                             (frame s0 s1 m z o (nec_bits c)) (init cr))))
     | repeat constructor; lia].
  cbn [run].
  destruct (repeat_taken_decodes cr c s0 s1 m z o r0 r1 M0 M1)
    as [d' [E N]].
  rewrite E. cbn [bind run]. exists d'. split; [reflexivity | exact N].
Qed.

Lemma held_key_repeats_witness :
  exists d',
    run (burst (frame 1152 576 72 72 215 (nec_bits 0xff9867)) ++ [Poll]
         ++ burst [1152; 288] ++ [Poll]) [] (init true)
    = Ok ([true; true], d')
    /\ necData d' = 0xff9867.
Proof.
  apply (held_key_repeats true 0xff9867 1152 576 72 72 215 1152 288);
    try lia; try (vm_compute; reflexivity).
  left. vm_compute. reflexivity.
Defined.

(** X15: float rounding never shows.  For every tick count of the 12-bit
    counters, [int(i * factor)] computed in IEEE 754 single precision (the
    floats of MicroPython on the RP2040) and in double precision (CPython)
    is the exact quotient [toMS i], and [match] on the converted value
    against each of 560, 1680, 9000, 4500 and 2250 gives in both precisions
    the result of the exact comparison. *)
Theorem float_rounding_never_shows (i e : Z) :
  0 <= i < 4096 ->
  In e Ieee.expected ->
  (Ieee.toMSF 24 128 i = toMS i
   /\ Ieee.matchF 24 128 (Ieee.of_int 24 128 (toMS i)) (Ieee.of_int 24 128 e)
      = match_ (toMS i) e)
  /\ (Ieee.toMSF 53 1024 i = toMS i
      /\ Ieee.matchF 53 1024 (Ieee.of_int 53 1024 (toMS i))
                     (Ieee.of_int 53 1024 e)
         = match_ (toMS i) e).
Proof. exact (ieee_agrees i e). Qed.

Lemma float_rounding_never_shows_witness :
  Ieee.toMSF 24 128 1152 = 9000
  /\ Ieee.matchF 24 128 (Ieee.of_int 24 128 (toMS 1152))
                 (Ieee.of_int 24 128 9000) = true.
Proof.
  destruct (float_rounding_never_shows 1152 9000) as [[A B] _].
  - lia.
  - unfold Ieee.expected. cbn [In]. auto.
  - split; [rewrite A; reflexivity | rewrite B; vm_compute; reflexivity].
Defined.

(** * The PIO program *)

Section PioProgram.

Import Pio.



Lemma cycles_app (t1 t2 : list bool) (st : machine * list Z) :
  cycles (t1 ++ t2) st = cycles t2 (cycles t1 st).
Proof. unfold cycles. apply fold_left_app. Qed.

Lemma cycles_cons (p : bool) (t : list bool) (st : machine * list Z) :
  cycles (p :: t) st = cycles t (cycle p st).
Proof. reflexivity. Qed.

(** While the pin is low, [while_low] takes one count every two cycles. *)
Lemma low_loop (a : nat) :
  forall (xv yv o i : Z) (fifo : list Z),
    Z.of_nat a <= xv <= 4095 ->
    cycles (repeat false (2 * a)) (mkMachine while_low xv yv o i, fifo)
    = (mkMachine while_low (xv - Z.of_nat a) yv o i, fifo).
Proof.
  induction a as [| a IH]; intros xv yv o i fifo H.
  - cbn [repeat Nat.mul cycles fold_left]. rewrite Z.sub_0_r. reflexivity.
  - replace (2 * S a)%nat with (S (S (2 * a))) by lia.
    cbn [repeat]. rewrite !cycles_cons.
    replace (cycle false (cycle false (mkMachine while_low xv yv o i, fifo)))
      with (mkMachine while_low (xv - 1) yv o i, fifo).
    + rewrite IH by lia. do 2 f_equal. lia.
    + pio_exec.
      destruct (xv =? 0) eqn:E; [apply Z.eqb_eq in E; lia |].
      unfold word. rewrite Z.mod_small by lia. reflexivity.
Qed.

(** While the pin is high, [while_high] takes one count every two cycles. *)
Lemma high_loop (b : nat) :
  forall (xv yv o i : Z) (fifo : list Z),
    Z.of_nat b <= yv <= 4095 ->
    cycles (repeat true (2 * b)) (mkMachine while_high xv yv o i, fifo)
    = (mkMachine while_high xv (yv - Z.of_nat b) o i, fifo).
Proof.
  induction b as [| b IH]; intros xv yv o i fifo H.
  - cbn [repeat Nat.mul cycles fold_left]. rewrite Z.sub_0_r. reflexivity.
  - replace (2 * S b)%nat with (S (S (2 * b))) by lia.
    cbn [repeat]. rewrite !cycles_cons.
    replace (cycle true (cycle true (mkMachine while_high xv yv o i, fifo)))
      with (mkMachine while_high xv (yv - 1) o i, fifo).
    + rewrite IH by lia. do 2 f_equal. lia.
    + pio_exec.
      destruct (yv =? 0) eqn:E; [apply Z.eqb_eq in E; lia |].
      unfold word. rewrite Z.mod_small by lia. reflexivity.
Qed.

Lemma push_at (a : nat) (p : bool) (xv yv o i : Z) (fifo : list Z) :
  nth_error pulses a = Some PushIsr ->
  (length fifo < FIFO_DEPTH)%nat ->
  cycle p (mkMachine a xv yv o i, fifo)
  = (mkMachine (next a) xv yv o 0, fifo ++ [i]).
Proof.
  intros H L. unfold cycle. cbn [fst snd pc]. rewrite H.
  cbn [exec pc scratch_x scratch_y osr isr].
  apply Nat.ltb_lt in L. rewrite L. reflexivity.
Qed.

Lemma reach_write (p1 p2 : bool) (xv yv o i : Z) (fifo : list Z) :
  cycles [false; p1; p2] (mkMachine while_high xv yv o i, fifo)
  = (mkMachine 13 xv yv o xv, fifo).
Proof. reflexivity. Qed.

Lemma second_word (p : bool) (xv yv o i : Z) (fifo : list Z) :
  cycle p (mkMachine 14 xv yv o i, fifo) = (mkMachine 15 xv yv o yv, fifo).
Proof. reflexivity. Qed.

Lemma reload (a : nat) (p1 p2 p3 p4 : bool) (xv yv o i : Z) (fifo : list Z) :
  a = 16%nat \/ a = 19%nat ->
  cycles [p1; p2; p3; p4] (mkMachine a xv yv o i, fifo)
  = (mkMachine wait_low 4095 4095 0xfffff000 i, fifo).
Proof. intros [-> | ->]; reflexivity. Qed.

Lemma reach_timeout (a : nat) (p1 p2 : bool) (xv yv o i : Z) (fifo : list Z) :
  a = 7%nat \/ a = 11%nat ->
  cycles [p1; p2] (mkMachine a xv yv o i, fifo)
  = (mkMachine 18 xv yv o TIMEOUT_WORD, fifo).
Proof. intros [-> | ->]; reflexivity. Qed.

Lemma cycles_one (p : bool) (t : list bool) (st : machine * list Z) :
  cycles ([p] ++ t) st = cycles t (cycle p st).
Proof. reflexivity. Qed.

(** The pin falls in [while_high]: both counters are written and reloaded,
    in ten cycles. *)
Lemma write_words (xv yv o i : Z) (fifo : list Z) (t : list bool) :
  (length fifo <= 2)%nat ->
  length t = 9%nat ->
  cycles (false :: t) (mkMachine while_high xv yv o i, fifo)
  = (pio_ready, fifo ++ [xv; yv]).
Proof.
  intros L T.
  do 9 (destruct t as [| ? t]; [discriminate T |]).
  destruct t; [| discriminate T].
  change (false :: b :: b0 :: b1 :: b2 :: b3 :: b4 :: b5 :: b6 :: [b7])
    with ([false; b; b0] ++ [b1] ++ [b2] ++ [b3] ++ [b4; b5; b6; b7]).
  rewrite cycles_app, reach_write.
  rewrite cycles_one, (push_at 13) by (unfold FIFO_DEPTH; auto; lia).
  change (next 13) with 14%nat.
  rewrite cycles_one, second_word.
  rewrite cycles_one, (push_at 15)
    by (rewrite ?length_app; cbn [length]; unfold FIFO_DEPTH; auto; lia).
  change (next 15) with 16%nat.
  rewrite (reload 16) by auto. rewrite <- app_assoc. reflexivity.
Qed.

(** A counter has run out: the timeout word is written and the counters
    are reloaded, in seven cycles. *)
Lemma write_timeout (a : nat) (xv yv o i : Z) (fifo : list Z) (t : list bool) :
  a = 7%nat \/ a = 11%nat ->
  (length fifo <= 3)%nat ->
  length t = 7%nat ->
  cycles t (mkMachine a xv yv o i, fifo) = (pio_ready, fifo ++ [TIMEOUT_WORD]).
Proof.
  intros A L T.
  do 7 (destruct t as [| ? t]; [discriminate T |]).
  destruct t; [| discriminate T].
  change [b; b0; b1; b2; b3; b4; b5]
    with ([b; b0] ++ [b1] ++ [b2; b3; b4; b5]).
  rewrite cycles_app, (reach_timeout a) by exact A.
  rewrite cycles_one, (push_at 18) by (unfold FIFO_DEPTH; auto; lia).
  change (next 18) with 19%nat.
  rewrite (reload 19) by auto. reflexivity.
Qed.

Lemma enter_low (xv yv o i : Z) (fifo : list Z) :
  cycles [false; false] (mkMachine wait_low xv yv o i, fifo)
  = (mkMachine while_low xv yv o i, fifo).
Proof. reflexivity. Qed.

Lemma idle_high (n : nat) (xv yv o i : Z) (fifo : list Z) :
  cycles (repeat true n) (mkMachine wait_low xv yv o i, fifo)
  = (mkMachine wait_low xv yv o i, fifo).
Proof.
  induction n as [| n IH]; [reflexivity |].
  cbn [repeat]. rewrite cycles_cons. exact IH.
Qed.

Lemma power_up (s : machine) (fifo : list Z) (p1 p2 p3 : bool) :
  pc s = setup ->
  cycles [p1; p2; p3] (s, fifo)
  = (mkMachine wait_low 4095 4095 0xfffff000 (isr s), fifo).
Proof.
  destruct s as [p x y o i]. cbn [pc]. intros ->. reflexivity.
Qed.

Lemma pair_cycles (a b : nat) (o i : Z) (fifo : list Z) :
  (a <= 4095)%nat -> (b <= 4095)%nat -> (length fifo <= 2)%nat ->
  cycles (pulse_pair a b) (mkMachine wait_low 4095 4095 o i, fifo)
  = (pio_ready, fifo ++ [4095 - Z.of_nat a; 4095 - Z.of_nat b]).
Proof.
  intros A B L. unfold pulse_pair.
  change (2 + 2 * a)%nat with (S (S (2 * a))).
  change (1 + 2 * b)%nat with (S (2 * b)).
  cbn [repeat app]. rewrite !cycles_cons.
  change (cycle false (cycle false (mkMachine wait_low 4095 4095 o i, fifo)))
    with (mkMachine while_low 4095 4095 o i, fifo).
  rewrite cycles_app, low_loop by lia.
  rewrite cycles_cons.
  change (cycle true (mkMachine while_low (4095 - Z.of_nat a) 4095 o i, fifo))
    with (mkMachine while_high (4095 - Z.of_nat a) 4095 o i, fifo).
  rewrite cycles_app, high_loop by lia.
  apply (write_words _ _ _ _ _ (repeat false 9)); [exact L | reflexivity].
Qed.

Lemma high_runs_out (xv o i : Z) (fifo : list Z) (t : list bool) :
  (length fifo <= 3)%nat ->
  length t = 7%nat ->
  cycles (repeat true (2 * 4096) ++ t) (mkMachine while_high xv 4095 o i, fifo)
  = (pio_ready, fifo ++ [TIMEOUT_WORD]).
Proof.
  intros L T.
  change (2 * 4096)%nat with (2 * 4095 + 2)%nat.
  rewrite repeat_app, <- app_assoc, cycles_app, high_loop by lia.
  cbn [repeat app]. rewrite !cycles_cons.
  change (cycle true
            (cycle true
               (mkMachine while_high xv (4095 - Z.of_nat 4095) o i, fifo)))
    with (mkMachine 11 xv (word (-1)) o i, fifo).
  apply (write_timeout 11); auto.
Qed.

Lemma low_runs_out (o i : Z) (fifo : list Z) (t : list bool) :
  (length fifo <= 3)%nat ->
  length t = 7%nat ->
  cycles (repeat false (2 + 2 * 4096) ++ t)
         (mkMachine wait_low 4095 4095 o i, fifo)
  = (pio_ready, fifo ++ [TIMEOUT_WORD]).
Proof.
  intros L T.
  change (2 + 2 * 4096)%nat with (2 + (2 * 4095 + 2))%nat.
  rewrite !repeat_app, <- !app_assoc, cycles_app, enter_low.
  rewrite cycles_app, low_loop by lia.
  cbn [repeat app]. rewrite !cycles_cons.
  change (cycle false
            (cycle false
               (mkMachine while_low (4095 - Z.of_nat 4095) 4095 o i, fifo)))
    with (mkMachine 7 (word (-1)) 4095 o i, fifo).
  apply (write_timeout 7); auto.
Qed.

Lemma end_cycles (a : nat) (o i : Z) (fifo : list Z) :
  (a <= 4095)%nat -> (length fifo <= 3)%nat ->
  cycles (idle_end a) (mkMachine wait_low 4095 4095 o i, fifo)
  = (pio_ready, fifo ++ [TIMEOUT_WORD]).
Proof.
  intros A L. unfold idle_end.
  change (2 + 2 * a)%nat with (S (S (2 * a))).
  change (1 + 2 * 4096)%nat with (S (2 * 4096)).
  cbn [repeat app]. rewrite !cycles_cons.
  change (cycle false (cycle false (mkMachine wait_low 4095 4095 o i, fifo)))
    with (mkMachine while_low 4095 4095 o i, fifo).
  rewrite cycles_app, low_loop by lia.
  rewrite cycles_cons.
  change (cycle true (mkMachine while_low (4095 - Z.of_nat a) 4095 o i, fifo))
    with (mkMachine while_high (4095 - Z.of_nat a) 4095 o i, fifo).
  apply high_runs_out; [exact L | reflexivity].
Qed.

End PioProgram.

(** * From the pin to the code *)

Section Board.

Import Pio.


Lemma with_fifo_twice (f g : list Z) (d : necDecoder) :
  with_fifo g (with_fifo f d) = with_fifo g d.
Proof. reflexivity. Qed.

Lemma with_fifo_same (d : necDecoder) :
  with_fifo (sm (pulseReader d)) d = d.
Proof. destruct d as [nd cr [fifo rp rr rc rcb fr fc] e]. reflexivity. Qed.

Lemma board_cycles (trace : list bool) :
  forall (evs : list board_event) (rets : list bool) (s : machine)
         (d : necDecoder),
    board_run (map Cycle trace ++ evs) rets (mkBoard s d)
    = board_run evs rets
        (mkBoard (fst (cycles trace (s, sm (pulseReader d))))
                 (with_fifo (snd (cycles trace (s, sm (pulseReader d)))) d)).
Proof.
  induction trace as [| p trace IH]; intros evs rets s d.
  - cbn [map app cycles fold_left fst snd]. rewrite with_fifo_same.
    reflexivity.
  - cbn [map app board_run]. unfold board_cycle.
    cbn [pio decoder]. unfold fifo_of. cbn [decoder].
    rewrite IH, cycles_cons. cbn [with_fifo pulseReader set_pulseReader sm set_sm].
    destruct (cycle p (s, sm (pulseReader d))) as [s1 f1]. reflexivity.
Qed.

Lemma accumulated_nil (d : necDecoder) : accumulated [] d = d.
Proof.
  destruct d as [nd cr [fifo rp rr rc rcb fr fc] e].
  unfold accumulated. cbn. rewrite app_nil_r. reflexivity.
Qed.

Lemma accumulated_app (l1 l2 : list Z) (d : necDecoder) :
  accumulated l2 (accumulated l1 d) = accumulated (l1 ++ l2) d.
Proof. unfold accumulated. cbn. rewrite app_assoc. reflexivity. Qed.

Lemma finalized_accumulated (ticks : list Z) (d : necDecoder) :
  finalized [] (accumulated ticks d) = finalized ticks d.
Proof.
  unfold finalized, accumulated. cbn. rewrite app_nil_r.
  rewrite convertToMS_accumulator. reflexivity.
Qed.

(** The timer takes the two words of a pair. *)
Lemma two_ticks (a b : Z) (d : necDecoder) :
  sm (pulseReader d) = [] ->
  0 <= a <= 4095 -> 0 <= b <= 4095 ->
  tick (tick (with_fifo [4095 - a; 4095 - b] d)) = accumulated [a; b] d.
Proof.
  intros S A B. destruct d as [nd cr [fifo rp rr rc rcb fr fc] e].
  cbn [pulseReader sm] in S. subst fifo.
  unfold tick, with_fifo, getPulses, accumulated.
  cbn [pulseReader set_pulseReader sm set_sm rawPulsesBuf set_rawPulsesBuf].
  destruct (4095 - a =? TIMEOUT_WORD) eqn:E1;
    [apply Z.eqb_eq in E1; change TIMEOUT_WORD with 4294967295 in E1; lia |].
  cbn [pulseReader set_pulseReader sm set_sm rawPulsesBuf set_rawPulsesBuf].
  destruct (4095 - b =? TIMEOUT_WORD) eqn:E2;
    [apply Z.eqb_eq in E2; change TIMEOUT_WORD with 4294967295 in E2; lia |].
  change pulseTimeout with 4095.
  replace (4095 - (4095 - a)) with a by lia.
  replace (4095 - (4095 - b)) with b by lia.
  rewrite <- app_assoc. reflexivity.
Qed.

(** The timer takes the timeout word. *)
Lemma timeout_tick (d : necDecoder) :
  sm (pulseReader d) = [] ->
  tick (with_fifo [TIMEOUT_WORD] d) = finalized [] d.
Proof.
  intros S. rewrite <- (push_tick_timeout d S).
  destruct d as [nd cr [fifo rp rr rc rcb fr fc] e].
  cbn [pulseReader sm] in S. subst fifo. reflexivity.
Qed.

Lemma board_pairs (pairs : list (nat * nat)) :
  forall (o i : Z) (d : necDecoder) (evs : list board_event)
         (rets : list bool),
    sm (pulseReader d) = [] ->
    Forall (fun p => (fst p <= 4095)%nat /\ (snd p <= 4095)%nat) pairs ->
    exists o' i',
      board_run
        (flat_map (fun p => map Cycle (pulse_pair (fst p) (snd p))
                            ++ [Timer; Timer]) pairs ++ evs)
        rets (mkBoard (mkMachine wait_low 4095 4095 o i) d)
      = board_run evs rets
          (mkBoard (mkMachine wait_low 4095 4095 o' i')
                   (accumulated (counts_of pairs) d)).
Proof.
  induction pairs as [| [a b] pairs IH]; intros o i d evs rets S F.
  - exists o, i. cbn [flat_map app counts_of]. rewrite accumulated_nil.
    reflexivity.
  - inversion F as [| p ps [A B] F']; subst. cbn [fst snd] in A, B.
    cbn [flat_map fst snd]. rewrite <- !app_assoc.
    rewrite board_cycles, S, pair_cycles by (cbn [length]; lia).
    cbn [fst snd app board_run pio decoder].
    rewrite two_ticks by (try exact S; lia).
    destruct (IH 0xfffff000 0 (accumulated [Z.of_nat a; Z.of_nat b] d)
                 evs rets S F') as [o' [i' E]].
    exists o', i'. unfold pio_ready. rewrite E, accumulated_app.
    reflexivity.
Qed.

(** A whole burst on the pin leaves the decoder as the burst of its counts
    does. *)
Lemma board_burst (pairs : list (nat * nat)) (last : nat) (o i : Z)
  (d : necDecoder) (evs : list board_event) (rets : list bool) :
  sm (pulseReader d) = [] ->
  Forall (fun p => (fst p <= 4095)%nat /\ (snd p <= 4095)%nat) pairs ->
  (last <= 4095)%nat ->
  board_run (burst_on_pin pairs last ++ evs) rets
            (mkBoard (mkMachine wait_low 4095 4095 o i) d)
  = board_run evs rets (mkBoard pio_ready (finalized (counts_of pairs) d)).
Proof.
  intros S F L. unfold burst_on_pin. rewrite <- !app_assoc.
  destruct (board_pairs pairs o i d
              (map Cycle (idle_end last) ++ [Timer] ++ evs) rets S F)
    as [o' [i' ->]].
  rewrite board_cycles.
  replace (sm (pulseReader (accumulated (counts_of pairs) d))) with (@nil Z)
    by (symmetry; exact S).
  rewrite end_cycles by (cbn [length]; lia).
  cbn [fst snd app board_run pio decoder].
  rewrite timeout_tick by exact S.
  rewrite finalized_accumulated. reflexivity.
Qed.

Lemma board_power_up (n : nat) (s : machine) (d : necDecoder)
  (evs : list board_event) (rets : list bool) :
  pc s = setup ->
  (3 <= n)%nat ->
  board_run (map Cycle (repeat true n) ++ evs) rets (mkBoard s d)
  = board_run evs rets
      (mkBoard (mkMachine wait_low 4095 4095 0xfffff000 (isr s)) d).
Proof.
  intros P N. replace n with (3 + (n - 3))%nat by lia.
  rewrite repeat_app, board_cycles, cycles_app.
  cbn [repeat]. rewrite power_up by exact P.
  rewrite idle_high. cbn [fst snd]. rewrite with_fifo_same. reflexivity.
Qed.

Lemma board_idle (n : nat) (d : necDecoder)
  (evs : list board_event) (rets : list bool) :
  board_run (map Cycle (repeat true n) ++ evs) rets (mkBoard pio_ready d)
  = board_run evs rets (mkBoard pio_ready d).
Proof.
  rewrite board_cycles. unfold pio_ready. rewrite idle_high.
  cbn [fst snd]. rewrite with_fifo_same. reflexivity.
Qed.

Lemma counts_of_frame (s0 s1 m z o : nat) (bits : list bool) :
  counts_of (frame_pairs s0 s1 m z o bits)
  = frame (Z.of_nat s0) (Z.of_nat s1) (Z.of_nat m) (Z.of_nat z) (Z.of_nat o)
          bits.
Proof.
  unfold counts_of, frame_pairs, frame. cbn [flat_map fst snd app].
  do 2 f_equal.
  induction bits as [| b bits IH]; [reflexivity |].
  cbn [map flat_map]. rewrite IH. destruct b; reflexivity.
Qed.

Lemma frame_pairs_bounded (s0 s1 m z o : nat) (bits : list bool) :
  (s0 <= 4095)%nat -> (s1 <= 4095)%nat -> (m <= 4095)%nat ->
  (z <= 4095)%nat -> (o <= 4095)%nat ->
  Forall (fun p => (fst p <= 4095)%nat /\ (snd p <= 4095)%nat)
         (frame_pairs s0 s1 m z o bits).
Proof.
  intros H0 H1 Hm Hz Ho. unfold frame_pairs.
  constructor; [cbn; auto |].
  induction bits as [| b bits IH]; [constructor |].
  cbn [map]. constructor; [destruct b; cbn; auto | exact IH].
Qed.






End Board.



(** X17: one pulse pair.  From [wait_low] with reloaded counters, a pin
    that is low for 2 + 2a cycles and then high for 1 + 2b cycles (a and b
    at most 4095) makes the program push the two words 4095 - a and
    4095 - b and return to [wait_low] ten cycles after the pin fell again:
    one count stands for two clock cycles.  The next two timer ticks append
    the counts a and b to the accumulator. *)
Theorem pulse_pair_measured (a b : nat) (o i : Z) (d : necDecoder)
  (evs : list board_event) (rets : list bool) :
  (a <= 4095)%nat -> (b <= 4095)%nat ->
  sm (pulseReader d) = [] ->
  Pio.cycles (pulse_pair a b)
             (Pio.mkMachine Pio.wait_low 4095 4095 o i, [])
  = (pio_ready, [4095 - Z.of_nat a; 4095 - Z.of_nat b])
  /\ board_run (map Cycle (pulse_pair a b) ++ [Timer; Timer] ++ evs) rets
               (mkBoard (Pio.mkMachine Pio.wait_low 4095 4095 o i) d)
     = board_run evs rets
                 (mkBoard pio_ready
                          (accumulated [Z.of_nat a; Z.of_nat b] d)).
Proof.
  intros A B S.
  assert (E : Pio.cycles (pulse_pair a b)
                (Pio.mkMachine Pio.wait_low 4095 4095 o i, [])
              = (pio_ready, [4095 - Z.of_nat a; 4095 - Z.of_nat b]))
    by (apply (pair_cycles a b o i []); cbn [length]; lia).
  split; [exact E |].
  rewrite board_cycles, S, E.
  cbn [fst snd app board_run pio decoder].
  rewrite two_ticks by (try exact S; lia). reflexivity.
Qed.

Lemma pulse_pair_measured_witness :
  Pio.cycles (pulse_pair 1152 288)
             (Pio.mkMachine Pio.wait_low 4095 4095 0 0, [])
  = (pio_ready, [4095 - Z.of_nat 1152; 4095 - Z.of_nat 288]).
Proof.
  exact (proj1 (pulse_pair_measured 1152 288 0 0 (init false) [] []
                  ltac:(lia) ltac:(lia) eq_refl)).
Defined.

(** X18: a counter that runs out.  When the pin stays high for 4096 counts
    after a mark, or low for 4096 counts, the program pushes the timeout
    word alone and returns to [wait_low]: the count of the mark that came
    before the long high phase is not written. *)
Theorem counter_runs_out (a : nat) (o i : Z) (fifo : list Z) (t : list bool) :
  (a <= 4095)%nat ->
  (length fifo <= 3)%nat ->
  length t = 7%nat ->
  Pio.cycles (idle_end a) (Pio.mkMachine Pio.wait_low 4095 4095 o i, fifo)
  = (pio_ready, fifo ++ [TIMEOUT_WORD])
  /\ Pio.cycles (repeat false (2 + 2 * 4096) ++ t)
                (Pio.mkMachine Pio.wait_low 4095 4095 o i, fifo)
     = (pio_ready, fifo ++ [TIMEOUT_WORD]).
Proof.
  intros A L T. split.
  - apply end_cycles; assumption.
  - apply low_runs_out; assumption.
Qed.

Lemma counter_runs_out_witness :
  Pio.cycles (idle_end 72) (Pio.mkMachine Pio.wait_low 4095 4095 0 0, [])
  = (pio_ready, [] ++ [TIMEOUT_WORD]).
Proof.
  exact (proj1 (counter_runs_out 72 0 0 [] (repeat true 7)
                  ltac:(lia) ltac:(cbn; lia) eq_refl)).
Defined.

(** X19: from the pin to the code.  After power-up and an idle pin, the
    waveform of the frame of a 32-bit code [c] (pulse pairs whose counts
    convert into the accepted windows, a last mark, then an idle pin), with
    the timer taking the two words of each pair and the timeout word out of
    the FIFO, makes [decode()] return true with [necData = c]. *)
Theorem frame_on_pin_decodes (cr : bool) (c : Z) (s0 s1 m z o last n : nat)
  (s : Pio.machine) :
  Pio.pc s = Pio.setup ->
  (3 <= n)%nat ->
  0 <= c < 2 ^ 32 ->
  (s0 <= 4095)%nat -> (s1 <= 4095)%nat -> (m <= 4095)%nat ->
  (z <= 4095)%nat -> (o <= 4095)%nat -> (last <= 4095)%nat ->
  match_ (toMS (Z.of_nat s0)) 9000 = true
  \/ match_ (toMS (Z.of_nat s1)) 4500 = true ->
  checkZero (toMS (Z.of_nat m)) (toMS (Z.of_nat z)) = true ->
  checkOne (toMS (Z.of_nat m)) (toMS (Z.of_nat o)) = true ->
  exists b',
    board_run (map Cycle (repeat true n)
               ++ burst_on_pin (frame_pairs s0 s1 m z o (nec_bits c)) last
               ++ [Call])
              [] (mkBoard s (init cr))
    = Ok ([true], b')
    /\ necData (decoder b') = c.
Proof.
  intros P N C H0 H1 Hm Hz Ho Hl M Z0 O1.
  rewrite board_power_up by assumption.
  rewrite board_burst;
    [| reflexivity | apply frame_pairs_bounded; assumption | exact Hl].
  rewrite counts_of_frame. cbn [board_run decoder].
  rewrite frame_taken_decodes by assumption.
  cbn [bind board_run]. eexists. split; reflexivity.
Qed.

Lemma frame_on_pin_decodes_witness :
  exists b',
    board_run (map Cycle (repeat true 3)
               ++ burst_on_pin
                    (frame_pairs 1152 576 66 66 209 (nec_bits 0xff9867)) 66
               ++ [Call])
              [] (mkBoard (Pio.mkMachine 0 0 0 0 0) (init true))
    = Ok ([true], b')
    /\ necData (decoder b') = 0xff9867.
Proof.
  apply (frame_on_pin_decodes true 0xff9867 1152 576 66 66 209 66 3);
    try lia; try reflexivity; try (vm_compute; reflexivity).
  left. vm_compute. reflexivity.
Defined.

(** X20: a held key on the pin.  After that frame has been decoded, the
    waveform of a repeat frame (one pulse pair whose counts convert into the
    windows of 9000 and 2250 us, a last mark, an idle pin) makes the next
    [decode()] return true; [necData] is [c] with [commandRepeat=True] and
    0xFFFFFFFF with [commandRepeat=False]. *)
Theorem held_key_on_pin (cr : bool) (c : Z)
  (s0 s1 m z o last r0 r1 last' n g : nat) (s : Pio.machine) :
  Pio.pc s = Pio.setup ->
  (3 <= n)%nat ->
  0 <= c < 2 ^ 32 ->
  (s0 <= 4095)%nat -> (s1 <= 4095)%nat -> (m <= 4095)%nat ->
  (z <= 4095)%nat -> (o <= 4095)%nat -> (last <= 4095)%nat ->
  (r0 <= 4095)%nat -> (r1 <= 4095)%nat -> (last' <= 4095)%nat ->
  match_ (toMS (Z.of_nat s0)) 9000 = true
  \/ match_ (toMS (Z.of_nat s1)) 4500 = true ->
  checkZero (toMS (Z.of_nat m)) (toMS (Z.of_nat z)) = true ->
  checkOne (toMS (Z.of_nat m)) (toMS (Z.of_nat o)) = true ->
  match_ (toMS (Z.of_nat r0)) 9000 = true ->
  match_ (toMS (Z.of_nat r1)) 2250 = true ->
  exists b',
    board_run (map Cycle (repeat true n)
               ++ burst_on_pin (frame_pairs s0 s1 m z o (nec_bits c)) last
               ++ [Call]
               ++ map Cycle (repeat true g)
               ++ burst_on_pin [(r0, r1)] last'
               ++ [Call])
              [] (mkBoard s (init cr))
    = Ok ([true; true], b')
    /\ necData (decoder b') = (if cr then c else 0xffffffff).
Proof.
  intros P N C H0 H1 Hm Hz Ho Hl Q0 Q1 Ql M Z0 O1 M0 M1.
  rewrite board_power_up by assumption.
  rewrite board_burst;
    [| reflexivity | apply frame_pairs_bounded; assumption | exact Hl].
  rewrite counts_of_frame. cbn [app board_run decoder].
  rewrite frame_taken_decodes by assumption.
  cbn [bind pio]. rewrite board_idle.
  unfold pio_ready at 1.
  rewrite board_burst;
    [| exact (proj1 (proj2 (finalized_facts
                              (frame (Z.of_nat s0) (Z.of_nat s1) (Z.of_nat m)
                                     (Z.of_nat z) (Z.of_nat o) (nec_bits c))
                              (init cr))))
     | constructor; [split; assumption | constructor] | exact Ql].
  cbn [counts_of flat_map fst snd app board_run decoder].
  destruct (repeat_taken_decodes cr c (Z.of_nat s0) (Z.of_nat s1) (Z.of_nat m)
              (Z.of_nat z) (Z.of_nat o) (Z.of_nat r0) (Z.of_nat r1) M0 M1)
    as [d' [E N']].
  rewrite E. cbn [bind board_run]. eexists. split; [reflexivity | exact N'].
Qed.

Lemma held_key_on_pin_witness :
  exists b',
    board_run (map Cycle (repeat true 3)
               ++ burst_on_pin
                    (frame_pairs 1152 576 66 66 209 (nec_bits 0xff9867)) 66
               ++ [Call]
               ++ map Cycle (repeat true 100)
               ++ burst_on_pin [(1152%nat, 288%nat)] 66
               ++ [Call])
              [] (mkBoard (Pio.mkMachine 0 0 0 0 0) (init true))
    = Ok ([true; true], b')
    /\ necData (decoder b') = 0xff9867.
Proof.
  apply (held_key_on_pin true 0xff9867 1152 576 66 66 209 66 1152 288 66
                         3 100);
    try lia; try reflexivity; try (vm_compute; reflexivity).
  left. vm_compute. reflexivity.
Defined.

(** ** The FIFO between the state machine and the timer callback *)

Section Fifo.

(** A cycle appends at most one word, and what it does to the registers
    does not depend on the words that wait, as long as there is room. *)
Lemma cycle_fifo (pin : bool) (m : Pio.machine) :
  exists (m' : Pio.machine) (ws : list Z),
    forall fifo : list Z,
      (length fifo < Pio.FIFO_DEPTH)%nat ->
      Pio.cycle pin (m, fifo) = (m', fifo ++ ws).
Proof.
  unfold Pio.cycle. cbn [fst snd].
  destruct (nth_error Pio.pulses (Pio.pc m)) as [i |].
  - destruct i; cbn [Pio.exec];
      try (eexists; exists []; intros fifo L; rewrite app_nil_r; reflexivity).
    eexists. exists [Pio.isr m]. intros fifo L.
    apply Nat.ltb_lt in L. rewrite L. reflexivity.
  - exists m, []. intros fifo L. rewrite app_nil_r. reflexivity.
Qed.

(** The callback takes the first word and leaves the others. *)
Lemma tick_fifo (h : Z) (q : list Z) (d : necDecoder) :
  tick (with_fifo (h :: q) d) = with_fifo q (tick (with_fifo [h] d)).
Proof.
  destruct d as [nd cr [fifo rp rr rc rcb fr fc] e].
  unfold tick, with_fifo, getPulses.
  cbn [pulseReader set_pulseReader sm set_sm rawPulsesBuf].
  destruct (h =? TIMEOUT_WORD).
  - destruct (Nat.eq_dec (length rp) 2) as [E | E].
    + rewrite !convertToMS_repeat by exact E. reflexivity.
    + rewrite !convertToMS_command by exact E. reflexivity.
  - reflexivity.
Qed.

End Fifo.

(** X21: the FIFO decouples the two sides.  When the FIFO is neither empty
    nor full, a run of the timer callback and a cycle of the state machine
    can be exchanged: the callback takes the oldest word, the cycle appends
    at the other end, and both orders leave the same board. *)
Theorem timer_commutes_with_cycle (pin : bool) (evs : list board_event)
  (rets : list bool) (b : board) :
  fifo_of b <> [] ->
  (length (fifo_of b) < Pio.FIFO_DEPTH)%nat ->
  board_run (Timer :: Cycle pin :: evs) rets b
  = board_run (Cycle pin :: Timer :: evs) rets b.
Proof.
  intros N L. cbn [board_run]. f_equal.
  destruct b as [m d]. unfold board_cycle, fifo_of in *.
  cbn [pio decoder] in *.
  destruct (sm (pulseReader d)) as [| h q] eqn:S; [contradiction |].
  destruct (cycle_fifo pin m) as [m' [ws C]].
  assert (D : d = with_fifo (h :: q) d).
  { unfold with_fifo. rewrite <- S.
    destruct d as [nd cr [fifo rp rr rc rcb fr fc] e]. reflexivity. }
  rewrite (C (h :: q) L). cbn [fst snd].
  assert (T : sm (pulseReader (tick d)) = q).
  { rewrite D, tick_fifo. reflexivity. }
  rewrite T, (C q) by (cbn [length] in L; lia). cbn [fst snd].
  f_equal. cbn [app].
  rewrite tick_fifo. rewrite D at 1. rewrite tick_fifo.
  destruct (tick (with_fifo [h] d)) as [nd cr [fifo rp rr rc rcb fr fc] e].
  reflexivity.
Qed.

Lemma timer_commutes_with_cycle_witness :
  board_run [Timer; Cycle false] []
            (mkBoard (Pio.mkMachine 13 0 0 0 7) (with_fifo [5] (init false)))
  = board_run [Cycle false; Timer] []
              (mkBoard (Pio.mkMachine 13 0 0 0 7) (with_fifo [5] (init false))).
Proof.
  apply (timer_commutes_with_cycle false [] []
           (mkBoard (Pio.mkMachine 13 0 0 0 7) (with_fifo [5] (init false)))).
  - discriminate.
  - cbn. unfold Pio.FIFO_DEPTH. lia.
Defined.

(** * The application loop *)

Import Main.

(** ** What the loop sees of the decoder *)

Section QuietDecoder.

Lemma after_burst (ticks : list Z) (d : necDecoder) :
  sm (pulseReader d) = [] ->
  Forall (fun t => 0 <= t <= 4095) ticks ->
  after (burst ticks) d = finalized ticks d.
Proof.
  intros S F. unfold after.
  rewrite <- (app_nil_r (burst ticks)), run_burst by assumption.
  reflexivity.
Qed.

Lemma decodeRepeat_reader (d d' : necDecoder) (b : bool) :
  decodeRepeat d = Ok (b, d') ->
  sm (pulseReader d') = sm (pulseReader d)
  /\ rawPulsesBuf (pulseReader d') = rawPulsesBuf (pulseReader d).
Proof.
  intros H. unfold decodeRepeat in H.
  destruct (newRepeatFlag (pulseReader d)); [| repeat_leaf H].
  destruct (length (rawRepeatTimeBuf (pulseReader d)) =? 0)%nat;
    cbn [negb] in H; [repeat_leaf H |].
  destruct (getitem _ 0) as [r0 |]; [| discriminate H]. cbn [bind] in H.
  destruct (match_ r0 9000); [| repeat_leaf H].
  destruct (getitem _ 1) as [r1 |]; [| discriminate H]. cbn [bind] in H.
  destruct (match_ r1 2250); [| repeat_leaf H].
  destruct (commandRepeat d) eqn:C; cbn in H; rewrite C in H; cbn in H;
    repeat_leaf H.
Qed.

(** The frame of a code, received by a quiet decoder, is reported by the
    next call with that code. *)
Lemma quiet_frame (c : Z) (ticks : list Z) (d : necDecoder) :
  quiet d ->
  0 <= c < 2 ^ 32 ->
  command_frame c ticks ->
  exists d',
    decode (after (burst ticks) d) = Ok (true, d')
    /\ necData d' = c
    /\ quiet d'
    /\ commandRepeat d' = commandRepeat d.
Proof.
  intros [S [A [B F]]] C [s0 [s1 [m [z [o [-> [[R0 R1] [[Rm [Rz Ro]] [M [Z0 O1]]]]]]]]]].
  rewrite after_burst;
    [| exact S
     | apply frame_range with (P := fun t => 0 <= t <= 4095); assumption].
  set (fr := frame s0 s1 m z o (nec_bits c)).
  destruct (finalized_facts fr d) as [A1 [S1 [_ T]]].
  destruct T as [B1 [F1 _]].
  { rewrite A. cbn [app]. unfold fr.
    rewrite frame_length, nec_bits_length. discriminate. }
  rewrite A, B in B1. cbn [app] in B1. unfold fr in B1.
  rewrite frame_map in B1. fold fr in B1.
  set (d1 := finalized fr d) in *.
  assert (L : length (commandBurst d1) = 66%nat)
    by (rewrite B1, frame_length, nec_bits_length; reflexivity).
  assert (P : pair_count (commandBurst d1) = 32%nat)
    by (unfold pair_count; rewrite L; reflexivity).
  eexists. split.
  - apply (decode_frame_ok d1 F1); [lia | rewrite B1; exact M | lia |].
    intros k K. rewrite P in K. rewrite B1.
    apply frame_valid; [assumption | assumption |].
    rewrite nec_bits_length. exact K.
  - rewrite P, B1, frame_code_of_bits by assumption.
    split; [reflexivity |]. split; [| reflexivity].
    unfold quiet.
    cbn [pulseReader set_err set_necData frameStart takeCommand
         set_pulseReader sm rawPulsesBuf commandBurst rawCommandTimeBuf
         newCommandFlag set_newCommandFlag set_rawCommandTimeBuf].
    rewrite S1, A1. auto.
Qed.

(** A burst of two counts, received by a quiet decoder built with
    [commandRepeat=True]: the next call leaves [necData] alone, and it
    reports a frame when the two counts are a repeat frame. *)
Lemma quiet_pair (a b : Z) (d : necDecoder) :
  quiet d ->
  commandRepeat d = true ->
  0 <= a <= 4095 -> 0 <= b <= 4095 ->
  exists d',
    decode (after (burst [a; b]) d)
    = Ok (match_ (toMS a) 9000 && match_ (toMS b) 2250, d')
    /\ necData d' = necData d
    /\ quiet d'
    /\ commandRepeat d' = true.
Proof.
  intros [S [A [B F]]] C Ra Rb.
  rewrite after_burst;
    [| exact S | constructor; [exact Ra | constructor; [exact Rb | constructor]]].
  destruct (finalized_facts [a; b] d) as [A1 [S1 [T _]]].
  rewrite A in T. destruct (T eq_refl) as [B1 [F1 [C1 FC1]]].
  cbn [app map] in B1.
  set (d1 := finalized [a; b] d) in *.
  rewrite decode_no_command by (rewrite FC1; exact F).
  destruct (decodeRepeat_pair d1 (toMS a) (toMS b) F1 B1) as [d' [E N]].
  exists d'. split; [exact E |].
  destruct (decodeRepeat_post _ _ _ E) as [P1 [P2 [_ [P4 _]]]].
  destruct (decodeRepeat_reader _ _ _ E) as [Q1 Q2].
  change (commandRepeat d1) with (commandRepeat d) in *.
  change (necData d1) with (necData d) in *.
  rewrite C in N.
  split; [destruct (_ && _); exact N |].
  split; [| congruence].
  unfold quiet. rewrite Q1, Q2, S1, A1, P1, C1.
  repeat split; auto.
  destruct (newCommandFlag (pulseReader d')) eqn:G; [| reflexivity].
  specialize (P4 eq_refl). rewrite FC1, F in P4. discriminate P4.
Qed.

End QuietDecoder.

(** ** Statements of the loop *)

Section Statements.

Lemma andthen_eq (p q : stmt) (s : station) :
  (p ;;; q) s = (fst (q (fst (p s))), snd (p s) ++ snd (q (fst (p s)))).
Proof.
  unfold andthen. destruct (p s) as [s1 e1]. cbn [fst snd].
  destruct (q s1) as [s2 e2]. reflexivity.
Qed.

Lemma when_true (c : station -> bool) (p : stmt) (s : station) :
  c s = true -> when c p s = p s.
Proof. intros H. unfold when, ifelse. rewrite H. reflexivity. Qed.

Lemma when_false (c : station -> bool) (p : stmt) (s : station) :
  c s = false -> when c p s = (s, []).
Proof. intros H. unfold when, ifelse. rewrite H. reflexivity. Qed.

(** [Remote] writes the switches and the two angles only. *)
Lemma Remote_keeps (r : readings) (s : station) :
  ir (fst (Remote r s)) = ir s
  /\ mode (fst (Remote r s)) = mode s
  /\ modeFlag (fst (Remote r s)) = modeFlag s
  /\ warningFlag (fst (Remote r s)) = warningFlag s
  /\ start_time (fst (Remote r s)) = start_time s
  /\ stop_time (fst (Remote r s)) = stop_time s.
Proof.
  unfold Remote, when, ifelse, andthen, assign, call, pass.
  repeat (cbn [fst snd app];
          match goal with
          | |- context [if ?c then _ else _] => destruct c
          end);
    cbn; auto 10.
Qed.

(** [Remote] reads the code, the switches and the two angles only. *)
Lemma Remote_view (r : readings) (s1 s2 : station) :
  necData (ir s1) = necData (ir s2) ->
  controls s1 = controls s2 ->
  snd (Remote r s1) = snd (Remote r s2)
  /\ controls (fst (Remote r s1)) = controls (fst (Remote r s2)).
Proof.
  intros N C. unfold controls in C. injection C as C1 C2 C3 C4 C5 C6.
  destruct s1, s2. cbn [ir laserSW ledSW buzzerSW doorSW servoAngle motorAngle]
    in N, C1, C2, C3, C4, C5, C6. subst.
  unfold Remote, when, ifelse, andthen, assign, call, pass, controls.
  cbn [ir servoAngle]. rewrite N.
  repeat (cbn;
          match goal with
          | |- context [if ?c then _ else _] => destruct c
          end);
    cbn; auto.
Qed.

Lemma Remote_idle (r : readings) (s : station) :
  necData (ir s) = 0 -> Remote r s = (s, []).
Proof.
  intros N. unfold Remote, ifelse. rewrite N. reflexivity.
Qed.

Lemma Remote_up (r : readings) (s : station) :
  necData (ir s) = key_up ->
  servoAngle s <= 180 ->
  Remote r s
  = (set_servoAngle (Z.min 180 (servoAngle s + 1)) s,
     [servo_left_setDegree (Z.min 180 (servoAngle s + 1));
      servo_right_setDegree (180 - Z.min 180 (servoAngle s + 1))]).
Proof.
  intros N A. unfold Remote, ifelse at 1 2 3. rewrite N.
  change (key_up =? key_left) with false.
  change (key_up =? key_right) with false.
  change (key_up =? key_up) with true. cbn iota.
  unfold when, ifelse, andthen, assign, call, pass.
  destruct (servoAngle s <? 180) eqn:E.
  - apply Z.ltb_lt in E. rewrite Z.min_r by lia. reflexivity.
  - apply Z.ltb_ge in E. rewrite Z.min_l by lia.
    assert (A' : servoAngle s = 180) by lia.
    destruct s. cbn [servoAngle] in A'. subst. reflexivity.
Qed.

Lemma debounced_range (k : Z) : debounced k = true -> 0 <= k < 2 ^ 32.
Proof.
  unfold debounced. rewrite !orb_true_iff, !Z.eqb_eq.
  intros H. decompose [or] H; subst k; vm_compute; split; congruence.
Qed.

(** Lines 146-159 in remote mode, for a code that is not discarded. *)
Lemma dispatch_remote (r : readings) (s : station) :
  mode s = 0 -> modeFlag s = 0 ->
  necData (ir s) <> key_ok ->
  (ticks_diff (stop_time s) (start_time s) <? 200)
  && debounced (necData (ir s)) = false ->
  dispatch r s
  = (set_start_time (ticks_159 r) (fst (Remote r s)), snd (Remote r s)).
Proof.
  intros M F K D. unfold dispatch.
  rewrite andthen_eq, when_false by exact D. cbn [fst snd app].
  rewrite andthen_eq, when_false by (apply Z.eqb_neq; exact K).
  cbn [fst snd app].
  rewrite andthen_eq, when_true by (rewrite M; reflexivity).
  rewrite andthen_eq, when_false by (rewrite F; reflexivity).
  cbn [fst snd app assign]. rewrite app_nil_r. reflexivity.
Qed.

(** Lines 146-159 in remote mode, for a code that is discarded. *)
Lemma dispatch_discarded (r : readings) (s : station) :
  mode s = 0 -> modeFlag s = 0 ->
  (ticks_diff (stop_time s) (start_time s) <? 200)
  && debounced (necData (ir s)) = true ->
  dispatch r s
  = (set_start_time (ticks_159 r) (set_ir (set_necData 0 (ir s)) s), []).
Proof.
  intros M F D. unfold dispatch.
  rewrite andthen_eq, when_true by exact D. cbn [fst snd app assign].
  rewrite andthen_eq, when_false by reflexivity.
  cbn [fst snd app].
  rewrite andthen_eq, when_true by (cbn; rewrite M; reflexivity).
  rewrite andthen_eq, when_false by (cbn; rewrite F; reflexivity).
  cbn [fst snd app].
  rewrite Remote_idle by reflexivity. reflexivity.
Qed.

Lemma automatic_off (r : readings) (s : station) :
  mode s = 0 -> automatic r s = (s, []).
Proof.
  intros M. unfold automatic. apply when_false. rewrite M. reflexivity.
Qed.

Lemma iteration_eq (r : readings) (s : station) (b : bool) (d : necDecoder) :
  decode (ir s) = Ok (b, d) ->
  iteration r s
  = Ok ((when (fun _ => b) (dispatch r) ;;; automatic r)
          (set_ir d (set_stop_time (ticks_144 r) s))).
Proof.
  intros E. unfold iteration. cbn [ir set_stop_time]. rewrite E. reflexivity.
Qed.

End Statements.

(** ** Iterations in remote mode *)

Section RemoteMode.

Lemma iteration_kept (r : readings) (s : station) (d : necDecoder) :
  decode (ir s) = Ok (true, d) ->
  mode s = 0 -> modeFlag s = 0 ->
  necData d <> key_ok ->
  (ticks_diff (ticks_144 r) (start_time s) <? 200) && debounced (necData d)
  = false ->
  iteration r s
  = Ok (set_start_time (ticks_159 r)
          (fst (Remote r (set_ir d (set_stop_time (ticks_144 r) s)))),
        snd (Remote r (set_ir d (set_stop_time (ticks_144 r) s)))).
Proof.
  intros E M F K D. rewrite (iteration_eq r s true d E).
  set (s0 := set_ir d (set_stop_time (ticks_144 r) s)).
  rewrite andthen_eq, when_true by reflexivity.
  rewrite (dispatch_remote r s0) by assumption.
  cbn [fst snd].
  destruct (Remote_keeps r s0) as [_ [M' _]].
  rewrite automatic_off by (cbn [mode set_start_time]; rewrite M'; exact M).
  cbn [fst snd]. rewrite app_nil_r. reflexivity.
Qed.

Lemma iteration_discarded (r : readings) (s : station) (d : necDecoder) :
  decode (ir s) = Ok (true, d) ->
  mode s = 0 -> modeFlag s = 0 ->
  (ticks_diff (ticks_144 r) (start_time s) <? 200) && debounced (necData d)
  = true ->
  iteration r s
  = Ok (set_start_time (ticks_159 r)
          (set_ir (set_necData 0 d) (set_stop_time (ticks_144 r) s)), []).
Proof.
  intros E M F D. rewrite (iteration_eq r s true d E).
  set (s0 := set_ir d (set_stop_time (ticks_144 r) s)).
  rewrite andthen_eq, when_true by reflexivity.
  rewrite (dispatch_discarded r s0) by assumption.
  cbn [fst snd].
  rewrite automatic_off by exact M.
  reflexivity.
Qed.

Lemma iteration_nothing (r : readings) (s : station) (d : necDecoder) :
  decode (ir s) = Ok (false, d) ->
  mode s = 0 ->
  iteration r s = Ok (set_ir d (set_stop_time (ticks_144 r) s), []).
Proof.
  intros E M. rewrite (iteration_eq r s false d E).
  rewrite andthen_eq, when_false by reflexivity.
  cbn [fst snd]. rewrite automatic_off by exact M. reflexivity.
Qed.

(** Once [necData] is 0, bursts of two counts change nothing. *)
Lemma muted_step (r : readings) (ticks : list Z) (s : station) :
  armed 0 s ->
  two_counts ticks ->
  exists s',
    iteration r (set_ir (after (burst ticks) (ir s)) s) = Ok (s', [])
    /\ armed 0 s'
    /\ controls s' = controls s.
Proof.
  intros [N [Q [C [M F]]]] [a [b [-> [Ra Rb]]]].
  destruct (quiet_pair a b (ir s) Q C Ra Rb) as [d [E [N' [Q' C']]]].
  rewrite N in N'.
  destruct (match_ (toMS a) 9000 && match_ (toMS b) 2250).
  - eexists. split.
    + rewrite (iteration_kept r (set_ir (after (burst [a; b]) (ir s)) s)
                 d E M F).
      * rewrite Remote_idle by exact N'. reflexivity.
      * rewrite N'. discriminate.
      * rewrite N'. apply andb_false_r.
    + split; [| reflexivity].
      split; [exact N' | split; [exact Q' | split; [exact C' | auto]]].
  - eexists. split.
    + apply (iteration_nothing r (set_ir (after (burst [a; b]) (ir s)) s)
               d E M).
    + split; [| reflexivity].
      split; [exact N' | split; [exact Q' | split; [exact C' | auto]]].
Qed.

Lemma muted_run (repeats : list (list Z * readings)) :
  forall (s : station) (effs : list effect),
    armed 0 s ->
    Forall (fun p => two_counts (fst p)) repeats ->
    exists s',
      live (flat_map (fun p => [Received (fst p); Iteration (snd p)]) repeats)
           effs s
      = Ok (s', effs)
      /\ armed 0 s'
      /\ controls s' = controls s.
Proof.
  induction repeats as [| [ticks r] repeats IH]; intros s effs A F.
  - exists s. cbn. auto.
  - inversion F as [| p ps T F']; subst. cbn [fst] in T.
    destruct (muted_step r ticks s A T) as [s1 [E [A1 C1]]].
    destruct (IH s1 effs A1 F') as [s' [E' [A' C']]].
    exists s'. cbn [flat_map app live fst snd].
    rewrite E. cbn [bind]. rewrite app_nil_r.
    split; [exact E' |]. split; [exact A' | congruence].
Qed.

Lemma panel_steps_S (a : Z) (n : nat) :
  panel_steps a (S n)
  = [servo_left_setDegree (Z.min 180 (a + 1));
     servo_right_setDegree (180 - Z.min 180 (a + 1))]
    ++ panel_steps (Z.min 180 (a + 1)) n.
Proof.
  unfold panel_steps. cbn [seq flat_map]. f_equal.
  rewrite <- seq_shift, flat_map_concat_map, map_map, <- flat_map_concat_map.
  apply flat_map_ext. intros i.
  replace (Z.min 180 (a + Z.of_nat (S i)))
    with (Z.min 180 (Z.min 180 (a + 1) + Z.of_nat i)) by lia.
  reflexivity.
Qed.

(** A repeat frame while the key [up] is held: one more step. *)
Lemma up_step (r : readings) (ticks : list Z) (s : station) :
  armed key_up s ->
  servoAngle s <= 180 ->
  repeat_frame ticks ->
  exists s',
    iteration r (set_ir (after (burst ticks) (ir s)) s)
    = Ok (s', panel_steps (servoAngle s) 1)
    /\ armed key_up s'
    /\ servoAngle s' = Z.min 180 (servoAngle s + 1).
Proof.
  intros [N [Q [C [M F]]]] A [a [b [-> [Ra [Rb [Ma Mb]]]]]].
  destruct (quiet_pair a b (ir s) Q C Ra Rb) as [d [E [N' [Q' C']]]].
  rewrite Ma, Mb in E. cbn [andb] in E. rewrite N in N'.
  eexists. split; [| split].
  - rewrite (iteration_kept r (set_ir (after (burst [a; b]) (ir s)) s)
               d E M F).
    + rewrite Remote_up by (cbn; assumption). reflexivity.
    + rewrite N'. discriminate.
    + rewrite N'. apply andb_false_r.
  - split; [exact N' | split; [exact Q' | split; [exact C' | auto]]].
  - reflexivity.
Qed.

Lemma up_run (repeats : list (list Z * readings)) :
  forall (s : station) (effs : list effect),
    armed key_up s ->
    servoAngle s <= 180 ->
    Forall (fun p => repeat_frame (fst p)) repeats ->
    exists s',
      live (flat_map (fun p => [Received (fst p); Iteration (snd p)]) repeats)
           effs s
      = Ok (s', effs ++ panel_steps (servoAngle s) (length repeats))
      /\ servoAngle s'
         = Z.min 180 (servoAngle s + Z.of_nat (length repeats)).
Proof.
  induction repeats as [| [ticks r] repeats IH]; intros s effs A L F.
  - exists s. cbn [flat_map live length panel_steps seq].
    rewrite app_nil_r. split; [reflexivity | lia].
  - inversion F as [| p ps T F']; subst. cbn [fst] in T.
    destruct (up_step r ticks s A L T) as [s1 [E [A1 S1]]].
    destruct (IH s1 (effs ++ panel_steps (servoAngle s) 1) A1
                 ltac:(rewrite S1; lia) F') as [s' [E' S']].
    exists s'. cbn [flat_map app live fst snd length].
    rewrite E. cbn [bind]. rewrite E'. split.
    + rewrite S1, <- app_assoc, (panel_steps_S _ (length repeats)).
      reflexivity.
    + rewrite S', S1. lia.
Qed.

End RemoteMode.

(** ** The solar panels *)

Section Panels.

Lemma opposed_app_upto (n : nat) :
  forall e1 e2 : list effect,
    (length e1 <= n)%nat ->
    opposed e1 = true ->
    opposed (e1 ++ e2) = opposed e2.
Proof.
  induction n as [| n IH]; intros e1 e2 L H.
  - destruct e1; [reflexivity | cbn in L; lia].
  - destruct e1 as [| x e1]; [reflexivity |].
    cbn [length] in L.
    destruct x;
      try (cbn [app opposed] in *; apply IH; [lia | exact H]).
    + destruct e1 as [| y e1]; [discriminate H |].
      destruct y; try discriminate H.
      cbn [app opposed length] in *.
      apply andb_true_iff in H. destruct H as [H1 H2].
      rewrite H1. cbn [andb]. apply IH; [lia | exact H2].
    + discriminate H.
Qed.

Lemma opposed_app (e1 e2 : list effect) :
  opposed e1 = true -> opposed e2 = true -> opposed (e1 ++ e2) = true.
Proof.
  intros H1 H2. rewrite (opposed_app_upto (length e1)); auto.
Qed.

Lemma steady_pass : steady pass.
Proof. intros s A. cbn. auto. Qed.

Lemma steady_assign (f : station -> station) :
  (forall s, servoAngle (f s) = servoAngle s) -> steady (assign f).
Proof. intros H s A. cbn. rewrite H. auto. Qed.

Lemma steady_call (e : station -> effect) :
  (forall s, opposed [e s] = true) -> steady (call e).
Proof. intros H s A. cbn [call fst snd]. auto. Qed.

Lemma steady_andthen (p q : stmt) : steady p -> steady q -> steady (p ;;; q).
Proof.
  intros P Q s A. rewrite andthen_eq. cbn [fst snd].
  destruct (P s A) as [A1 O1]. destruct (Q _ A1) as [A2 O2].
  split; [exact A2 | apply opposed_app; assumption].
Qed.

Lemma steady_ifelse (c : station -> bool) (p q : stmt) :
  steady p -> steady q -> steady (ifelse c p q).
Proof. intros P Q s A. unfold ifelse. destruct (c s); auto. Qed.

Lemma steady_when (c : station -> bool) (p : stmt) :
  steady p -> steady (when c p).
Proof. intros P. apply steady_ifelse; [exact P | exact steady_pass]. Qed.

Lemma steady_panels (f g : station -> Z) :
  (forall s, 0 <= servoAngle s <= 180 ->
             f s + g s = 180 /\ 0 <= f s <= 180) ->
  steady (call (fun s => servo_left_setDegree (f s)) ;;;
          call (fun s => servo_right_setDegree (g s))).
Proof.
  intros H s A. destruct (H s A) as [E R].
  cbn [andthen call fst snd app opposed].
  split; [exact A |].
  rewrite !andb_true_iff, Z.eqb_eq, !Z.leb_le. lia.
Qed.

Lemma steady_up :
  steady (when (fun s => servoAngle s <? 180)
            (assign (fun s => set_servoAngle (servoAngle s + 1) s))).
Proof.
  intros s A. unfold when, ifelse, assign, pass.
  destruct (servoAngle s <? 180) eqn:E; cbn [fst snd servoAngle set_servoAngle].
  - apply Z.ltb_lt in E. split; [lia | reflexivity].
  - auto.
Qed.

Lemma steady_down :
  steady (when (fun s => servoAngle s >? 0)
            (assign (fun s => set_servoAngle (servoAngle s - 1) s))).
Proof.
  intros s A. unfold when, ifelse, assign, pass.
  destruct (servoAngle s >? 0) eqn:E; cbn [fst snd servoAngle set_servoAngle].
  - apply Z.gtb_lt in E. split; [lia | reflexivity].
  - auto.
Qed.

Lemma Remote_steady (r : readings) : steady (Remote r).
Proof.
  unfold Remote.
  repeat first
    [ apply steady_up
    | apply steady_down
    | apply steady_panels; intros s A; cbn beta; lia
    | apply steady_andthen
    | apply steady_when
    | apply steady_ifelse
    | apply steady_pass
    | apply steady_assign; intros s; reflexivity
    | apply steady_call; intros s;
      repeat match goal with
             | |- context [if ?c then _ else _] => destruct c
             end; reflexivity ].
Qed.

Lemma Auto_steady (r : readings) : steady (Auto r).
Proof.
  unfold Auto.
  repeat first
    [ apply steady_panels; intros s A; cbn beta; lia
    | apply steady_andthen
    | apply steady_when
    | apply steady_ifelse
    | apply steady_pass
    | apply steady_assign; intros s; reflexivity
    | apply steady_call; intros s; reflexivity ].
Qed.

Lemma iteration_steady (r : readings) (s s' : station) (e : list effect) :
  0 <= servoAngle s <= 180 ->
  iteration r s = Ok (s', e) ->
  0 <= servoAngle s' <= 180 /\ opposed e = true.
Proof.
  intros A H. unfold iteration in H.
  destruct (decode _) as [[b d] |]; [| discriminate H].
  cbn [bind] in H. injection H as H.
  assert (S : steady (when (fun _ => b) (dispatch r) ;;; automatic r)).
  { unfold dispatch, automatic.
    repeat first
      [ apply Remote_steady
      | apply Auto_steady
      | apply steady_andthen
      | apply steady_when
      | apply steady_pass
      | apply steady_assign; intros s0; reflexivity
      | apply steady_call; intros s0; reflexivity ]. }
  specialize (S (set_ir d (set_stop_time (ticks_144 r) s)) A).
  rewrite H in S. exact S.
Qed.

End Panels.

(** X22: the two solar panels always mirror each other.  Through every
    sequence of received bursts and loop iterations, in remote and in
    automatic mode, [servoAngle] stays between 0 and 180 and each
    [servo_left.setDegree(a)] is followed at once by
    [servo_right.setDegree(180 - a)], with [a] between 0 and 180. *)
Theorem panels_stay_opposed (hs : list happening) :
  forall (effs0 effs : list effect) (s s' : station),
    0 <= servoAngle s <= 180 ->
    opposed effs0 = true ->
    live hs effs0 s = Ok (s', effs) ->
    0 <= servoAngle s' <= 180 /\ opposed effs = true.
Proof.
  induction hs as [| h hs IH]; intros effs0 effs s s' A O H.
  - cbn in H. injection H as <- <-. auto.
  - destruct h as [ticks | r]; cbn [live] in H.
    + apply (IH _ _ (set_ir (after (burst ticks) (ir s)) s) _ A O H).
    + destruct (iteration r s) as [[s1 e] |] eqn:E; [| discriminate H].
      cbn [bind] in H.
      destruct (iteration_steady r s s1 e A E) as [A1 O1].
      apply (IH _ _ _ _ A1 (opposed_app _ _ O O1) H).
Qed.

Lemma panels_stay_opposed_witness :
  opposed [display_scroll_auto; stepper_degree 100 1;
           servo_left_setDegree 45; servo_right_setDegree 135; led_off]
  = true.
Proof.
  apply (panels_stay_opposed
           [Received (frame 1152 576 72 72 215 (nec_bits key_ok));
            Iteration (mkReadings 1000 1001 1002 1003 true 77 55 100)]
           [] _ boot
           (set_start_time 1002
              (set_modeFlag 1
                 (set_start_time 1001
                    (set_mode 1
                       (set_ir
                          (set_err 0
                             (set_necData key_ok
                                (frameStart
                                   (takeCommand
                                      (finalized
                                         (frame 1152 576 72 72 215
                                                (nec_bits key_ok))
                                         (init true))))))
                          (set_stop_time 1000 boot))))))).
  - vm_compute. split; discriminate.
  - reflexivity.
  - vm_compute. reflexivity.
Defined.

(** X23: a one-shot key acts once however long it is held.  In remote mode,
    the frame of one of the keys 0, 1, 2, 3, 5, 8 that is reported 200 ms or
    more after [start_time] is dispatched once by [Remote()]; when the first
    repeat frame is reported less than 200 ms after that iteration, line 150
    sets [necData] to 0, and since a repeat frame never restores the code,
    no later burst of two counts dispatches anything, whatever its timing:
    the effects of the whole press are those of the one call of
    [Remote()]. *)
Theorem held_key_acts_once (k : Z) (fr : list Z) (r0 : readings)
  (repeats : list (list Z * readings)) (s : station) :
  quiet (ir s) -> commandRepeat (ir s) = true ->
  mode s = 0 -> modeFlag s = 0 ->
  debounced k = true -> k <> key_ok ->
  command_frame k fr ->
  200 <= ticks_diff (ticks_144 r0) (start_time s) ->
  match repeats with
  | [] => True
  | p :: _ => repeat_frame (fst p)
              /\ ticks_diff (ticks_144 (snd p)) (ticks_159 r0) < 200
  end ->
  Forall (fun p => two_counts (fst p)) repeats ->
  exists s',
    live (press fr r0 repeats) [] s
    = Ok (s', snd (Remote r0 (holding k s)))
    /\ controls s' = controls (fst (Remote r0 (holding k s)))
    /\ mode s' = 0.
Proof.
  intros Q C M F D K FR T0 T1 TW.
  destruct (quiet_frame k fr (ir s) Q (debounced_range k D) FR)
    as [d [E [N [Q' C']]]].
  rewrite C in C'.
  set (s0 := set_ir (after (burst fr) (ir s)) s).
  set (sr := set_ir d (set_stop_time (ticks_144 r0) s0)).
  assert (I0 : iteration r0 s0
               = Ok (set_start_time (ticks_159 r0) (fst (Remote r0 sr)),
                     snd (Remote r0 sr))).
  { apply (iteration_kept r0 s0 d E M F).
    - rewrite N. exact K.
    - apply andb_false_intro1, Z.ltb_ge. exact T0. }
  destruct (Remote_view r0 sr (holding k s)) as [V1 V2];
    [exact N | reflexivity |].
  destruct (Remote_keeps r0 sr) as [K1 [K2 [K3 _]]].
  set (s1 := set_start_time (ticks_159 r0) (fst (Remote r0 sr))) in *.
  assert (A1 : armed k s1).
  { unfold armed, s1. cbn [ir mode modeFlag set_start_time].
    rewrite K1, K2, K3. cbn [ir sr set_ir]. auto. }
  unfold press. cbn [live]. fold s0. rewrite I0. cbn [bind app].
  rewrite V1.
  destruct repeats as [| [ticks r1] repeats].
  - exists s1. cbn [flat_map live]. split; [reflexivity |].
    split; [exact V2 |]. apply A1.
  - cbn [fst snd] in T1.
    destruct T1 as [[a [b [-> [Ra [Rb [Ma Mb]]]]]] T1].
    pose proof (Forall_inv_tail TW) as TW'.
    destruct A1 as [N1 [Q1 [C1 [M1 F1]]]].
    destruct (quiet_pair a b (ir s1) Q1 C1 Ra Rb) as [d2 [E2 [N2 [Q2 C2]]]].
    rewrite Ma, Mb in E2. cbn [andb] in E2. rewrite N1 in N2.
    set (s2 := set_ir (after (burst [a; b]) (ir s1)) s1).
    assert (I1 : iteration r1 s2
                 = Ok (set_start_time (ticks_159 r1)
                         (set_ir (set_necData 0 d2)
                                 (set_stop_time (ticks_144 r1) s2)), [])).
    { apply (iteration_discarded r1 s2 d2 E2 M1 F1).
      rewrite N2, D.
      replace (start_time s2) with (ticks_159 r0) by reflexivity.
      apply andb_true_intro. split; [apply Z.ltb_lt; exact T1 | reflexivity]. }
    set (s3 := set_start_time (ticks_159 r1)
                 (set_ir (set_necData 0 d2)
                         (set_stop_time (ticks_144 r1) s2))) in *.
    assert (A3 : armed 0 s3).
    { split; [reflexivity |]. split; [exact Q2 |]. split; [exact C2 | auto]. }
    destruct (muted_run repeats s3 (snd (Remote r0 (holding k s))) A3 TW')
      as [s' [E' [A' C3]]].
    exists s'. cbn [flat_map app live fst snd]. fold s2.
    rewrite I1. cbn [bind]. rewrite app_nil_r.
    split; [exact E' |]. split; [| apply A'].
    rewrite C3. exact V2.
Qed.

Lemma held_key_acts_once_witness :
  exists s',
    live (press (frame 1152 576 72 72 215 (nec_bits key_1))
                (mkReadings 1000 1001 0 0 true 0 0 0)
                [([1152; 288], mkReadings 1100 1101 0 0 true 0 0 0);
                 ([1152; 288], mkReadings 1400 1401 0 0 true 0 0 0)])
         [] boot
    = Ok (s', snd (Remote (mkReadings 1000 1001 0 0 true 0 0 0)
                          (holding key_1 boot)))
    /\ snd (Remote (mkReadings 1000 1001 0 0 true 0 0 0) (holding key_1 boot))
       = [led_on].
Proof.
  destruct (held_key_acts_once key_1
              (frame 1152 576 72 72 215 (nec_bits key_1))
              (mkReadings 1000 1001 0 0 true 0 0 0)
              [([1152; 288], mkReadings 1100 1101 0 0 true 0 0 0);
               ([1152; 288], mkReadings 1400 1401 0 0 true 0 0 0)]
              boot) as [s' [E _]].
  - repeat split.
  - reflexivity.
  - reflexivity.
  - reflexivity.
  - reflexivity.
  - discriminate.
  - exists 1152, 576, 72, 72, 215. split; [reflexivity |].
    split; [lia |]. split; [lia |].
    split; [left; vm_compute; reflexivity |].
    split; vm_compute; reflexivity.
  - vm_compute. discriminate.
  - split; [| vm_compute; reflexivity].
    exists 1152, 288. split; [reflexivity |].
    split; [lia |]. split; [lia |]. split; vm_compute; reflexivity.
  - repeat constructor; exists 1152, 288; (split; [reflexivity | lia]).
  - exists s'. split; [exact E | reflexivity].
Defined.

(** X24: a press that comes too early is lost as a whole.  In remote mode,
    when the frame of one of the keys OK, 0, 1, 2, 3, 5, 8 is reported less
    than 200 ms after [start_time], line 150 discards it, and no burst of
    two counts that follows brings it back: holding the key produces no
    effect at all, the switches, the angles and the mode stay as they
    were. *)
Theorem early_press_is_lost (k : Z) (fr : list Z) (r0 : readings)
  (repeats : list (list Z * readings)) (s : station) :
  quiet (ir s) -> commandRepeat (ir s) = true ->
  mode s = 0 -> modeFlag s = 0 ->
  debounced k = true ->
  command_frame k fr ->
  ticks_diff (ticks_144 r0) (start_time s) < 200 ->
  Forall (fun p => two_counts (fst p)) repeats ->
  exists s',
    live (press fr r0 repeats) [] s = Ok (s', [])
    /\ controls s' = controls s
    /\ mode s' = 0
    /\ necData (ir s') = 0.
Proof.
  intros Q C M F D FR T0 TW.
  destruct (quiet_frame k fr (ir s) Q (debounced_range k D) FR)
    as [d [E [N [Q' C']]]].
  rewrite C in C'.
  set (s0 := set_ir (after (burst fr) (ir s)) s).
  assert (I0 : iteration r0 s0
               = Ok (set_start_time (ticks_159 r0)
                       (set_ir (set_necData 0 d)
                               (set_stop_time (ticks_144 r0) s0)), [])).
  { apply (iteration_discarded r0 s0 d E M F).
    rewrite N, D. apply andb_true_intro.
    split; [apply Z.ltb_lt; exact T0 | reflexivity]. }
  set (s1 := set_start_time (ticks_159 r0)
               (set_ir (set_necData 0 d)
                       (set_stop_time (ticks_144 r0) s0))) in *.
  assert (A1 : armed 0 s1).
  { split; [reflexivity |]. split; [exact Q' |]. split; [exact C' | auto]. }
  destruct (muted_run repeats s1 [] A1 TW) as [s' [E' [A' C'']]].
  exists s'. unfold press. cbn [live]. fold s0. rewrite I0. cbn [bind app].
  split; [exact E' |]. split; [rewrite C''; reflexivity |].
  split; apply A'.
Qed.

Lemma early_press_is_lost_witness :
  exists s',
    live (press (frame 1152 576 72 72 215 (nec_bits key_ok))
                (mkReadings 150 151 0 0 true 0 0 0)
                [([1152; 288], mkReadings 1100 1101 0 0 true 0 0 0)])
         [] boot
    = Ok (s', [])
    /\ mode s' = 0.
Proof.
  destruct (early_press_is_lost key_ok
              (frame 1152 576 72 72 215 (nec_bits key_ok))
              (mkReadings 150 151 0 0 true 0 0 0)
              [([1152; 288], mkReadings 1100 1101 0 0 true 0 0 0)]
              boot) as [s' [E [_ [M _]]]].
  - repeat split.
  - reflexivity.
  - reflexivity.
  - reflexivity.
  - reflexivity.
  - exists 1152, 576, 72, 72, 215. split; [reflexivity |].
    split; [lia |]. split; [lia |].
    split; [left; vm_compute; reflexivity |].
    split; vm_compute; reflexivity.
  - vm_compute. reflexivity.
  - repeat constructor; exists 1152, 288; (split; [reflexivity | lia]).
  - exists s'. split; [exact E | exact M].
Defined.

(** X25: an arrow key is not a one-shot key.  In remote mode, the frame of
    the key [up] and every repeat frame after it, whatever the timing, each
    make [Remote()] raise the panel angle by one degree up to 180 and
    command both panels: after the frame and n repeat frames the angle is
    min(180, angle + n + 1). *)
Theorem held_arrow_key_keeps_moving (fr : list Z) (r0 : readings)
  (repeats : list (list Z * readings)) (s : station) :
  quiet (ir s) -> commandRepeat (ir s) = true ->
  mode s = 0 -> modeFlag s = 0 ->
  servoAngle s <= 180 ->
  command_frame key_up fr ->
  Forall (fun p => repeat_frame (fst p)) repeats ->
  exists s',
    live (press fr r0 repeats) [] s
    = Ok (s', panel_steps (servoAngle s) (S (length repeats)))
    /\ servoAngle s'
       = Z.min 180 (servoAngle s + Z.of_nat (S (length repeats))).
Proof.
  intros Q C M F A FR RF.
  destruct (quiet_frame key_up fr (ir s) Q ltac:(vm_compute; split; congruence)
                        FR) as [d [E [N [Q' C']]]].
  rewrite C in C'.
  set (s0 := set_ir (after (burst fr) (ir s)) s).
  set (sr := set_ir d (set_stop_time (ticks_144 r0) s0)).
  assert (I0 : iteration r0 s0
               = Ok (set_start_time (ticks_159 r0) (fst (Remote r0 sr)),
                     snd (Remote r0 sr))).
  { apply (iteration_kept r0 s0 d E M F).
    - rewrite N. discriminate.
    - rewrite N. apply andb_false_r. }
  rewrite (Remote_up r0 sr N A) in I0. cbn [fst snd] in I0.
  change (servoAngle sr) with (servoAngle s) in I0.
  set (s1 := set_start_time (ticks_159 r0)
               (set_servoAngle (Z.min 180 (servoAngle s + 1)) sr)) in *.
  assert (A1 : armed key_up s1).
  { split; [exact N |]. split; [exact Q' |]. split; [exact C' | auto]. }
  destruct (up_run repeats s1 (panel_steps (servoAngle s) 1) A1
                   ltac:(cbn; lia) RF) as [s' [E' S']].
  exists s'. unfold press. cbn [live]. fold s0. rewrite I0. cbn [bind app].
  fold (panel_steps (servoAngle s) 1) in *.
  change ([servo_left_setDegree (Z.min 180 (servoAngle s + 1));
           servo_right_setDegree (180 - Z.min 180 (servoAngle s + 1))])
    with (panel_steps (servoAngle s) 1).
  rewrite E'. split.
  - change (servoAngle s1) with (Z.min 180 (servoAngle s + 1)).
    rewrite (panel_steps_S (servoAngle s) (length repeats)). reflexivity.
  - rewrite S'. change (servoAngle s1) with (Z.min 180 (servoAngle s + 1)).
    lia.
Qed.

Lemma held_arrow_key_keeps_moving_witness :
  exists s',
    live (press (frame 1152 576 72 72 215 (nec_bits key_up))
                (mkReadings 1000 1001 0 0 true 0 0 0)
                [([1152; 288], mkReadings 1100 1101 0 0 true 0 0 0)])
         [] boot
    = Ok (s', panel_steps (servoAngle boot) 2)
    /\ panel_steps (servoAngle boot) 2
       = [servo_left_setDegree 91; servo_right_setDegree 89;
          servo_left_setDegree 92; servo_right_setDegree 88].
Proof.
  destruct (held_arrow_key_keeps_moving
              (frame 1152 576 72 72 215 (nec_bits key_up))
              (mkReadings 1000 1001 0 0 true 0 0 0)
              [([1152; 288], mkReadings 1100 1101 0 0 true 0 0 0)]
              boot) as [s' [E _]].
  - repeat split.
  - reflexivity.
  - reflexivity.
  - reflexivity.
  - vm_compute. discriminate.
  - exists 1152, 576, 72, 72, 215. split; [reflexivity |].
    split; [lia |]. split; [lia |].
    split; [left; vm_compute; reflexivity |].
    split; vm_compute; reflexivity.
  - repeat constructor. exists 1152, 288. split; [reflexivity |].
    split; [lia |]. split; [lia |]. split; vm_compute; reflexivity.
  - exists s'. split; [exact E | reflexivity].
Defined.

(** ** The low-battery warning *)

Section Battery.

Lemma warnings_app (e1 e2 : list effect) :
  warnings (e1 ++ e2) = (warnings e1 + warnings e2)%nat.
Proof. unfold warnings. rewrite filter_app, length_app. reflexivity. Qed.

Lemma thrifty_pass : thrifty pass.
Proof. intros s. cbn. lia. Qed.

Lemma thrifty_assign (f : station -> station) :
  (forall s, warningFlag (f s) = warningFlag s) -> thrifty (assign f).
Proof. intros H s. unfold budget. cbn. rewrite H. lia. Qed.

Lemma thrifty_call (e : station -> effect) :
  (forall s, warnings [e s] = 0%nat) -> thrifty (call e).
Proof. intros H s. cbn [call fst snd]. rewrite H. lia. Qed.

Lemma thrifty_andthen (p q : stmt) :
  thrifty p -> thrifty q -> thrifty (p ;;; q).
Proof.
  intros P Q s. rewrite andthen_eq. cbn [fst snd]. rewrite warnings_app.
  specialize (P s). specialize (Q (fst (p s))). lia.
Qed.

Lemma thrifty_ifelse (c : station -> bool) (p q : stmt) :
  thrifty p -> thrifty q -> thrifty (ifelse c p q).
Proof. intros P Q s. unfold ifelse. destruct (c s); auto. Qed.

Lemma thrifty_when (c : station -> bool) (p : stmt) :
  thrifty p -> thrifty (when c p).
Proof. intros P. apply thrifty_ifelse; [exact P | exact thrifty_pass]. Qed.

Lemma Remote_thrifty (r : readings) : thrifty (Remote r).
Proof.
  unfold Remote.
  repeat first
    [ apply thrifty_andthen
    | apply thrifty_when
    | apply thrifty_ifelse
    | apply thrifty_pass
    | apply thrifty_assign; intros s; reflexivity
    | apply thrifty_call; intros s;
      repeat match goal with
             | |- context [if ?c then _ else _] => destruct c
             end; reflexivity ].
Qed.

(** The warning of lines 120-126 is given when the flag is up, and lowers
    it. *)
Lemma warning_thrifty (r : readings) :
  thrifty
    (when (fun s => (percentageVoltage r <? 10) && warningFlag s)
       (call (fun _ => display_scroll_bat (percentageVoltage r)) ;;;
        call (fun _ => buzzer_setVolume 100) ;;;
        call (fun _ => time_sleep 5) ;;;
        call (fun _ => buzzer_setVolume 0) ;;;
        assign (set_warningFlag false) ;;;
        assign (set_start_time (ticks_126 r)))).
Proof.
  intros s. unfold when, ifelse, budget.
  destruct (percentageVoltage r <? 10); cbn [andb]; [| cbn; lia].
  destruct (warningFlag s) eqn:W; [| cbn; rewrite W; lia].
  cbn. lia.
Qed.

Lemma Auto_thrifty (r : readings) :
  percentageVoltage r <= 10 -> thrifty (Auto r).
Proof.
  intros P. unfold Auto.
  apply thrifty_andthen; [apply warning_thrifty |].
  apply thrifty_andthen.
  { intros s. unfold when, ifelse.
    destruct (percentageVoltage r >? 10) eqn:E;
      [apply Z.gtb_lt in E; lia | cbn; lia]. }
  repeat first
    [ apply thrifty_andthen
    | apply thrifty_ifelse
    | apply thrifty_call; intros s; reflexivity ].
Qed.

Lemma iteration_thrifty (r : readings) (s s' : station) (e : list effect) :
  percentageVoltage r <= 10 ->
  iteration r s = Ok (s', e) ->
  (warnings e + budget s' <= budget s)%nat.
Proof.
  intros P H. unfold iteration in H.
  destruct (decode _) as [[b d] |]; [| discriminate H].
  cbn [bind] in H. injection H as H.
  assert (T : thrifty (when (fun _ => b) (dispatch r) ;;; automatic r)).
  { unfold dispatch, automatic.
    repeat first
      [ apply Remote_thrifty
      | apply (Auto_thrifty r P)
      | apply thrifty_andthen
      | apply thrifty_when
      | apply thrifty_pass
      | apply thrifty_assign; intros s0; reflexivity
      | apply thrifty_call; intros s0; reflexivity ]. }
  specialize (T (set_ir d (set_stop_time (ticks_144 r) s))).
  rewrite H in T. exact T.
Qed.

Lemma live_thrifty (hs : list happening) :
  forall (effs0 effs : list effect) (s s' : station),
    Forall battery_low hs ->
    live hs effs0 s = Ok (s', effs) ->
    (warnings effs + budget s' <= warnings effs0 + budget s)%nat.
Proof.
  induction hs as [| h hs IH]; intros effs0 effs s s' F H.
  - cbn in H. injection H as <- <-. lia.
  - pose proof (Forall_inv F) as F0. pose proof (Forall_inv_tail F) as F'.
    destruct h as [ticks | r]; cbn [live] in H.
    + apply (IH _ _ (set_ir (after (burst ticks) (ir s)) s) _ F' H).
    + destruct (iteration r s) as [[s1 e] |] eqn:E; [| discriminate H].
      cbn [bind] in H. cbn [battery_low] in F0.
      pose proof (iteration_thrifty r s s1 e F0 E) as T.
      pose proof (IH _ _ _ _ F' H) as T'.
      rewrite warnings_app in T'. lia.
Qed.

End Battery.

(** X26: the low-battery warning is given once.  Through any sequence of
    received bursts and loop iterations in which the battery is read at 10
    percent or less, in either mode and whatever is received, the warning
    of lines 120-126 (display, buzzer, five seconds of sleep) is given at
    most once, and not at all when [warningFlag] is down at the start: only
    a reading above 10 percent raises the flag again. *)
Theorem battery_warning_sounds_once (hs : list happening)
  (s s' : station) (effs : list effect) :
  Forall battery_low hs ->
  live hs [] s = Ok (s', effs) ->
  (warnings effs <= 1)%nat
  /\ (warningFlag s = false -> warnings effs = 0%nat /\ warningFlag s' = false).
Proof.
  intros F H. pose proof (live_thrifty hs [] effs s s' F H) as T.
  unfold budget in T. cbn [warnings filter length] in T.
  split.
  - destruct (warningFlag s), (warningFlag s'); lia.
  - intros W. rewrite W in T. destruct (warningFlag s'); [lia |].
    split; [lia | reflexivity].
Qed.

Lemma battery_warning_sounds_once_witness :
  (warnings [display_scroll_bat 5; buzzer_setVolume 100; time_sleep 5;
             buzzer_setVolume 0; stepper_degree 100 1;
             servo_left_setDegree 45; servo_right_setDegree 135; led_off;
             stepper_degree 100 1; servo_left_setDegree 45;
             servo_right_setDegree 135; led_off] <= 1)%nat.
Proof.
  apply (battery_warning_sounds_once
           [Iteration (mkReadings 1000 1001 1002 1003 true 77 5 100);
            Iteration (mkReadings 7000 7001 7002 7003 true 77 5 100)]
           (set_modeFlag 1 (set_mode 1 boot))
           (set_stop_time 7000
              (set_start_time 1003
                 (set_warningFlag false
                    (set_stop_time 1000 (set_modeFlag 1 (set_mode 1 boot))))))).
  - repeat constructor; cbn; lia.
  - vm_compute. reflexivity.
Defined.
